(** * NYCETA feature extraction: a shallow embedding of [obtain_features.py]

    The Python module turns rows of taxi rides (two timestamps, two
    location identifiers) into feature vectors and a travel-time target.
    This file embeds its functions as Rocq functions and states the
    properties of the specification over them.

    Conventions of the embedding.
    - A Python call that may raise returns a [result]: [Ok v] or [Err e],
      where [e] names the exception class.
    - Python [int] is [Z]; NumPy floating-point entries are exact rationals
      [Q] (rounding is not modelled: every statement about matrix entries
      is a statement of exact arithmetic).
    - A NumPy array or SciPy CSR matrix is a [matrix]: its family (dense or
      sparse), its column count and its rows.
    - Functions that talk to SQLite or read a file run in the monad [M],
      which threads the log of input/output events. *)

From Stdlib Require Import String Ascii DecimalString ZArith QArith Qminmax Bool Lia Lqa List.
Import ListNotations.
Local Open Scope Z_scope.

(** ** Exceptions and results *)

Inductive exit_status :=
| ExitCode (n : Z)
| ExitMessage (msg : string).

Inductive exn :=
| ValueError
| IndexError
| TypeError
| OverflowError
| ZeroDivisionError
| AssertionError
| UnboundLocalError
| SqliteError
| OSError
| SystemExit (st : exit_status).

Inductive result (A : Type) :=
| Ok (a : A)
| Err (e : exn).
Arguments Ok {A} a.
Arguments Err {A} e.

Definition rbind {A B} (r : result A) (k : A -> result B) : result B :=
  match r with
  | Ok a => k a
  | Err e => Err e
  end.

Declare Scope result_scope.
Delimit Scope result_scope with result.
Notation "x <- e ;; k" := (rbind e (fun x => k))
  (at level 61, e at next level, right associativity) : result_scope.
Notation "' p <- e ;; k" := (rbind e (fun x => match x with p => k end))
  (at level 61, p pattern, e at next level, right associativity) : result_scope.
Local Open Scope result_scope.

(** [[f(x) for x in l]]: the first exception aborts the comprehension. *)
Fixpoint map_result {A B} (f : A -> result B) (l : list A) : result (list B) :=
  match l with
  | [] => Ok []
  | a :: t => b <- f a ;; bs <- map_result f t ;; Ok (b :: bs)
  end.

Definition is_ok {A} (r : result A) : bool :=
  match r with Ok _ => true | Err _ => false end.

(** Python indexing [l[i]] of a list or of the first axis of an array:
    a negative index counts from the end, an index out of range raises
    [IndexError]. *)
Definition py_index {A} (l : list A) (i : Z) : result A :=
  let n := Z.of_nat (length l) in
  let j := if i <? 0 then i + n else i in
  if (0 <=? j) && (j <? n) then
    match nth_error l (Z.to_nat j) with
    | Some a => Ok a
    | None => Err IndexError
    end
  else Err IndexError.

(** Python item assignment [l[i] = v], same index rule. *)
Fixpoint set_nth {A} (l : list A) (k : nat) (v : A) : list A :=
  match l, k with
  | [], _ => []
  | _ :: t, O => v :: t
  | a :: t, S k' => a :: set_nth t k' v
  end.

Definition py_setitem {A} (l : list A) (i : Z) (v : A) : result (list A) :=
  let n := Z.of_nat (length l) in
  let j := if i <? 0 then i + n else i in
  if (0 <=? j) && (j <? n) then Ok (set_nth l (Z.to_nat j) v)
  else Err IndexError.

(** ** Strings: [str.split] and [int] *)

(** [s.split(sep)] for a one-character separator. *)
Fixpoint split (sep : ascii) (s : string) : list string :=
  match s with
  | EmptyString => [EmptyString]
  | String c rest =>
      if Ascii.eqb c sep then EmptyString :: split sep rest
      else match split sep rest with
           | [] => [String c EmptyString]
           | h :: t => String c h :: t
           end
  end.

Definition is_space (c : ascii) : bool :=
  let n := nat_of_ascii c in
  (((9 <=? n) && (n <=? 13)) || ((28 <=? n) && (n <=? 32)))%nat.

Definition digit_val (c : ascii) : option Z :=
  let n := nat_of_ascii c in
  if ((48 <=? n) && (n <=? 57))%nat then Some (Z.of_nat (n - 48)) else None.

Fixpoint lstrip (s : string) : string :=
  match s with
  | String c r => if is_space c then lstrip r else s
  | EmptyString => EmptyString
  end.

Fixpoint rstrip (s : string) : string :=
  match s with
  | EmptyString => EmptyString
  | String c r =>
      match rstrip r with
      | EmptyString => if is_space c then EmptyString else String c EmptyString
      | r' => String c r'
      end
  end.

(** Decimal digits, single underscores allowed between two digits. *)
Fixpoint int_digits (s : string) (acc : Z) (after_digit : bool) : option Z :=
  match s with
  | EmptyString => if after_digit then Some acc else None
  | String c r =>
      match digit_val c with
      | Some d => int_digits r (10 * acc + d) true
      | None =>
          if Ascii.eqb c "_" && after_digit then int_digits r acc false
          else None
      end
  end.

(** Python [int(s)] on an ASCII string: surrounding whitespace, an optional
    sign, decimal digits.  Anything else raises [ValueError]. *)
Definition py_int (s : string) : result Z :=
  let t := rstrip (lstrip s) in
  let parsed :=
    match t with
    | String "+" r => int_digits r 0 false
    | String "-" r => option_map Z.opp (int_digits r 0 false)
    | _ => int_digits t 0 false
    end in
  match parsed with
  | Some z => Ok z
  | None => Err ValueError
  end.

(** ** [datetime.date(y, m, d).weekday()] *)

Definition is_leap (y : Z) : bool :=
  (y mod 4 =? 0) && (negb (y mod 100 =? 0) || (y mod 400 =? 0)).

Definition days_in_month (y m : Z) : Z :=
  if m =? 2 then (if is_leap y then 29 else 28)
  else if (m =? 4) || (m =? 6) || (m =? 9) || (m =? 11) then 30
  else 31.

Definition days_before_year (y : Z) : Z :=
  let p := y - 1 in p * 365 + p / 4 - p / 100 + p / 400.

Fixpoint days_before_month_aux (y : Z) (k : nat) : Z :=
  match k with
  | O => 0
  | S k' => days_before_month_aux y k' + days_in_month y (Z.of_nat k)
  end.

Definition days_before_month (y m : Z) : Z :=
  days_before_month_aux y (Z.to_nat (m - 1)).

Definition ymd2ord (y m d : Z) : Z :=
  days_before_year y + days_before_month y m + d.

Definition fits_c_int (z : Z) : bool :=
  (- 2147483648 <=? z) && (z <=? 2147483647).

(** The constructor checks the ranges; [weekday()] is Monday = 0. *)
Definition date_weekday (y m d : Z) : result Z :=
  if negb (fits_c_int y && fits_c_int m && fits_c_int d) then Err OverflowError
  else if (1 <=? y) && (y <=? 9999) && (1 <=? m) && (m <=? 12)
          && (1 <=? d) && (d <=? days_in_month y m)
  then Ok ((ymd2ord y m d + 6) mod 7)
  else Err ValueError.

(** ** [parse_datetime] *)

Record datetime_lists := {
  dl_dates : list Z;
  dl_months : list Z;
  dl_hours : list Z;
  dl_minutes : list Z;
  dl_seconds : list Z;
  dl_weekdays : list Z
}.

(** [dates, times = map(list, zip( *dt_list))]: [zip] stops at the
    shortest row, and the unpacking needs exactly two columns. *)
Definition min_length {A} (ll : list (list A)) : nat :=
  match ll with
  | [] => O
  | l :: t => fold_left (fun m x => Nat.min m (length x)) t (length l)
  end.

Definition unzip_two (dt_list : list (list string))
  : result (list string * list string) :=
  if (min_length dt_list =? 2)%nat then
    Ok (map (fun l => nth 0 l EmptyString) dt_list,
        map (fun l => nth 1 l EmptyString) dt_list)
  else Err ValueError.

(** [int(i[k])] *)
Definition int_at (k : Z) (i : list string) : result Z :=
  s <- py_index i k ;; py_int s.

(** The three parallel lists zipped, for the weekday comprehension. *)
Fixpoint weekdays_of (years months dates : list Z) : result (list Z) :=
  match years, months, dates with
  | y :: ys, m :: ms, d :: ds =>
      w <- date_weekday y m d ;;
      ws <- weekdays_of ys ms ds ;;
      Ok (w + 1 :: ws)
  | _, _, _ => Ok []
  end.

Definition parse_datetime (datetime_strs : list string) : result datetime_lists :=
  let dt_list := map (split " ") datetime_strs in
  '(dates, times) <- unzip_two dt_list ;;
  let date_list := map (split "-") dates in
  dates <- map_result (int_at 2) date_list ;;
  months <- map_result (int_at 1) date_list ;;
  years <- map_result (int_at 0) date_list ;;
  weekdays <- weekdays_of years months dates ;;
  let time_list := map (split ":") times in
  hours <- map_result (int_at 0) time_list ;;
  minutes <- map_result (int_at 1) time_list ;;
  seconds <- map_result (int_at 2) time_list ;;
  Ok {| dl_dates := dates; dl_months := months; dl_hours := hours;
        dl_minutes := minutes; dl_seconds := seconds;
        dl_weekdays := weekdays |}.

(** ** Matrices *)

Inductive family := Dense | Sparse.

Record matrix := {
  m_family : family;
  m_ncols : nat;
  m_rows : list (list Q)
}.

Definition nrows (m : matrix) : nat := length (m_rows m).

(** [np.array(l).reshape([-1, 1])]: one column of integers. *)
Definition column (l : list Z) : matrix :=
  {| m_family := Dense; m_ncols := 1; m_rows := map (fun z => [inject_Z z]) l |}.

Fixpoint zip_app (a b : list (list Q)) : list (list Q) :=
  match a, b with
  | x :: a', y :: b' => (x ++ y) :: zip_app a' b'
  | _, _ => []
  end.

(** [np.hstack] / [sparse.hstack(..., format="csr")]: the blocks must
    have the same number of rows; [fam] is the family of the result. *)
Definition hstack2 (fam : family) (a b : matrix) : result matrix :=
  if (nrows a =? nrows b)%nat then
    Ok {| m_family := fam; m_ncols := m_ncols a + m_ncols b;
          m_rows := zip_app (m_rows a) (m_rows b) |}
  else Err ValueError.

Definition hstack (fam : family) (blocks : list matrix) : result matrix :=
  match blocks with
  | [] => Err ValueError
  | b :: t =>
      fold_left (fun acc x => a <- acc ;; hstack2 fam a x) t
        (Ok {| m_family := fam; m_ncols := m_ncols b; m_rows := m_rows b |})
  end.

(** [np.vstack] / [sparse.vstack(..., format="csr")] of two matrices:
    the column counts must agree. *)
Definition vstack2 (fam : family) (a b : matrix) : result matrix :=
  if (m_ncols a =? m_ncols b)%nat then
    Ok {| m_family := fam; m_ncols := m_ncols a;
          m_rows := m_rows a ++ m_rows b |}
  else Err ValueError.

(** ** [get_one_hot] *)

Definition one_hot_row (width col : nat) : list Q :=
  map (fun j => if (j =? col)%nat then 1%Q else 0%Q) (seq 0 width).

(** [csr_matrix((data, (rows, cols)), shape=...)] rejects a column index
    that is negative or not below the width with [ValueError]. *)
Definition get_one_hot (values : list Z) (min_val max_val : Z) : result matrix :=
  let width := max_val - min_val + 1 in
  let cols := map (fun i => i - min_val) values in
  if width <? 0 then Err ValueError
  else if forallb (fun c => (0 <=? c) && (c <? width)) cols then
    Ok {| m_family := Sparse; m_ncols := Z.to_nat width;
          m_rows := map (fun c => one_hot_row (Z.to_nat width) (Z.to_nat c)) cols |}
  else Err ValueError.

(** ** [obtain_date_time_features] *)

Definition obtain_date_time_features (datetime_lists : datetime_lists)
    (datetime_onehot weekdays_onehot : bool) : result matrix :=
  '(dates, months, hours, minutes, seconds) <-
    (if datetime_onehot then
       dates <- get_one_hot (dl_dates datetime_lists) 1 31 ;;
       months <- get_one_hot (dl_months datetime_lists) 1 12 ;;
       hours <- get_one_hot (dl_hours datetime_lists) 0 23 ;;
       minutes <- get_one_hot (dl_minutes datetime_lists) 0 59 ;;
       seconds <- get_one_hot (dl_seconds datetime_lists) 0 59 ;;
       Ok (dates, months, hours, minutes, seconds)
     else
       Ok (column (dl_dates datetime_lists),
           column (dl_months datetime_lists),
           column (map (fun h => h + 1) (dl_hours datetime_lists)),
           column (map (fun m => m + 1) (dl_minutes datetime_lists)),
           column (map (fun s => s + 1) (dl_seconds datetime_lists)))) ;;
  weekdays <-
    (if weekdays_onehot then get_one_hot (dl_weekdays datetime_lists) 1 7
     else Ok (column (dl_weekdays datetime_lists))) ;;
  hstack (if datetime_onehot || weekdays_onehot then Sparse else Dense)
    [dates; months; hours; minutes; seconds; weekdays].

(** ** [datetime.timedelta] *)

Record timedelta := { td_days : Z; td_seconds : Z }.

(** The constructor normalises: the seconds field lies in [0, 86400) and
    whole days are carried into the days field. *)
Definition mk_timedelta (days hours minutes seconds : Z) : result timedelta :=
  let s := hours * 3600 + minutes * 60 + seconds in
  let d := days + s / 86400 in
  if Z.abs d >? 999999999 then Err OverflowError
  else Ok {| td_days := d; td_seconds := s mod 86400 |}.

(** ** [get_naive_features] *)

Record ride_row := {
  pickup_datetime : string;
  dropoff_datetime : string;
  PULocationID : Z;
  DOLocationID : Z
}.

(** [np.array([arr[i] for i in ids])] *)
Definition take_rows (arr : matrix) (ids : list Z) : result matrix :=
  rs <- map_result (py_index (m_rows arr)) ids ;;
  Ok {| m_family := Dense; m_ncols := m_ncols arr; m_rows := rs |}.

Definition get_naive_features (rows : list ride_row) (coords boros : matrix)
    (maxLocID : Z)
    (datetime_onehot weekdays_onehot include_loc_ids use_nn_ordering : bool)
  : result (matrix * list Z) :=
  p_datetime <-
    match parse_datetime (map pickup_datetime rows) with
    | Ok p => Ok p
    | Err _ => Err (SystemExit (ExitCode 1))
    end ;;
  d_datetime <- parse_datetime (map dropoff_datetime rows) ;;
  PUDatetime <- obtain_date_time_features p_datetime datetime_onehot weekdays_onehot ;;
  let PULocID := map PULocationID rows in
  let DOLocID := map DOLocationID rows in
  PUCoords <- take_rows coords PULocID ;;
  DOCoords <- take_rows coords DOLocID ;;
  PUBoroughs <- take_rows boros PULocID ;;
  DOBoroughs <- take_rows boros DOLocID ;;
  feature_vectors <-
    (if include_loc_ids then
       PULocID1h <- get_one_hot PULocID 1 maxLocID ;;
       DOLocID1h <- get_one_hot DOLocID 1 maxLocID ;;
       hstack Sparse [PULocID1h; PUCoords; PUBoroughs;
                      DOLocID1h; DOCoords; DOBoroughs; PUDatetime]
     else if datetime_onehot || weekdays_onehot then
       if use_nn_ordering then
         hstack Sparse [PUCoords; PUBoroughs; DOCoords; DOBoroughs; PUDatetime]
       else
         hstack Sparse [PUDatetime; PUCoords; DOCoords; PUBoroughs; DOBoroughs]
     else
       if use_nn_ordering then
         hstack Dense [PUCoords; PUBoroughs; DOCoords; DOBoroughs; PUDatetime]
       else
         hstack Dense [PUDatetime; PUCoords; DOCoords; PUBoroughs; DOBoroughs]) ;;
  delta <-
    map_result
      (fun i =>
         mk_timedelta
           (nth i (dl_dates d_datetime) 0 - nth i (dl_dates p_datetime) 0)
           (nth i (dl_hours d_datetime) 0 - nth i (dl_hours p_datetime) 0)
           (nth i (dl_minutes d_datetime) 0 - nth i (dl_minutes p_datetime) 0)
           (nth i (dl_seconds d_datetime) 0 - nth i (dl_seconds p_datetime) 0))
      (seq 0 (length rows)) ;;
  let time_taken := map td_seconds delta in
  Ok (feature_vectors, time_taken).

(** ** Reference loader: coordinates *)

(** [sklearn.preprocessing.MinMaxScaler], default feature range (0, 1). *)
Definition column_of (j : nat) (X : list (list Q)) : list Q :=
  map (fun r => nth j r 0%Q) X.

Definition list_min (l : list Q) : Q :=
  match l with
  | [] => 0%Q
  | x :: t => fold_left Qmin t x
  end.

Definition list_max (l : list Q) : Q :=
  match l with
  | [] => 0%Q
  | x :: t => fold_left Qmax t x
  end.

Definition handle_zeros_in_scale (r : Q) : Q :=
  if Qeq_bool r 0 then 1%Q else r.

Record minmax_scaler := {
  data_min_ : list Q;
  data_range_ : list Q;
  scale_ : list Q;
  min_ : list Q
}.

Definition minmax_fit (ncols : nat) (X : list (list Q)) : minmax_scaler :=
  let mins := map (fun j => list_min (column_of j X)) (seq 0 ncols) in
  let maxs := map (fun j => list_max (column_of j X)) (seq 0 ncols) in
  let ranges := map (fun p => (fst p - snd p)%Q) (combine maxs mins) in
  let scales := map (fun r => (1 / handle_zeros_in_scale r)%Q) ranges in
  {| data_min_ := mins;
     data_range_ := ranges;
     scale_ := scales;
     min_ := map (fun p => (0 - fst p * snd p)%Q) (combine mins scales) |}.

Definition minmax_transform (s : minmax_scaler) (X : list (list Q)) : list (list Q) :=
  map (fun r =>
         map (fun p => (fst p * fst (snd p) + snd (snd p))%Q)
           (combine r (combine (scale_ s) (min_ s))))
      X.

(** [fit_transform] refuses an array without rows. *)
Definition fit_transform (ncols : nat) (X : list (list Q)) : result (list (list Q)) :=
  match X with
  | [] => Err ValueError
  | _ => Ok (minmax_transform (minmax_fit ncols X) X)
  end.

(** The loop [for row in rows: coords[row[0]-1] = [row[1], row[2]]]. *)
Fixpoint place_coords (rows : list (Z * Q * Q)) (coords : list (list Q))
  : result (list (list Q)) :=
  match rows with
  | [] => Ok coords
  | (id, lat, long) :: rest =>
      c <- py_setitem coords (id - 1) [lat; long] ;;
      place_coords rest c
  end.

(** [extract_all_coordinates] once the rows are fetched. *)
Definition coordinates_array (rows : list (Z * Q * Q)) (normalized : bool)
  : result matrix :=
  coords <- place_coords rows (repeat [0%Q; 0%Q] (length rows)) ;;
  coords <- (if normalized then fit_transform 2 coords else Ok coords) ;;
  Ok {| m_family := Dense; m_ncols := 2; m_rows := [0%Q; 0%Q] :: coords |}.

(** ** Reference loader: regions *)

(** A Python [dict] with string keys, as the list of its items. *)
Fixpoint dict_get (d : list (string * Z)) (k : string) : option Z :=
  match d with
  | [] => None
  | (k', v) :: t => if String.eqb k' k then Some v else dict_get t k
  end.

Section Pipeline.

(** [borough_labels.BOROUGHS], the name-to-code table of the module
    [borough_labels]: the pipeline is parameterised by it. *)
Variable BOROUGHS : list (string * Z).

(** The loop of [extract_all_boroughs]:
    [if row[1] in BOROUGHS: boroughs[int(row[0])-1] = BOROUGHS[row[1]]]. *)
Fixpoint place_boroughs (rows : list (Z * string)) (boroughs : list Z)
  : result (list Z) :=
  match rows with
  | [] => Ok boroughs
  | (id, name) :: rest =>
      match dict_get BOROUGHS name with
      | Some code =>
          b <- py_setitem boroughs (id - 1) code ;;
          place_boroughs rest b
      | None => place_boroughs rest boroughs
      end
  end.

(** [extract_all_boroughs] once the rows are fetched. *)
Definition boroughs_array (rows : list (Z * string)) (maxLocID : Z)
  : result matrix :=
  if maxLocID <? 0 then Err ValueError
  else
    boroughs <- place_boroughs rows (repeat 0 (Z.to_nat maxLocID)) ;;
    onehot <- get_one_hot boroughs 1 6 ;;
    Ok {| m_family := Dense; m_ncols := 6;
          m_rows := repeat 0%Q 6 :: m_rows onehot |}.

(** ** Query construction *)

Definition dquote : string := String (ascii_of_nat 34) EmptyString.

Fixpoint join (sep : string) (l : list string) : string :=
  match l with
  | [] => EmptyString
  | [x] => x
  | x :: t => (x ++ sep ++ join sep t)%string
  end.

Definition list_to_quoted_string (l : list string) : string :=
  join ", " (map (fun x => (dquote ++ x ++ dquote)%string) l).

Definition filter_for_boros (command : string)
    (start_super_boro end_super_boro : list string) (two_way : bool) : string :=
  let start_boro_string := list_to_quoted_string start_super_boro in
  let end_boro_string := list_to_quoted_string end_super_boro in
  let command :=
    ("SELECT r.tpep_pickup_datetime, r.tpep_dropoff_datetime, "
     ++ "r.PULocationID, r.DOLocationID "
     ++ "FROM (" ++ command
     ++ ") r, "
     ++ "locations l1, locations l2 "
     ++ "WHERE l1.LocationID = r.PULocationID "
     ++ "AND l2.LocationID = r.DOLocationID ")%string in
  if two_way then
    (command
     ++ "AND ((l1.Borough in (" ++ start_boro_string ++ ") "
     ++ "AND l2.Borough in (" ++ end_boro_string ++ ")) "
     ++ "OR (l2.Borough in (" ++ start_boro_string ++ ") "
     ++ "AND l1.Borough in (" ++ end_boro_string ++ ")))")%string
  else
    (command
     ++ "AND l1.Borough in (" ++ start_boro_string ++ ") "
     ++ "AND l2.Borough in (" ++ end_boro_string ++ ")")%string.

(** The condition on the two joined region names that a query carries:
    [l1] is the pickup location's row, [l2] the drop-off location's. *)
Inductive boro_cond :=
| PickupIn (names : list string)
| DropoffIn (names : list string)
| CAnd (a b : boro_cond)
| COr (a b : boro_cond).

Fixpoint render (c : boro_cond) : string :=
  match c with
  | PickupIn names => ("l1.Borough in (" ++ list_to_quoted_string names ++ ")")%string
  | DropoffIn names => ("l2.Borough in (" ++ list_to_quoted_string names ++ ")")%string
  | CAnd a b => (render a ++ " AND " ++ render b)%string
  | COr a b => ("((" ++ render a ++ ") OR (" ++ render b ++ "))")%string
  end.

Definition name_in (names : list string) (x : string) : bool :=
  existsb (String.eqb x) names.

(** A ride goes from region [pu] to region [dropoff]. *)
Fixpoint cond_holds (c : boro_cond) (pu dropoff : string) : bool :=
  match c with
  | PickupIn names => name_in names pu
  | DropoffIn names => name_in names dropoff
  | CAnd a b => cond_holds a pu dropoff && cond_holds b pu dropoff
  | COr a b => cond_holds a pu dropoff || cond_holds b pu dropoff
  end.

Definition one_way_cond (s e : list string) : boro_cond :=
  CAnd (PickupIn s) (DropoffIn e).

Definition two_way_cond (s e : list string) : boro_cond :=
  COr (CAnd (PickupIn s) (DropoffIn e)) (CAnd (DropoffIn s) (PickupIn e)).

(** The head that [filter_for_boros] puts before the condition. *)
Definition boro_join_head (command : string) : string :=
  ("SELECT r.tpep_pickup_datetime, r.tpep_dropoff_datetime, "
   ++ "r.PULocationID, r.DOLocationID "
   ++ "FROM (" ++ command
   ++ ") r, "
   ++ "locations l1, locations l2 "
   ++ "WHERE l1.LocationID = r.PULocationID "
   ++ "AND l2.LocationID = r.DOLocationID AND ")%string.

(** ** Cutoff lookup and significance filter *)

(** The loop of [get_cutoff_value]; [cv] starts at [-1] and the first
    entry whose multiplier equals [n] ends the scan. *)
Fixpoint scan_cutoff (n : Q) (data_table : list (Q * Q)) (cv : Q) : Q :=
  match data_table with
  | [] => cv
  | entry :: rest =>
      if Qeq_bool (fst entry) n then snd entry
      else scan_cutoff n rest cv
  end.

(** The loop and the test after it, on a two-dimensional [data_table]:
    every [entry] is a row of two values. *)
Definition lookup_cutoff (n : Q) (data_table : list (Q * Q)) : result Q :=
  let cv := scan_cutoff n data_table (-1)%Q in
  if Qeq_bool cv (-1) then Err (SystemExit (ExitCode 1))
  else Ok cv.

(** What [np.loadtxt(datacsv, delimiter=',', skiprows=1, usecols=(0,1))]
    returns.  With the default [ndmin=0] the array is squeezed: a file
    with a single data row gives the one-dimensional array of its two
    values, not an array of one row. *)
Inductive loaded_table :=
| Table2D (rows : list (Q * Q))
| Table1D (values : list Q).

Definition loadtxt (rows : list (Q * Q)) : loaded_table :=
  match rows with
  | [(multiplier, cutoff)] => Table1D [multiplier; cutoff]
  | _ => Table2D rows
  end.

(** [for entry in data_table: if entry[0] == n: ...]: over a
    one-dimensional array [entry] is a scalar, and the subscript of the
    first pass raises [IndexError]. *)
Definition scan_loaded (n : Q) (data_table : loaded_table) : result Q :=
  match data_table with
  | Table2D rows => lookup_cutoff n rows
  | Table1D [] => lookup_cutoff n []
  | Table1D (_ :: _) => Err IndexError
  end.

(** Boolean-mask indexing [a[mask]] along the first axis. *)
Fixpoint mask_select {A} (mask : list bool) (l : list A) : list A :=
  match mask, l with
  | b :: mask', a :: l' =>
      if b then a :: mask_select mask' l' else mask_select mask' l'
  | _, _ => []
  end.

Definition toarray (m : matrix) : matrix :=
  {| m_family := Dense; m_ncols := m_ncols m; m_rows := m_rows m |}.

Definition csr_matrix (m : matrix) : matrix :=
  {| m_family := Sparse; m_ncols := m_ncols m; m_rows := m_rows m |}.

Definition get_significant_data (features : matrix) (values : list Z) (cutoff : Q)
  : result (matrix * list Z) :=
  let typeflag := match m_family features with Dense => false | Sparse => true end in
  let features := if typeflag then toarray features else features in
  let mask := map (fun v => Qle_bool (inject_Z v) cutoff) values in
  if (length mask =? nrows features)%nat then
    let features :=
      {| m_family := Dense; m_ncols := m_ncols features;
         m_rows := mask_select mask (m_rows features) |} in
    let values := mask_select mask values in
    let features := if typeflag then csr_matrix features else features in
    Ok (features, values)
  else Err IndexError.

(** ** Input and output *)

Inductive event :=
| EvReadFile (path : string)
| EvQuery (command : string).

(** A computation that may query the database or read a file: it
    extends the log of events and returns or raises. *)
Definition M (A : Type) : Type := list event -> result A * list event.

Definition mret {A} (a : A) : M A := fun log => (Ok a, log).

Definition mbind {A B} (m : M A) (k : A -> M B) : M B :=
  fun log =>
    match m log with
    | (Ok a, log') => k a log'
    | (Err e, log') => (Err e, log')
    end.

Definition lift {A} (r : result A) : M A := fun log => (r, log).

Notation "x <~ e ;; k" := (mbind e (fun x => k))
  (at level 61, e at next level, right associativity).

(** The answers of the database.  An answer may depend on the events so
    far (a random ordering need not repeat); [Err] stands for
    [sqlite3.Error] raised by [cursor.execute]. *)
Record connection := {
  q_coords : list event -> string -> result (list (Z * Q * Q));
  q_boros : list event -> string -> result (list (Z * string));
  q_count : list event -> string -> result Z;
  q_rides : list event -> string -> result (list ride_row)
}.

(** [cursor.execute(command)] followed by [cursor.fetchall()]. *)
Definition run_query {X} (q : list event -> string -> result X) (command : string)
  : M X :=
  fun log => (q log command, log ++ [EvQuery command]).

(** [try: cursor.execute(command) except Error: ...]: the error is a value. *)
Definition attempt_query {X} (q : list event -> string -> result X) (command : string)
  : M (option X) :=
  fun log =>
    (match q log command with
     | Ok x => Ok (Some x)
     | Err _ => Ok None
     end, log ++ [EvQuery command]).

Definition extract_all_coordinates (conn : connection) (table_name : string)
    (normalized : bool) : M matrix :=
  let command := ("SELECT LocationID, lat, long FROM " ++ table_name)%string in
  rows <~ run_query (q_coords conn) command ;;
  lift (coordinates_array rows normalized).

Definition extract_all_boroughs (conn : connection) (table_name : string)
    (maxLocID : Z) : M matrix :=
  let command := ("SELECT LocationID, Borough FROM " ++ table_name)%string in
  rows <~ run_query (q_boros conn) command ;;
  lift (boroughs_array rows maxLocID).

(** [cursor.execute(count_cmd)] under [try], then [cursor.fetchone()[0]]:
    after a failed query [fetchone()] is [None] and the subscript raises. *)
Definition count_rows (conn : connection) (table_name : string) : M Z :=
  let count_cmd := ("SELECT COUNT(PULocationID) FROM " ++ table_name ++ " ")%string in
  r <~ attempt_query (q_count conn) count_cmd ;;
  match r with
  | Some n => mret n
  | None => lift (Err TypeError)
  end.

(** The keyword arguments shared by the three extraction functions. *)
Record options := {
  datetime_onehot : bool;
  weekdays_onehot : bool;
  include_loc_ids : bool;
  start_super_boro : option (list string);
  end_super_boro : option (list string);
  cutoff_val : Q;
  two_way : bool;
  use_nn_ordering : bool
}.

(** The two [assert]s that open each extraction function. *)
Definition check_super_boros (o : options) : result unit :=
  match start_super_boro o, end_super_boro o with
  | Some _, None => Err AssertionError
  | None, Some _ => Err AssertionError
  | _, _ => Ok tt
  end.

Definition str_of_Z (z : Z) : string := NilZero.string_of_int (Z.to_int z).

(** [str] of a float with an integral value below 1e16. *)
Definition str_of_float (z : Z) : string := (str_of_Z z ++ ".0")%string.

Definition select_rides (table_name : string) : string :=
  ("SELECT tpep_pickup_datetime, tpep_dropoff_datetime, "
   ++ "PULocationID, DOLocationID "
   ++ "FROM " ++ table_name ++ " "
   ++ "WHERE PULocationID < 264 "
   ++ "AND DOLocationID < 264 ")%string.

(** The row transformer followed by the significance filter, with the
    defaults [maxLocID=263] of [get_naive_features]. *)
Definition transform (o : options) (coords boros : matrix) (rows : list ride_row)
    (nn_ordering : bool) : result (matrix * list Z) :=
  get_naive_features rows coords boros 263
    (datetime_onehot o) (weekdays_onehot o) (include_loc_ids o) nn_ordering.

(** Appending a page or block: [np.vstack] when both sides are arrays,
    [sparse.vstack(..., format="csr")] otherwise. *)
Definition append_rows (features features_sample : matrix) : result matrix :=
  match m_family features, m_family features_sample with
  | Dense, Dense => vstack2 Dense features features_sample
  | _, _ => vstack2 Sparse features features_sample
  end.

(** *** Exhaustive variant *)

Definition limit : Z := 1000000.

(** [offset] is the integer [0] before the first page and a float after
    [offset += limit]. *)
Definition offset_str (offset : Z) : string :=
  if offset =? 0 then "0"%string else str_of_float offset.

Definition restrict (o : options) (two_way_arg : bool) (command : string) : string :=
  match start_super_boro o, end_super_boro o with
  | Some s, Some e => filter_for_boros command s e two_way_arg
  | _, _ => command
  end.

Definition all_command (table_name : string) (o : options) (offset : Z) : string :=
  restrict o (two_way o)
    (select_rides table_name
     ++ "LIMIT " ++ str_of_float limit ++ " "
     ++ "OFFSET " ++ offset_str offset)%string.

(** The number of times the test [batch_num*limit < NUM_ROWS] succeeds
    when no [break] occurs: [batch_num] grows by one in every pass. *)
Definition page_count (NUM_ROWS : Z) : nat :=
  Z.to_nat ((NUM_ROWS + limit - 1) / limit).

(** The [while] loop.  [acc] is the pair [(features, outputs)], [None]
    while [set_flag] is false and the two names are unbound. *)
Fixpoint all_pages (conn : connection) (table_name : string) (o : options)
    (coords boros : matrix) (remaining : nat) (offset : Z)
    (acc : option (matrix * list Z)) : M (option (matrix * list Z)) :=
  match remaining with
  | O => mret acc
  | S remaining' =>
      r <~ attempt_query (q_rides conn) (all_command table_name o offset) ;;
      match r with
      | None => mret acc
      | Some [] =>
          all_pages conn table_name o coords boros remaining' (offset + limit) acc
      | Some rows =>
          match acc with
          | None =>
              fo <~ lift ('(features, outputs) <-
                            transform o coords boros rows (use_nn_ordering o) ;;
                          get_significant_data features outputs (cutoff_val o)) ;;
              all_pages conn table_name o coords boros remaining'
                (offset + limit) (Some fo)
          | Some (features, outputs) =>
              fo <~ lift ('(features_sample, outputs_sample) <-
                            transform o coords boros rows false ;;
                          '(features_sample, outputs_sample) <-
                            get_significant_data features_sample outputs_sample
                              (cutoff_val o) ;;
                          features <- append_rows features features_sample ;;
                          Ok (features, outputs ++ outputs_sample)) ;;
              all_pages conn table_name o coords boros remaining'
                (offset + limit) (Some fo)
          end
      end
  end.

(** [return features, outputs]: the names are unbound when no page set them. *)
Definition return_bound (acc : option (matrix * list Z)) : result (matrix * list Z) :=
  match acc with
  | Some fo => Ok fo
  | None => Err UnboundLocalError
  end.

Definition extract_all_features (conn : connection) (table_name : string)
    (coords_table_name boros_table_name : string) (o : options)
  : M (matrix * list Z) :=
  _ <~ lift (check_super_boros o) ;;
  coords <~ extract_all_coordinates conn coords_table_name true ;;
  boros <~ extract_all_boroughs conn boros_table_name 263 ;;
  NUM_ROWS <~ count_rows conn table_name ;;
  acc <~ all_pages conn table_name o coords boros (page_count NUM_ROWS) 0 None ;;
  lift (return_bound acc).

(** *** Random-sample variant *)

Definition str_of_size (size : option Z) : string :=
  match size with
  | Some n => str_of_Z n
  | None => "None"%string
  end.

Definition random_command (table_name : string) (o : options) (random_size : option Z)
  : string :=
  restrict o (two_way o)
    (select_rides table_name
     ++ "ORDER BY RANDOM() "
     ++ "LIMIT " ++ str_of_size random_size)%string.

(** The [while True] loop, cut after [attempts] queries: [None] when
    every one of them failed or returned no row. *)
Fixpoint random_rows (conn : connection) (command : string) (attempts : nat)
  : M (option (list ride_row)) :=
  match attempts with
  | O => mret None
  | S attempts' =>
      r <~ attempt_query (q_rides conn) command ;;
      match r with
      | None | Some [] => random_rows conn command attempts'
      | Some rows => mret (Some rows)
      end
  end.

Definition extract_random_data_features (conn : connection) (table_name : string)
    (random_size : option Z) (coords_table_name boros_table_name : string)
    (o : options) (attempts : nat) : M (option (matrix * list Z)) :=
  _ <~ lift (check_super_boros o) ;;
  coords <~ extract_all_coordinates conn coords_table_name true ;;
  boros <~ extract_all_boroughs conn boros_table_name 263 ;;
  r <~ random_rows conn (random_command table_name o random_size) attempts ;;
  match r with
  | None => mret None
  | Some rows =>
      fo <~ lift ('(features, outputs) <-
                    transform o coords boros rows (use_nn_ordering o) ;;
                  get_significant_data features outputs (cutoff_val o)) ;;
      mret (Some fo)
  end.

(** *** Block-shuffled variant *)

Fixpoint insert_sorted (x : Z) (l : list Z) : list Z :=
  match l with
  | [] => [x]
  | y :: t => if x <=? y then x :: l else y :: insert_sorted x t
  end.

(** [np.sort] *)
Definition np_sort (l : list Z) : list Z := fold_right insert_sorted [] l.

(** The command of one block.  The call in the source is
    [filter_for_boros(command, start_super_boro, end_super_boro, two_way=True)]. *)
Definition batch_block_command (table_name : string) (o : options)
    (block_size blk_idx : Z) : string :=
  restrict o true
    (select_rides table_name
     ++ "LIMIT " ++ str_of_Z block_size ++ " "
     ++ "OFFSET " ++ str_of_Z (blk_idx * block_size))%string.

(** The inner [for i, blk_idx in enumerate(np.sort(blks_in_sample))].
    [cur] is the pair [(features, outputs)] of the generator's frame,
    [None] while the two names are unbound. *)
Fixpoint batch_blocks (conn : connection) (table_name : string) (o : options)
    (coords boros : matrix) (block_size : Z) (i : nat) (blks : list Z)
    (cur : option (matrix * list Z)) : M (option (matrix * list Z)) :=
  match blks with
  | [] => mret cur
  | blk_idx :: rest =>
      r <~ attempt_query (q_rides conn)
             (batch_block_command table_name o block_size blk_idx) ;;
      match r with
      | None | Some [] =>
          batch_blocks conn table_name o coords boros block_size (S i) rest cur
      | Some rows =>
          fo <~ lift
                  (if (i =? 0)%nat then
                     transform o coords boros rows (use_nn_ordering o)
                   else
                     '(features_sample, outputs_sample) <-
                       transform o coords boros rows false ;;
                     '(features, outputs) <- return_bound cur ;;
                     features <- append_rows features features_sample ;;
                     Ok (features, outputs ++ outputs_sample)) ;;
          batch_blocks conn table_name o coords boros block_size (S i) rest (Some fo)
      end
  end.

(** [np.random.choice(NUM_BLKS, size=BLKS_PER_BATCH, replace=False)]
    accepts its arguments. *)
Definition choice_ok (NUM_BLKS BLKS_PER_BATCH : Z) : bool :=
  (BLKS_PER_BATCH =? 0)
  || ((0 <? BLKS_PER_BATCH) && (BLKS_PER_BATCH <=? NUM_BLKS)).

(** The outer [for batch_idx in range(NUM_BATCH)]; the list collects the
    yielded pairs.  [choice batch_idx] is the sample drawn for the batch. *)
Fixpoint batch_loop (conn : connection) (table_name : string) (o : options)
    (coords boros : matrix) (block_size NUM_BLKS BLKS_PER_BATCH : Z)
    (choice : nat -> list Z) (batch_idxs : list nat)
    (cur : option (matrix * list Z)) : M (list (matrix * list Z)) :=
  match batch_idxs with
  | [] => mret []
  | batch_idx :: rest =>
      _ <~ lift (if choice_ok NUM_BLKS BLKS_PER_BATCH then Ok tt else Err ValueError) ;;
      cur <~ batch_blocks conn table_name o coords boros block_size 0
               (np_sort (choice batch_idx)) cur ;;
      fo <~ lift ('(features, outputs) <- return_bound cur ;;
                  get_significant_data features outputs (cutoff_val o)) ;;
      more <~ batch_loop conn table_name o coords boros block_size NUM_BLKS
                BLKS_PER_BATCH choice rest (Some fo) ;;
      mret (fo :: more)
  end.

(** The generator run to exhaustion. *)
Definition extract_batch_features (conn : connection) (table_name : string)
    (batch_size block_size : Z) (coords_table_name boros_table_name : string)
    (o : options) (choice : nat -> list Z) : M (list (matrix * list Z)) :=
  _ <~ lift (check_super_boros o) ;;
  coords <~ extract_all_coordinates conn coords_table_name true ;;
  boros <~ extract_all_boroughs conn boros_table_name 263 ;;
  NUM_ROWS <~ count_rows conn table_name ;;
  if (batch_size =? 0) || (block_size =? 0) then lift (Err ZeroDivisionError)
  else
    let NUM_BATCH := NUM_ROWS / batch_size in
    let NUM_BLKS := NUM_ROWS / block_size in
    let BLKS_PER_BATCH := Z.quot batch_size block_size in
    batch_loop conn table_name o coords boros block_size NUM_BLKS BLKS_PER_BATCH
      choice (seq 0 (Z.to_nat NUM_BATCH)) None.

(** *** The entry point *)

(** [np.loadtxt(datacsv, ...)] reads the file, [fs datacsv] being its
    data rows; the lookup follows. *)
Definition get_cutoff_value (fs : string -> result (list (Q * Q))) (n : Q)
    (datacsv : string) : M Q :=
  fun log =>
    (rows <- fs datacsv ;; scan_loaded n (loadtxt rows),
     log ++ [EvReadFile datacsv]).

(** What [extract_features] returns: a pair, or the generator object of
    the block-shuffled variant, whose body has not started. *)
Record generator := {
  g_conn : connection;
  g_table_name : string;
  g_batch_size : Z;
  g_block_size : Z;
  g_options : options
}.

Inductive extraction :=
| Features (fo : matrix * list Z)
| BatchGenerator (g : generator).

Definition sys_exit {A} (msg : string) : M A :=
  lift (Err (SystemExit (ExitMessage msg))).

Definition with_cutoff (o : options) (cv : Q) : options :=
  {| datetime_onehot := datetime_onehot o;
     weekdays_onehot := weekdays_onehot o;
     include_loc_ids := include_loc_ids o;
     start_super_boro := start_super_boro o;
     end_super_boro := end_super_boro o;
     cutoff_val := cv;
     two_way := two_way o;
     use_nn_ordering := use_nn_ordering o |}.

(** [o] carries the keyword arguments; its [cutoff_val] is replaced by
    the value looked up.  [attempts] bounds the retries of the random
    variant; the result is [None] when they are used up. *)
Definition extract_features (fs : string -> result (list (Q * Q)))
    (conn : connection) (table_name variant : string)
    (size block_size : option Z) (o : options) (stddev_multiplier : Q)
    (cutoff_data_csv : string) (attempts : nat) : M (option extraction) :=
  cutoff <~ get_cutoff_value fs stddev_multiplier cutoff_data_csv ;;
  let o := with_cutoff o cutoff in
  if String.eqb variant "all" then
    fo <~ extract_all_features conn table_name "coordinates" "locations" o ;;
    mret (Some (Features fo))
  else if String.eqb variant "random" then
    r <~ extract_random_data_features conn table_name size
           "coordinates" "locations" o attempts ;;
    mret (option_map Features r)
  else if String.eqb variant "batch" then
    match size, block_size with
    | None, _ => sys_exit "Please provide the size of the batch."
    | Some _, None => sys_exit "Please provide an block_size value."
    | Some size, Some block_size =>
        if block_size =? 0 then lift (Err ZeroDivisionError)
        else if size mod block_size >? 0 then
          sys_exit "Please provide a batch size that is a multiple of block size."
        else
          mret (Some (BatchGenerator
                        {| g_conn := conn; g_table_name := table_name;
                           g_batch_size := size; g_block_size := block_size;
                           g_options := o |}))
    end
  else sys_exit "Type must be one of {'all', 'random', 'batch'}.".

End Pipeline.

(** * Notions used to state the properties *)

(** A target is significant when it does not exceed the cutoff. *)
Definition significant (cutoff : Q) (v : Z) : bool := Qle_bool (inject_Z v) cutoff.

(** ** Timestamps in the format [YYYY-MM-DD HH:MM:SS] *)

Record stamp := {
  s_year : Z;
  s_month : Z;
  s_day : Z;
  s_hour : Z;
  s_minute : Z;
  s_second : Z
}.

(** A calendar date with a time of day. *)
Definition valid_stamp (t : stamp) : Prop :=
  1 <= s_year t <= 9999
  /\ 1 <= s_month t <= 12
  /\ 1 <= s_day t <= days_in_month (s_year t) (s_month t)
  /\ 0 <= s_hour t <= 23
  /\ 0 <= s_minute t <= 59
  /\ 0 <= s_second t <= 59.

Definition digit (d : Z) : ascii := ascii_of_nat (48 + Z.to_nat d).

Definition pad2 (n : Z) : string :=
  String (digit (n / 10)) (String (digit (n mod 10)) EmptyString).

Definition pad4 (n : Z) : string :=
  String (digit (n / 1000)) (String (digit (n / 100 mod 10)) (pad2 (n mod 100))).

Definition date_str (t : stamp) : string :=
  (pad4 (s_year t) ++ "-" ++ pad2 (s_month t) ++ "-" ++ pad2 (s_day t))%string.

Definition time_str (t : stamp) : string :=
  (pad2 (s_hour t) ++ ":" ++ pad2 (s_minute t) ++ ":" ++ pad2 (s_second t))%string.

Definition format_stamp (t : stamp) : string :=
  (date_str t ++ " " ++ time_str t)%string.

(** Monday = 1, ..., Sunday = 7. *)
Definition weekday_of (t : stamp) : Z :=
  (ymd2ord (s_year t) (s_month t) (s_day t) + 6) mod 7 + 1.

(** What [parse_datetime] is expected to return on formatted stamps. *)
Definition parsed (ts : list stamp) : datetime_lists :=
  {| dl_dates := map s_day ts;
     dl_months := map s_month ts;
     dl_hours := map s_hour ts;
     dl_minutes := map s_minute ts;
     dl_seconds := map s_second ts;
     dl_weekdays := map weekday_of ts |}.

(** [s] does not contain the character [sep]. *)
Fixpoint sep_free (sep : ascii) (s : string) : bool :=
  match s with
  | EmptyString => true
  | String c r => negb (Ascii.eqb c sep) && sep_free sep r
  end.

(** The checks run over all two-digit and four-digit fields. *)
Definition field_ok (pad : Z -> string) (k : nat) : bool :=
  let n := Z.of_nat k in
  match py_int (pad n) with
  | Ok z => z =? n
  | Err _ => false
  end
  && sep_free " " (pad n) && sep_free "-" (pad n) && sep_free ":" (pad n).

(** ** One-hot blocks *)

(** [b] has [width] entries: a 1 at position [k], 0 everywhere else. *)
Definition hot_at (width : nat) (k : Z) (b : list Q) : Prop :=
  length b = width
  /\ 0 <= k < Z.of_nat width
  /\ forall j, (j < width)%nat ->
       nth j b 0%Q = if Z.of_nat j =? k then 1%Q else 0%Q.

(** A row of the date-time encoding with both one-hot flags set: six
    blocks of widths 31, 12, 24, 60, 60 and 7, in this order, each with
    its single 1 at the position of the component. *)
Definition datetime_row (t : stamp) (row : list Q) : Prop :=
  exists day month hour minute second weekday,
    row = day ++ month ++ hour ++ minute ++ second ++ weekday
    /\ hot_at 31 (s_day t - 1) day
    /\ hot_at 12 (s_month t - 1) month
    /\ hot_at 24 (s_hour t) hour
    /\ hot_at 60 (s_minute t) minute
    /\ hot_at 60 (s_second t) second
    /\ hot_at 7 (weekday_of t - 1) weekday.

(** ** Rides *)

(** A ride as the transformer receives it: two formatted stamps and two
    location identifiers. *)
Record ride := {
  r_pickup : stamp;
  r_dropoff : stamp;
  r_pu : Z;
  r_do : Z
}.

Definition ride_row_of (r : ride) : ride_row :=
  {| pickup_datetime := format_stamp (r_pickup r);
     dropoff_datetime := format_stamp (r_dropoff r);
     PULocationID := r_pu r;
     DOLocationID := r_do r |}.

Definition valid_ride (r : ride) : Prop :=
  valid_stamp (r_pickup r) /\ valid_stamp (r_dropoff r)
  /\ 1 <= r_pu r <= 263 /\ 1 <= r_do r <= 263.

(** Drop-off minus pickup over the day, hour, minute and second
    components, in seconds (month and year are left out). *)
Definition component_seconds (r : ride) : Z :=
  (s_day (r_dropoff r) - s_day (r_pickup r)) * 86400
  + (s_hour (r_dropoff r) - s_hour (r_pickup r)) * 3600
  + (s_minute (r_dropoff r) - s_minute (r_pickup r)) * 60
  + (s_second (r_dropoff r) - s_second (r_pickup r)).

Definition stamp_of (y m d hh mm ss : Z) : stamp :=
  {| s_year := y; s_month := m; s_day := d;
     s_hour := hh; s_minute := mm; s_second := ss |}.

(** Small reference arrays for the examples: two locations. *)
Definition coords_ex : matrix :=
  {| m_family := Dense; m_ncols := 2;
     m_rows := [[0; 0]; [0; 0]; [1; 1]]%Q |}.

Definition boros_ex : matrix :=
  {| m_family := Dense; m_ncols := 6;
     m_rows := [repeat 0%Q 6; one_hot_row 6 0; one_hot_row 6 3] |}.

(** Reference arrays with a row for every index up to 263. *)
Definition coords_full : matrix :=
  {| m_family := Dense; m_ncols := 2; m_rows := repeat [0%Q; 0%Q] 264 |}.

Definition boros_full : matrix :=
  {| m_family := Dense; m_ncols := 6;
     m_rows := repeat 0%Q 6 :: repeat (one_hot_row 6 0) 263 |}.

(** The target vector of a returned pair. *)
Definition targets {A} (r : result (A * list Z)) : result (list Z) :=
  '(_, t) <- r ;; Ok t.

(** The feature rows of a returned pair. *)
Definition feature_rows {B} (r : result (matrix * B)) : result (list (list Q)) :=
  '(f, _) <- r ;; Ok (m_rows f).

(** Midnight to five seconds past midnight of the next day. *)
Definition ride_next_day : ride :=
  {| r_pickup := stamp_of 2020 1 1 0 0 0;
     r_dropoff := stamp_of 2020 1 2 0 0 5;
     r_pu := 1; r_do := 2 |}.

(** The ride of the specification's example: ten minutes, five seconds. *)
Definition ride_ten_minutes : ride :=
  {| r_pickup := stamp_of 2020 1 1 0 0 0;
     r_dropoff := stamp_of 2020 1 1 0 10 5;
     r_pu := 1; r_do := 2 |}.

(** Twenty minutes across the end of a month. *)
Definition ride_month_end : ride :=
  {| r_pickup := stamp_of 2020 1 31 23 50 0;
     r_dropoff := stamp_of 2020 2 1 0 10 0;
     r_pu := 1; r_do := 2 |}.

(** ** Region tables for the examples *)

(** A name-to-code table with six codes. *)
Definition boroughs_ex : list (string * Z) :=
  [("Bronx"%string, 1); ("Brooklyn"%string, 2); ("EWR"%string, 3);
   ("Manhattan"%string, 4); ("Queens"%string, 5); ("Staten Island"%string, 6)].

(** A region table for the locations 1..263 where location 7 carries a
    name that the table above does not know. *)
Definition regions_one_unknown : list (Z * string) :=
  map (fun k => (Z.of_nat k, if (k =? 7)%nat then "Atlantis"%string else "Queens"%string))
      (seq 1 263).

(** A region table where every location 1..263 has a known name, followed
    by the two rows of the locations 264 and 265 with an unknown name. *)
Definition regions_all_known : list (Z * string) :=
  map (fun k => (Z.of_nat k, "Queens"%string)) (seq 1 263)
  ++ [(264, "Unknown"%string); (265, "Unknown"%string)].

(** ** Coordinate tables *)

(** The coordinates written last for the index [i], if any. *)
Definition last_coords (rows : list (Z * Q * Q)) (i : Z) : option (list Q) :=
  match find (fun r => fst (fst r) =? i) (rev rows) with
  | Some (_, lat, long) => Some [lat; long]
  | None => None
  end.

Definition in_unit_interval (x : Q) : Prop := (0 <= x /\ x <= 1)%Q.

Definition all_zero (row : list Q) : Prop := Forall (fun x => (x == 0)%Q) row.

(** The layout of the coordinates array, for the rows fetched. *)
Definition coordinates_layout (rows : list (Z * Q * Q)) : Prop :=
  exists X,
    length X = length rows
    /\ coordinates_array rows false
       = Ok {| m_family := Dense; m_ncols := 2; m_rows := [0%Q; 0%Q] :: X |}
    /\ (forall i, 1 <= i <= Z.of_nat (length rows) ->
          nth (Z.to_nat i) ([0%Q; 0%Q] :: X) []
          = match last_coords rows i with
            | Some v => v
            | None => [0%Q; 0%Q]
            end)
    /\ (rows <> [] ->
        coordinates_array rows true
        = Ok {| m_family := Dense; m_ncols := 2;
                m_rows := [0%Q; 0%Q] :: minmax_transform (minmax_fit 2 X) X |}
        /\ length (minmax_transform (minmax_fit 2 X) X) = length rows
        /\ Forall (Forall in_unit_interval)
             ([0%Q; 0%Q] :: minmax_transform (minmax_fit 2 X) X)).

Definition coord_rows_ex : list (Z * Q * Q) := [(1, 2%Q, 3%Q); (2, 4%Q, 7%Q)].

Definition regions_array_ex : matrix :=
  {| m_family := Dense; m_ncols := 6;
     m_rows := [repeat 0%Q 6; one_hot_row 6 4; one_hot_row 6 0] |}.

(** ** Options and databases for the examples *)

(** A directional restriction from the region set {X} to {Y}. *)
Definition opts_directional : options :=
  {| datetime_onehot := true; weekdays_onehot := true; include_loc_ids := true;
     start_super_boro := Some ["X"%string]; end_super_boro := Some ["Y"%string];
     cutoff_val := 100000%Q; two_way := false; use_nn_ordering := false |}.

(** The same call with the bidirectional restriction. *)
Definition opts_bidirectional : options :=
  {| datetime_onehot := true; weekdays_onehot := true; include_loc_ids := true;
     start_super_boro := Some ["X"%string]; end_super_boro := Some ["Y"%string];
     cutoff_val := 100000%Q; two_way := true; use_nn_ordering := false |}.

(** The condition that the restriction asks for. *)
Definition wanted_cond (o : options) (s e : list string) : boro_cond :=
  if two_way o then two_way_cond s e else one_way_cond s e.

(** A region table that names a known region for every location. *)
Definition regions_queens : list (Z * string) :=
  map (fun k => (Z.of_nat k, "Queens"%string)) (seq 1 263).

(** A database in which every page or block of the restricted query
    holds one ride (the ten-minute ride, from location 1 to location 2),
    [count] being the number of rows of the rides table. *)
Definition conn_one_ride_per_page (count : Z) : connection :=
  {| q_coords := fun _ _ => Ok [(1, 0%Q, 0%Q); (2, 1%Q, 1%Q)];
     q_boros := fun _ _ => Ok regions_queens;
     q_count := fun _ _ => Ok count;
     q_rides := fun _ _ => Ok [ride_row_of ride_ten_minutes] |}.

(** A database in which every query on the rides table fails. *)
Definition conn_rides_fail (count : Z) : connection :=
  {| q_coords := fun _ _ => Ok [(1, 0%Q, 0%Q); (2, 1%Q, 1%Q)];
     q_boros := fun _ _ => Ok regions_queens;
     q_count := fun _ _ => Ok count;
     q_rides := fun _ _ => Err SqliteError |}.

(** Narrow dense vectors in the ordering meant for the neural network,
    restricted to rides inside one region. *)
Definition opts_nn : options :=
  {| datetime_onehot := false; weekdays_onehot := false; include_loc_ids := false;
     start_super_boro := Some ["Queens"%string];
     end_super_boro := Some ["Queens"%string];
     cutoff_val := 100000%Q; two_way := true; use_nn_ordering := true |}.

(** The ten-minute ride laid out in the two orderings. *)
Definition row_nn_ordering : list Q :=
  ([0; 0] ++ [0; 0; 0; 0; 1; 0] ++ [1; 1] ++ [0; 0; 0; 0; 1; 0]
   ++ [1; 1; 1; 1; 1; 3])%Q.

Definition row_default_ordering : list Q :=
  ([1; 1; 1; 1; 1; 3] ++ [0; 0] ++ [1; 1] ++ [0; 0; 0; 0; 1; 0]
   ++ [0; 0; 0; 0; 1; 0])%Q.

(** The feature rows of the batches that a generator yields. *)
Definition batch_rows (r : result (list (matrix * list Z))) : result (list (list (list Q))) :=
  bs <- r ;; Ok (map (fun fo => m_rows (fst fo)) bs).

(** A database whose first page answers and whose later pages fail. *)
Definition conn_later_pages_fail (count : Z) : connection :=
  {| q_coords := fun _ _ => Ok [(1, 0%Q, 0%Q); (2, 1%Q, 1%Q)];
     q_boros := fun _ _ => Ok regions_queens;
     q_count := fun _ _ => Ok count;
     q_rides := fun _ command =>
       if String.eqb command (all_command "rides" opts_nn 0)
       then Ok [ride_row_of ride_ten_minutes]
       else Err SqliteError |}.

(** ** The entry point *)

(** The messages of the three configuration checks of the batch variant. *)
Definition batch_configuration_messages : list string :=
  ["Please provide the size of the batch."%string;
   "Please provide an block_size value."%string;
   "Please provide a batch size that is a multiple of block size."%string].

(** The sizes that the batch variant is meant to refuse, with a positive
    block size. *)
Definition bad_batch_sizes (size block_size : option Z) : Prop :=
  size = None
  \/ block_size = None
  \/ exists s b, size = Some s /\ block_size = Some b /\ 0 < b /\ s mod b <> 0.

(** A cutoff file with one entry per multiplier 1 and 2. *)
Definition cutoff_files (path : string) : result (list (Q * Q)) :=
  if String.eqb path "./data_analysis/multiplier_tbl.csv"
  then Ok [(1, 3600); (2, 5400)]%Q
  else Err OSError.

Definition no_query (log : list event) : Prop :=
  forall command, ~ In (EvQuery command) log.

(** * Notions for the properties of the other functions *)

(** ** Decoding a one-hot row *)

(** The position of the first entry equal to 1, counted from [k]. *)
Fixpoint hot_index_from (k : nat) (row : list Q) : option nat :=
  match row with
  | [] => None
  | x :: r => if Qeq_bool x 1 then Some k else hot_index_from (S k) r
  end.

(** The value that a row of [get_one_hot values min_val _] encodes. *)
Definition one_hot_decode (min_val : Z) (row : list Q) : option Z :=
  option_map (fun k => min_val + Z.of_nat k) (hot_index_from 0 row).

(** ** Six parallel lists from a list of records *)

(** The components of one parsed timestamp:
    day, month, hour, minute, second, weekday. *)
Record components := {
  c_day : Z;
  c_month : Z;
  c_hour : Z;
  c_minute : Z;
  c_second : Z;
  c_weekday : Z
}.

(** Six lists of equal length, as [parse_datetime] returns them. *)
Definition lists_of (cs : list components) : datetime_lists :=
  {| dl_dates := map c_day cs;
     dl_months := map c_month cs;
     dl_hours := map c_hour cs;
     dl_minutes := map c_minute cs;
     dl_seconds := map c_second cs;
     dl_weekdays := map c_weekday cs |}.

(** The row of the encoding without one-hot blocks. *)
Definition numeric_row (c : components) : list Q :=
  map inject_Z
    [c_day c; c_month c; c_hour c + 1; c_minute c + 1; c_second c + 1; c_weekday c].

(** The ranges that the one-hot blocks of the date and time accept. *)
Definition datetime_in_range (c : components) : Prop :=
  1 <= c_day c <= 31 /\ 1 <= c_month c <= 12 /\ 0 <= c_hour c <= 23
  /\ 0 <= c_minute c <= 59 /\ 0 <= c_second c <= 59.

Definition weekday_in_range (c : components) : Prop := 1 <= c_weekday c <= 7.

(** The width of the date-time encoding for the two flags. *)
Definition datetime_width (datetime_onehot weekdays_onehot : bool) : nat :=
  ((if datetime_onehot then 31 + 12 + 24 + 60 + 60 else 5)
   + (if weekdays_onehot then 7 else 1))%nat.

Definition datetime_family (datetime_onehot weekdays_onehot : bool) : family :=
  if datetime_onehot || weekdays_onehot then Sparse else Dense.

(** ** Well-shaped timestamps *)

(** The six fields fit their digits: four for the year, two for the others. *)
Definition fields_ok (t : stamp) : Prop :=
  0 <= s_year t < 10000 /\ 0 <= s_month t < 100 /\ 0 <= s_day t < 100
  /\ 0 <= s_hour t < 100 /\ 0 <= s_minute t < 100 /\ 0 <= s_second t < 100.

(** The date exists in the calendar. *)
Definition date_ok (t : stamp) : Prop :=
  1 <= s_year t <= 9999 /\ 1 <= s_month t <= 12
  /\ 1 <= s_day t <= days_in_month (s_year t) (s_month t).

Definition components_of (t : stamp) : components :=
  {| c_day := s_day t; c_month := s_month t; c_hour := s_hour t;
     c_minute := s_minute t; c_second := s_second t;
     c_weekday := weekday_of t |}.

(** ** The shape of a feature matrix *)

(** The width of a row of [get_naive_features]: two location one-hot
    blocks when asked for, two coordinate blocks, two region blocks and
    the date-time block. *)
Definition feature_width (coords boros : matrix) (maxLocID : Z)
    (datetime_onehot weekdays_onehot include_loc_ids : bool) : nat :=
  ((if include_loc_ids then 2 * Z.to_nat maxLocID else 0)
   + 2 * m_ncols coords + 2 * m_ncols boros
   + datetime_width datetime_onehot weekdays_onehot)%nat.

Definition feature_family (datetime_onehot weekdays_onehot include_loc_ids : bool)
  : family :=
  if include_loc_ids || datetime_onehot || weekdays_onehot then Sparse else Dense.

(** ** Region codes by location *)

Definition is_known (BOROUGHS : list (string * Z)) (name : string) : bool :=
  match dict_get BOROUGHS name with Some _ => true | None => false end.

(** The code that the last row of location [i] with a known name carries. *)
Definition last_code (BOROUGHS : list (string * Z)) (rows : list (Z * string))
    (i : Z) : option Z :=
  match find (fun r => (fst r =? i) && is_known BOROUGHS (snd r)) (rev rows) with
  | Some (_, name) => dict_get BOROUGHS name
  | None => None
  end.

(** ** Returned pairs *)

(** The feature matrix has one row per target and no target exceeds the
    cutoff. *)
Definition consistent (cutoff : Q) (fo : matrix * list Z) : Prop :=
  nrows (fst fo) = length (snd fo)
  /\ Forall (fun v => (inject_Z v <= cutoff)%Q) (snd fo).

(** ** Answers of the rides table *)

(** The answer leaves the caller without a row: an error, or no row. *)
Definition no_rows (r : result (list ride_row)) : bool :=
  match r with
  | Ok (_ :: _) => false
  | _ => true
  end.

(** A database whose rides table fails on the first query and answers
    from the second on. *)
Definition conn_second_answer : connection :=
  {| q_coords := fun _ _ => Ok [(1, 0%Q, 0%Q); (2, 1%Q, 1%Q)];
     q_boros := fun _ _ => Ok regions_queens;
     q_count := fun _ _ => Ok 1;
     q_rides := fun log _ =>
       match log with
       | [] => Err SqliteError
       | _ :: _ => Ok [ride_row_of ride_ten_minutes]
       end |}.

(** A database whose rides table answers every query with no row. *)
Definition conn_no_rides (count : Z) : connection :=
  {| q_coords := fun _ _ => Ok [(1, 0%Q, 0%Q); (2, 1%Q, 1%Q)];
     q_boros := fun _ _ => Ok regions_queens;
     q_count := fun _ _ => Ok count;
     q_rides := fun _ _ => Ok [] |}.

(** ** Location identifiers *)

(** [i] is an index that Python accepts on the first axis of [arr]. *)
Definition indexes (arr : matrix) (i : Z) : Prop :=
  - Z.of_nat (nrows arr) <= i < Z.of_nat (nrows arr).

Definition loc_ids_ok (coords boros : matrix) (maxLocID : Z) (include_loc_ids : bool)
    (r : ride_row) : Prop :=
  indexes coords (PULocationID r)
  /\ indexes coords (DOLocationID r)
  /\ indexes boros (PULocationID r)
  /\ indexes boros (DOLocationID r)
  /\ (include_loc_ids = true ->
      1 <= PULocationID r <= maxLocID /\ 1 <= DOLocationID r <= maxLocID).

(** ** Page queries of the exhaustive scan *)

(** The command of page [i] of a scan that starts at [offset]. *)
Definition page_command (table_name : string) (o : options) (offset : Z) (i : nat)
  : string :=
  all_command table_name o (offset + Z.of_nat i * limit).

(** The first [k] page queries, in order. *)
Definition page_queries (table_name : string) (o : options) (offset : Z) (k : nat)
  : list event :=
  map (fun i => EvQuery (page_command table_name o offset i)) (seq 0 k).

(** The database answers the query of page [i], sent after the pages
    before it, without an error. *)
Definition page_answered (conn : connection) (table_name : string) (o : options)
    (offset : Z) (log : list event) (i : nat) : bool :=
  is_ok (q_rides conn (log ++ page_queries table_name o offset i)
           (page_command table_name o offset i)).

(** * Properties *)

(** ** Cutoff lookup *)

Lemma scan_cutoff_find (n : Q) (data_table : list (Q * Q)) (cv : Q) :
  scan_cutoff n data_table cv =
  match find (fun entry => Qeq_bool (fst entry) n) data_table with
  | Some entry => snd entry
  | None => cv
  end.
Proof.
  induction data_table as [|entry rest IH]; simpl.
  - reflexivity.
  - destruct (Qeq_bool (fst entry) n); [reflexivity | exact IH].
Qed.

Lemma lookup_cutoff_find (n : Q) (data_table : list (Q * Q)) :
  lookup_cutoff n data_table =
  match find (fun entry => Qeq_bool (fst entry) n) data_table with
  | Some entry =>
      if Qeq_bool (snd entry) (-1) then Err (SystemExit (ExitCode 1))
      else Ok (snd entry)
  | None => Err (SystemExit (ExitCode 1))
  end.
Proof.
  unfold lookup_cutoff. rewrite scan_cutoff_find.
  destruct (find _ data_table) as [entry|]; reflexivity.
Qed.

Lemma loadtxt_rows (data_table : list (Q * Q)) :
  (2 <= length data_table)%nat -> loadtxt data_table = Table2D data_table.
Proof.
  destruct data_table as [|[a b] [|entry rest]]; simpl; intros H;
    [lia | lia | reflexivity].
Qed.

(** C10. On a table of two or more rows, [get_cutoff_value] reads the
    file and returns the cutoff of the first entry whose multiplier
    equals [n]; when no entry matches, or when the cutoff stored in that
    first matching entry is [-1] (the value the function uses for
    "not found"), it terminates the program with exit status 1. *)
Theorem get_cutoff_value_sentinel
    (fs : string -> result (list (Q * Q))) (n : Q) (datacsv : string)
    (data_table : list (Q * Q)) (log : list event) :
  fs datacsv = Ok data_table ->
  (2 <= length data_table)%nat ->
  get_cutoff_value fs n datacsv log =
  (match find (fun entry => Qeq_bool (fst entry) n) data_table with
   | Some entry =>
       if Qeq_bool (snd entry) (-1) then Err (SystemExit (ExitCode 1))
       else Ok (snd entry)
   | None => Err (SystemExit (ExitCode 1))
   end,
   log ++ [EvReadFile datacsv]).
Proof.
  intros Hfile Hrows. unfold get_cutoff_value. rewrite Hfile. cbn [rbind].
  rewrite (loadtxt_rows _ Hrows). cbn [scan_loaded].
  now rewrite lookup_cutoff_find.
Qed.

(** A table that stores the cutoff [-1] for the multiplier 2: the entry
    is found, and the call still exits as if it were absent. *)
Lemma get_cutoff_value_sentinel_witness :
  get_cutoff_value (fun _ => Ok [(1, 300); (2, -1); (2, 500)]%Q) 2 "tbl.csv" [] =
  (Err (SystemExit (ExitCode 1)), [EvReadFile "tbl.csv"]).
Proof.
  apply (get_cutoff_value_sentinel
           (fun _ => Ok [(1, 300); (2, -1); (2, 500)]%Q) 2 "tbl.csv"
           [(1, 300); (2, -1); (2, 500)]%Q []).
  - reflexivity.
  - simpl. lia.
Defined.

(** A table of one row, which holds the multiplier asked for with the
    cutoff 450: the array is one-dimensional, and the call raises
    [IndexError] where the first matching entry would give 450. *)
Lemma get_cutoff_value_single_row :
  find (fun entry => Qeq_bool (fst entry) 2) [(2, 450)]%Q = Some (2, 450)%Q
  /\ Qeq_bool 450 (-1) = false
  /\ get_cutoff_value (fun _ => Ok [(2, 450)]%Q) 2 "tbl.csv" [] =
     (Err IndexError, [EvReadFile "tbl.csv"]).
Proof. repeat split. Qed.

Example get_cutoff_value_found :
  get_cutoff_value (fun _ => Ok [(1, 300); (2, 450); (2, 500)]%Q) 2 "tbl.csv" [] =
  (Ok 450%Q, [EvReadFile "tbl.csv"]).
Proof. reflexivity. Qed.

(** ** Significance filter *)

Lemma mask_select_map {A} (p : A -> bool) (l : list A) :
  mask_select (map p l) l = filter p l.
Proof.
  induction l as [|a l IH]; simpl; [reflexivity|].
  destruct (p a); now rewrite IH.
Qed.

Lemma mask_select_combine {A B} (p : B -> bool) (rows : list A) (values : list B) :
  length rows = length values ->
  combine (mask_select (map p values) rows) (mask_select (map p values) values)
  = filter (fun rv => p (snd rv)) (combine rows values).
Proof.
  revert values. induction rows as [|r rows IH]; intros [|v values] Hlen;
    simpl in *; try discriminate; try reflexivity.
  injection Hlen as Hlen.
  destruct (p v); simpl; now rewrite IH.
Qed.

Lemma mask_select_length {A B} (p : B -> bool) (rows : list A) (values : list B) :
  length rows = length values ->
  length (mask_select (map p values) rows)
  = length (mask_select (map p values) values).
Proof.
  revert values. induction rows as [|r rows IH]; intros [|v values] Hlen;
    simpl in *; try discriminate; try reflexivity.
  injection Hlen as Hlen.
  destruct (p v); simpl; now rewrite IH.
Qed.

Lemma mask_select_le {A} (mask : list bool) (l : list A) :
  (length (mask_select mask l) <= length l)%nat.
Proof.
  revert l. induction mask as [|b mask IH]; intros [|a l]; simpl; try lia.
  destruct b; simpl; specialize (IH l); lia.
Qed.

Lemma get_significant_data_ok (F : matrix) (T : list Z) (c : Q) :
  nrows F = length T ->
  get_significant_data F T c =
  Ok ({| m_family := m_family F; m_ncols := m_ncols F;
         m_rows := mask_select (map (significant c) T) (m_rows F) |},
      filter (significant c) T).
Proof.
  intros Hlen. unfold get_significant_data, nrows in *.
  rewrite <- (mask_select_map (significant c) T).
  fold (significant c).
  destruct F as [[|] nc rows]; simpl in *;
    rewrite length_map, Hlen, Nat.eqb_refl; reflexivity.
Qed.

(** C6. On a feature matrix and a target vector with the same number of
    rows, [get_significant_data] returns, paired row by row and in the
    original order, exactly the rows whose target is at most the cutoff;
    the output has no more rows than the input and the feature matrix
    keeps its family (sparse or dense) and its width. *)
Theorem get_significant_data_spec (F : matrix) (T : list Z) (c : Q) :
  nrows F = length T ->
  exists F' T',
    get_significant_data F T c = Ok (F', T')
    /\ combine (m_rows F') T'
       = filter (fun rv => Qle_bool (inject_Z (snd rv)) c) (combine (m_rows F) T)
    /\ T' = filter (fun v => Qle_bool (inject_Z v) c) T
    /\ Forall (fun v => (inject_Z v <= c)%Q) T'
    /\ nrows F' = length T'
    /\ (nrows F' <= nrows F)%nat
    /\ m_family F' = m_family F
    /\ m_ncols F' = m_ncols F.
Proof.
  intros Hlen. rewrite (get_significant_data_ok F T c Hlen).
  eexists _, _. split; [reflexivity|]. unfold nrows in *. simpl.
  split; [|split; [|split; [|split; [|split; [|split]]]]].
  - rewrite <- (mask_select_map (significant c) T).
    exact (mask_select_combine (significant c) (m_rows F) T Hlen).
  - reflexivity.
  - apply Forall_forall. intros v Hv.
    apply filter_In in Hv. destruct Hv as [_ Hv]. now apply Qle_bool_iff.
  - rewrite <- (mask_select_map (significant c) T).
    exact (mask_select_length (significant c) (m_rows F) T Hlen).
  - apply mask_select_le.
  - reflexivity.
  - reflexivity.
Qed.

Lemma get_significant_data_spec_witness :
  exists F' T',
    get_significant_data
      {| m_family := Sparse; m_ncols := 1; m_rows := [[1]; [2]; [3]]%Q |}
      [700; 20; 600] 600%Q = Ok (F', T')
    /\ combine (m_rows F') T' = [([2%Q], 20); ([3%Q], 600)]
    /\ T' = [20; 600]
    /\ Forall (fun v => (inject_Z v <= 600)%Q) T'
    /\ nrows F' = length T'
    /\ (nrows F' <= 3)%nat
    /\ m_family F' = Sparse
    /\ m_ncols F' = 1%nat.
Proof.
  exact (get_significant_data_spec
           {| m_family := Sparse; m_ncols := 1; m_rows := [[1]; [2]; [3]]%Q |}
           [700; 20; 600] 600%Q eq_refl).
Defined.

(** ** Parsing formatted timestamps *)

Lemma split_sep_free (sep : ascii) (s : string) :
  sep_free sep s = true -> split sep s = [s].
Proof.
  induction s as [|c r IH]; simpl; [reflexivity|].
  intros H. apply andb_prop in H. destruct H as [Hc Hr].
  apply negb_true_iff in Hc. rewrite Hc, (IH Hr). reflexivity.
Qed.

Lemma split_app_sep (sep : ascii) (a b : string) :
  sep_free sep a = true ->
  split sep (a ++ String sep b) = a :: split sep b.
Proof.
  induction a as [|c r IH]; simpl.
  - intros _. now rewrite Ascii.eqb_refl.
  - intros H. apply andb_prop in H. destruct H as [Hc Hr].
    apply negb_true_iff in Hc. rewrite Hc, (IH Hr). reflexivity.
Qed.

Lemma sep_free_app (sep : ascii) (a b : string) :
  sep_free sep (a ++ b) = sep_free sep a && sep_free sep b.
Proof.
  induction a as [|c r IH]; simpl; [reflexivity|].
  now rewrite IH, andb_assoc.
Qed.

Lemma field_ok_all (pad : Z -> string) (bound : nat) (n : Z) :
  forallb (field_ok pad) (seq 0 bound) = true ->
  0 <= n < Z.of_nat bound ->
  py_int (pad n) = Ok n
  /\ sep_free " " (pad n) = true
  /\ sep_free "-" (pad n) = true
  /\ sep_free ":" (pad n) = true.
Proof.
  intros Hall Hn.
  assert (Hin : In (Z.to_nat n) (seq 0 bound)) by (apply in_seq; lia).
  pose proof (proj1 (forallb_forall _ _) Hall _ Hin) as Hk.
  unfold field_ok in Hk. rewrite Z2Nat.id in Hk by lia.
  repeat (apply andb_prop in Hk; destruct Hk as [Hk ?]).
  repeat split; try assumption.
  destruct (py_int (pad n)) as [z|]; [|discriminate].
  apply Z.eqb_eq in Hk. now subst.
Qed.

Lemma pad2_ok (n : Z) :
  0 <= n < 100 ->
  py_int (pad2 n) = Ok n
  /\ sep_free " " (pad2 n) = true
  /\ sep_free "-" (pad2 n) = true
  /\ sep_free ":" (pad2 n) = true.
Proof.
  apply (field_ok_all pad2 100). vm_compute. reflexivity.
Qed.

Lemma pad4_ok (n : Z) :
  0 <= n < 10000 ->
  py_int (pad4 n) = Ok n
  /\ sep_free " " (pad4 n) = true
  /\ sep_free "-" (pad4 n) = true
  /\ sep_free ":" (pad4 n) = true.
Proof.
  apply (field_ok_all pad4 (Z.to_nat 10000)). vm_compute. reflexivity.
Qed.

Lemma days_in_month_bounds (y m : Z) : 28 <= days_in_month y m <= 31.
Proof.
  unfold days_in_month.
  destruct (m =? 2); [destruct (is_leap y); lia|].
  destruct ((m =? 4) || (m =? 6) || (m =? 9) || (m =? 11)); lia.
Qed.

Lemma valid_stamp_fields (t : stamp) :
  valid_stamp t ->
  0 <= s_year t < 10000 /\ 0 <= s_month t < 100 /\ 0 <= s_day t < 100
  /\ 0 <= s_hour t < 100 /\ 0 <= s_minute t < 100 /\ 0 <= s_second t < 100.
Proof.
  unfold valid_stamp. intros H.
  pose proof (days_in_month_bounds (s_year t) (s_month t)). lia.
Qed.

Lemma split_format_stamp (t : stamp) :
  valid_stamp t ->
  split " " (format_stamp t) = [date_str t; time_str t].
Proof.
  intros Hv. apply valid_stamp_fields in Hv.
  destruct Hv as (Hy & Hm & Hd & Hh & Hmi & Hs).
  destruct (pad4_ok _ Hy) as (_ & Hy1 & _ & _).
  destruct (pad2_ok _ Hm) as (_ & Hm1 & _ & _).
  destruct (pad2_ok _ Hd) as (_ & Hd1 & _ & _).
  destruct (pad2_ok _ Hh) as (_ & Hh1 & _ & _).
  destruct (pad2_ok _ Hmi) as (_ & Hmi1 & _ & _).
  destruct (pad2_ok _ Hs) as (_ & Hs1 & _ & _).
  unfold format_stamp. change (" " ++ time_str t)%string with (String " " (time_str t)).
  rewrite split_app_sep.
  - rewrite split_sep_free; [reflexivity|].
    unfold time_str. rewrite !sep_free_app, Hh1, Hmi1, Hs1. reflexivity.
  - unfold date_str. rewrite !sep_free_app, Hy1, Hm1, Hd1. reflexivity.
Qed.

Lemma split_date_str (t : stamp) :
  valid_stamp t ->
  split "-" (date_str t) = [pad4 (s_year t); pad2 (s_month t); pad2 (s_day t)].
Proof.
  intros Hv. apply valid_stamp_fields in Hv.
  destruct Hv as (Hy & Hm & Hd & _).
  destruct (pad4_ok _ Hy) as (_ & _ & Hy1 & _).
  destruct (pad2_ok _ Hm) as (_ & _ & Hm1 & _).
  destruct (pad2_ok _ Hd) as (_ & _ & Hd1 & _).
  unfold date_str.
  change ("-" ++ ?x)%string with (String "-" x).
  rewrite (split_app_sep "-" _ _ Hy1).
  change ("-" ++ pad2 (s_day t))%string with (String "-" (pad2 (s_day t))).
  rewrite (split_app_sep "-" _ _ Hm1), (split_sep_free "-" _ Hd1).
  reflexivity.
Qed.

Lemma split_time_str (t : stamp) :
  valid_stamp t ->
  split ":" (time_str t) = [pad2 (s_hour t); pad2 (s_minute t); pad2 (s_second t)].
Proof.
  intros Hv. apply valid_stamp_fields in Hv.
  destruct Hv as (_ & _ & _ & Hh & Hmi & Hs).
  destruct (pad2_ok _ Hh) as (_ & _ & _ & Hh1).
  destruct (pad2_ok _ Hmi) as (_ & _ & _ & Hmi1).
  destruct (pad2_ok _ Hs) as (_ & _ & _ & Hs1).
  unfold time_str.
  change (":" ++ ?x)%string with (String ":" x).
  rewrite (split_app_sep ":" _ _ Hh1).
  change (":" ++ pad2 (s_second t))%string with (String ":" (pad2 (s_second t))).
  rewrite (split_app_sep ":" _ _ Hmi1), (split_sep_free ":" _ Hs1).
  reflexivity.
Qed.

Lemma map_result_map {A B C} (f : B -> result C) (g : A -> B) (h : A -> C)
    (l : list A) :
  (forall x, In x l -> f (g x) = Ok (h x)) ->
  map_result f (map g l) = Ok (map h l).
Proof.
  induction l as [|a l IH]; simpl; intros H; [reflexivity|].
  rewrite (H a (or_introl eq_refl)). simpl.
  rewrite IH by (intros x Hx; apply H; now right). reflexivity.
Qed.

Lemma min_length_const {A B} (g : A -> list B) (k : nat) (l : list A) :
  l <> [] -> (forall x, In x l -> length (g x) = k) ->
  min_length (map g l) = k.
Proof.
  destruct l as [|a l]; [congruence|]. intros _ H. simpl.
  rewrite (H a (or_introl eq_refl)).
  assert (Hl : forall x, In x l -> length (g x) = k) by (intros x Hx; apply H; now right).
  clear H. induction l as [|b l IH]; simpl; [reflexivity|].
  rewrite (Hl b (or_introl eq_refl)), Nat.min_id.
  apply IH. intros x Hx. apply Hl. now right.
Qed.

Lemma date_weekday_valid (t : stamp) :
  valid_stamp t ->
  date_weekday (s_year t) (s_month t) (s_day t) = Ok (weekday_of t - 1).
Proof.
  unfold valid_stamp, date_weekday, fits_c_int, weekday_of. intros H.
  pose proof (days_in_month_bounds (s_year t) (s_month t)).
  repeat match goal with
         | |- context [?a <=? ?b] =>
             destruct (Z.leb_spec a b); [|lia]
         end.
  simpl. f_equal. lia.
Qed.

Lemma weekdays_of_valid (ts : list stamp) :
  Forall valid_stamp ts ->
  weekdays_of (map s_year ts) (map s_month ts) (map s_day ts)
  = Ok (map weekday_of ts).
Proof.
  induction 1 as [|t ts Ht _ IH]; simpl; [reflexivity|].
  rewrite (date_weekday_valid t Ht). simpl. rewrite IH. simpl.
  f_equal. f_equal. lia.
Qed.

Lemma rbind_ok {A B} (a : A) (k : A -> result B) : rbind (Ok a) k = k a.
Proof. reflexivity. Qed.

Lemma int_at_three (a b c : string) :
  int_at 0 [a; b; c] = py_int a
  /\ int_at 1 [a; b; c] = py_int b
  /\ int_at 2 [a; b; c] = py_int c.
Proof. repeat split. Qed.

(** On a non-empty list of formatted valid stamps, [parse_datetime]
    returns the six lists of components. *)
Lemma parse_datetime_format (ts : list stamp) :
  ts <> [] -> Forall valid_stamp ts ->
  parse_datetime (map format_stamp ts) = Ok (parsed ts).
Proof.
  intros Hne Hv. pose proof (proj1 (Forall_forall _ _) Hv) as Hin.
  unfold parse_datetime.
  rewrite map_map.
  rewrite (map_ext_in _ (fun t => [date_str t; time_str t]))
    by (intros t Ht; apply split_format_stamp, Hin, Ht).
  unfold unzip_two.
  rewrite (min_length_const _ 2%nat ts Hne) by reflexivity.
  rewrite Nat.eqb_refl, rbind_ok.
  rewrite !map_map. cbv beta iota.
  assert (Hd : forall t, In t ts ->
            split "-" (nth 0 [date_str t; time_str t] EmptyString)
            = [pad4 (s_year t); pad2 (s_month t); pad2 (s_day t)])
    by (intros t Ht; apply split_date_str, Hin, Ht).
  assert (Ht : forall t, In t ts ->
            split ":" (nth 1 [date_str t; time_str t] EmptyString)
            = [pad2 (s_hour t); pad2 (s_minute t); pad2 (s_second t)])
    by (intros t Ht; apply split_time_str, Hin, Ht).
  assert (Hf : forall t, In t ts ->
            py_int (pad4 (s_year t)) = Ok (s_year t)
            /\ py_int (pad2 (s_month t)) = Ok (s_month t)
            /\ py_int (pad2 (s_day t)) = Ok (s_day t)
            /\ py_int (pad2 (s_hour t)) = Ok (s_hour t)
            /\ py_int (pad2 (s_minute t)) = Ok (s_minute t)
            /\ py_int (pad2 (s_second t)) = Ok (s_second t)).
  { intros t Hi. apply Hin, valid_stamp_fields in Hi.
    destruct Hi as (Hy & Hm & Hdd & Hh & Hmi & Hs).
    exact (conj (proj1 (pad4_ok _ Hy))
             (conj (proj1 (pad2_ok _ Hm))
                (conj (proj1 (pad2_ok _ Hdd))
                   (conj (proj1 (pad2_ok _ Hh))
                      (conj (proj1 (pad2_ok _ Hmi)) (proj1 (pad2_ok _ Hs))))))). }
  assert (Hi0 : forall a b c z, py_int a = Ok z -> int_at 0 [a; b; c] = Ok z)
    by (intros a b c z Hz; exact Hz).
  assert (Hi1 : forall a b c z, py_int b = Ok z -> int_at 1 [a; b; c] = Ok z)
    by (intros a b c z Hz; exact Hz).
  assert (Hi2 : forall a b c z, py_int c = Ok z -> int_at 2 [a; b; c] = Ok z)
    by (intros a b c z Hz; exact Hz).
  rewrite (map_result_map (int_at 2) _ s_day)
    by (intros t Hi; rewrite (Hd t Hi); apply Hi2; exact (proj1 (proj2 (proj2 (Hf t Hi))))).
  rewrite rbind_ok.
  rewrite (map_result_map (int_at 1) _ s_month)
    by (intros t Hi; rewrite (Hd t Hi); apply Hi1; exact (proj1 (proj2 (Hf t Hi)))).
  rewrite rbind_ok.
  rewrite (map_result_map (int_at 0) _ s_year)
    by (intros t Hi; rewrite (Hd t Hi); apply Hi0; exact (proj1 (Hf t Hi))).
  rewrite rbind_ok.
  rewrite (weekdays_of_valid ts Hv), rbind_ok.
  rewrite (map_result_map (int_at 0) _ s_hour)
    by (intros t Hi; rewrite (Ht t Hi); apply Hi0;
        exact (proj1 (proj2 (proj2 (proj2 (Hf t Hi)))))).
  rewrite rbind_ok.
  rewrite (map_result_map (int_at 1) _ s_minute)
    by (intros t Hi; rewrite (Ht t Hi); apply Hi1;
        exact (proj1 (proj2 (proj2 (proj2 (proj2 (Hf t Hi))))))).
  rewrite rbind_ok.
  rewrite (map_result_map (int_at 2) _ s_second)
    by (intros t Hi; rewrite (Ht t Hi); apply Hi2;
        exact (proj2 (proj2 (proj2 (proj2 (proj2 (Hf t Hi))))))).
  reflexivity.
Qed.

(** ** One-hot encoding *)

Lemma one_hot_row_hot_at (width : nat) (c : Z) :
  0 <= c < Z.of_nat width ->
  hot_at width c (one_hot_row width (Z.to_nat c)).
Proof.
  intros Hc. unfold hot_at, one_hot_row.
  split; [now rewrite length_map, length_seq|].
  split; [exact Hc|].
  intros j Hj.
  rewrite (nth_indep _ 0%Q ((fun j => if (j =? Z.to_nat c)%nat then 1%Q else 0%Q) O))
    by now rewrite length_map, length_seq.
  rewrite (map_nth (fun j => if (j =? Z.to_nat c)%nat then 1%Q else 0%Q)).
  rewrite seq_nth by exact Hj. simpl.
  destruct (Nat.eqb_spec j (Z.to_nat c)) as [E|E];
    destruct (Z.eqb_spec (Z.of_nat j) c) as [E'|E']; try reflexivity; lia.
Qed.

Lemma get_one_hot_map {A} (f : A -> Z) (l : list A) (min_val max_val : Z) :
  min_val <= max_val + 1 ->
  (forall x, In x l -> min_val <= f x <= max_val) ->
  get_one_hot (map f l) min_val max_val =
  Ok {| m_family := Sparse;
        m_ncols := Z.to_nat (max_val - min_val + 1);
        m_rows := map (fun x => one_hot_row (Z.to_nat (max_val - min_val + 1))
                                  (Z.to_nat (f x - min_val))) l |}.
Proof.
  intros Hw Hin. unfold get_one_hot.
  destruct (Z.ltb_spec (max_val - min_val + 1) 0) as [?|_]; [lia|].
  rewrite !map_map.
  replace (forallb _ _) with true; [reflexivity|].
  symmetry. apply forallb_forall. intros c Hc.
  apply in_map_iff in Hc. destruct Hc as (x & <- & Hx).
  specialize (Hin x Hx). apply andb_true_intro. split.
  - apply Z.leb_le. lia.
  - apply Z.ltb_lt. lia.
Qed.

Lemma zip_app_map {A} (f g : A -> list Q) (l : list A) :
  zip_app (map f l) (map g l) = map (fun x => f x ++ g x) l.
Proof. induction l as [|a l IH]; simpl; [reflexivity | now rewrite IH]. Qed.

Lemma hstack2_map {A} (fam fa fb : family) (na nb : nat) (f g : A -> list Q)
    (l : list A) :
  hstack2 fam {| m_family := fa; m_ncols := na; m_rows := map f l |}
              {| m_family := fb; m_ncols := nb; m_rows := map g l |}
  = Ok {| m_family := fam; m_ncols := na + nb;
          m_rows := map (fun x => f x ++ g x) l |}.
Proof.
  unfold hstack2, nrows. simpl. rewrite !length_map, Nat.eqb_refl.
  now rewrite zip_app_map.
Qed.

Lemma Forall2_map_r {A B} (R : A -> B -> Prop) (f : A -> B) (l : list A) :
  (forall x, In x l -> R x (f x)) -> Forall2 R l (map f l).
Proof.
  induction l as [|a l IH]; simpl; intros H; constructor.
  - apply H. now left.
  - apply IH. intros x Hx. apply H. now right.
Qed.

Lemma weekday_of_range (t : stamp) : 1 <= weekday_of t <= 7.
Proof.
  unfold weekday_of.
  pose proof (Z.mod_pos_bound (ymd2ord (s_year t) (s_month t) (s_day t) + 6) 7).
  lia.
Qed.

(** The encoding of parsed valid stamps with both flags set. *)
Lemma obtain_date_time_features_onehot (ts : list stamp) :
  Forall valid_stamp ts ->
  obtain_date_time_features (parsed ts) true true =
  Ok {| m_family := Sparse;
        m_ncols := 194;
        m_rows :=
          map (fun t =>
                 one_hot_row 31 (Z.to_nat (s_day t - 1))
                 ++ one_hot_row 12 (Z.to_nat (s_month t - 1))
                 ++ one_hot_row 24 (Z.to_nat (s_hour t - 0))
                 ++ one_hot_row 60 (Z.to_nat (s_minute t - 0))
                 ++ one_hot_row 60 (Z.to_nat (s_second t - 0))
                 ++ one_hot_row 7 (Z.to_nat (weekday_of t - 1))) ts |}.
Proof.
  intros Hv. pose proof (proj1 (Forall_forall _ _) Hv) as Hin.
  assert (Hb : forall t, In t ts -> valid_stamp t /\ 28 <= days_in_month (s_year t) (s_month t) <= 31)
    by (intros t Ht; split; [apply Hin, Ht | apply days_in_month_bounds]).
  unfold obtain_date_time_features, parsed. cbn [dl_dates dl_months dl_hours dl_minutes dl_seconds dl_weekdays].
  rewrite (get_one_hot_map s_day ts 1 31)
    by (try lia; intros t Ht; destruct (Hb t Ht) as [V ?]; unfold valid_stamp in V; lia).
  rewrite rbind_ok.
  rewrite (get_one_hot_map s_month ts 1 12)
    by (try lia; intros t Ht; destruct (Hb t Ht) as [V ?]; unfold valid_stamp in V; lia).
  rewrite rbind_ok.
  rewrite (get_one_hot_map s_hour ts 0 23)
    by (try lia; intros t Ht; destruct (Hb t Ht) as [V ?]; unfold valid_stamp in V; lia).
  rewrite rbind_ok.
  rewrite (get_one_hot_map s_minute ts 0 59)
    by (try lia; intros t Ht; destruct (Hb t Ht) as [V ?]; unfold valid_stamp in V; lia).
  rewrite rbind_ok.
  rewrite (get_one_hot_map s_second ts 0 59)
    by (try lia; intros t Ht; destruct (Hb t Ht) as [V ?]; unfold valid_stamp in V; lia).
  rewrite rbind_ok. rewrite rbind_ok.
  rewrite (get_one_hot_map weekday_of ts 1 7)
    by (try lia; intros t Ht; apply weekday_of_range).
  rewrite rbind_ok.
  unfold hstack. cbn [fold_left orb m_ncols m_rows].
  repeat (rewrite rbind_ok; rewrite hstack2_map).
  apply f_equal. apply (f_equal2 (Build_matrix Sparse)); [reflexivity|].
  apply map_ext. intros t. now rewrite <- !app_assoc.
Qed.

Ltac valid_stamp_tac :=
  unfold valid_stamp, days_in_month, is_leap; simpl; lia.

(** C9. On a non-empty list of valid timestamps in the format
    [YYYY-MM-DD HH:MM:SS], [parse_datetime] followed by
    [obtain_date_time_features] with both one-hot flags set returns a
    matrix of width 31 + 12 + 24 + 60 + 60 + 7 in which every row is the
    concatenation, in this order, of the day, month, hour, minute, second
    and weekday blocks, each holding exactly one 1 (at the position of
    the component) and 0 elsewhere. *)
Theorem datetime_one_hot_blocks (ts : list stamp) :
  ts <> [] -> Forall valid_stamp ts ->
  exists dl F,
    parse_datetime (map format_stamp ts) = Ok dl
    /\ obtain_date_time_features dl true true = Ok F
    /\ m_ncols F = (31 + 12 + 24 + 60 + 60 + 7)%nat
    /\ Forall2 datetime_row ts (m_rows F).
Proof.
  intros Hne Hv. exists (parsed ts). eexists.
  split; [exact (parse_datetime_format ts Hne Hv)|].
  split; [exact (obtain_date_time_features_onehot ts Hv)|].
  split; [reflexivity|].
  cbn [m_rows]. apply Forall2_map_r. intros t Ht.
  pose proof (proj1 (Forall_forall _ _) Hv t Ht) as V.
  pose proof (days_in_month_bounds (s_year t) (s_month t)) as Hd.
  pose proof (weekday_of_range t) as Hw.
  unfold valid_stamp in V.
  unfold datetime_row. do 6 eexists. split; [reflexivity|].
  rewrite !Z.sub_0_r.
  repeat (match goal with |- hot_at _ _ _ /\ _ => split end);
    apply one_hot_row_hot_at; simpl; lia.
Qed.

Lemma datetime_one_hot_blocks_witness :
  exists dl F,
    parse_datetime ["2020-01-01 00:10:05"%string; "2026-11-06 23:59:07"%string] = Ok dl
    /\ obtain_date_time_features dl true true = Ok F
    /\ m_ncols F = 194%nat
    /\ Forall2 datetime_row
         [stamp_of 2020 1 1 0 10 5; stamp_of 2026 11 6 23 59 7] (m_rows F).
Proof.
  apply (datetime_one_hot_blocks
           [stamp_of 2020 1 1 0 10 5; stamp_of 2026 11 6 23 59 7]).
  - discriminate.
  - repeat (apply Forall_cons; [valid_stamp_tac|]). apply Forall_nil.
Defined.

(** The empty list is a list of valid timestamps, and [parse_datetime]
    raises on it: the unpacking [dates, times = ...] finds no column. *)
Lemma datetime_one_hot_blocks_empty :
  Forall valid_stamp []
  /\ parse_datetime (map format_stamp []) = Err ValueError
  /\ ~ (exists dl F,
          parse_datetime (map format_stamp []) = Ok dl
          /\ obtain_date_time_features dl true true = Ok F).
Proof.
  split; [constructor|]. split; [reflexivity|].
  intros (dl & F & H & _). discriminate H.
Qed.

(** ** The row transformer *)

Lemma py_index_ok {A} (l : list A) (i : Z) :
  0 <= i < Z.of_nat (length l) -> exists a, py_index l i = Ok a.
Proof.
  intros Hi. unfold py_index.
  destruct (Z.ltb_spec i 0) as [?|_]; [lia|].
  destruct (Z.leb_spec 0 i) as [_|?]; [|lia].
  destruct (Z.ltb_spec i (Z.of_nat (length l))) as [_|?]; [|lia].
  simpl. destruct (nth_error l (Z.to_nat i)) as [a|] eqn:E; [now exists a|].
  apply nth_error_None in E. lia.
Qed.

Lemma map_result_ok_length {A B} (f : A -> result B) (l : list A) :
  (forall x, In x l -> exists b, f x = Ok b) ->
  exists bs, map_result f l = Ok bs /\ length bs = length l.
Proof.
  induction l as [|a l IH]; simpl; intros H.
  - now exists [].
  - destruct (H a (or_introl eq_refl)) as (b & ->).
    destruct IH as (bs & -> & Hlen); [intros x Hx; apply H; now right|].
    exists (b :: bs). simpl. now rewrite Hlen.
Qed.

Lemma take_rows_ok (arr : matrix) (ids : list Z) :
  Forall (fun i => 0 <= i < Z.of_nat (nrows arr)) ids ->
  exists R, take_rows arr ids = Ok R /\ nrows R = length ids.
Proof.
  intros H. unfold take_rows.
  destruct (map_result_ok_length (py_index (m_rows arr)) ids) as (rs & -> & Hlen).
  - intros x Hx. apply py_index_ok. exact (proj1 (Forall_forall _ _) H x Hx).
  - eexists. split; [reflexivity|]. exact Hlen.
Qed.

Lemma zip_app_length (a b : list (list Q)) :
  length a = length b -> length (zip_app a b) = length a.
Proof.
  revert b. induction a as [|x a IH]; intros [|y b] H; simpl in *;
    try discriminate; [reflexivity|].
  injection H as H. now rewrite IH.
Qed.

Lemma hstack_fold_ok (fam : family) (n : nat) (blocks : list matrix) (acc : matrix) :
  nrows acc = n -> m_family acc = fam ->
  Forall (fun b => nrows b = n) blocks ->
  exists F,
    fold_left (fun acc x => a <- acc ;; hstack2 fam a x) blocks (Ok acc) = Ok F
    /\ nrows F = n /\ m_family F = fam.
Proof.
  revert acc. induction blocks as [|b blocks IH]; intros acc Hacc Hfam Hall; simpl.
  - now exists acc.
  - inversion Hall as [|? ? Hb Hrest]; subst.
    unfold hstack2 at 2. rewrite Hb, Nat.eqb_refl.
    apply IH; [|reflexivity|exact Hrest].
    unfold nrows in *. simpl. rewrite zip_app_length; congruence.
Qed.

Lemma hstack_ok (fam : family) (n : nat) (blocks : list matrix) :
  blocks <> [] -> Forall (fun b => nrows b = n) blocks ->
  exists F, hstack fam blocks = Ok F /\ nrows F = n /\ m_family F = fam.
Proof.
  destruct blocks as [|b blocks]; [congruence|]. intros _ Hall.
  inversion Hall as [|? ? Hb Hrest]; subst. unfold hstack.
  apply hstack_fold_ok; [reflexivity|reflexivity|exact Hrest].
Qed.

Lemma get_one_hot_rows {A} (f : A -> Z) (l : list A) (min_val max_val : Z) :
  min_val <= max_val + 1 ->
  (forall x, In x l -> min_val <= f x <= max_val) ->
  exists F, get_one_hot (map f l) min_val max_val = Ok F /\ nrows F = length l.
Proof.
  intros Hw Hin. rewrite (get_one_hot_map f l min_val max_val Hw Hin).
  eexists. split; [reflexivity|]. unfold nrows. simpl. apply length_map.
Qed.

Lemma nrows_column {A} (f : A -> Z) (l : list A) :
  nrows (column (map f l)) = length l.
Proof. unfold nrows, column. simpl. now rewrite !length_map. Qed.

(** The date-time encoding of parsed valid stamps succeeds for every
    choice of the two flags, with one row per stamp. *)
Lemma obtain_date_time_features_rows (ts : list stamp) (dt wd : bool) :
  Forall valid_stamp ts ->
  exists F, obtain_date_time_features (parsed ts) dt wd = Ok F
            /\ nrows F = length ts.
Proof.
  intros Hv. pose proof (proj1 (Forall_forall _ _) Hv) as Hin.
  assert (Hb : forall t, In t ts ->
                 1 <= s_day t <= 31 /\ 1 <= s_month t <= 12 /\ 0 <= s_hour t <= 23
                 /\ 0 <= s_minute t <= 59 /\ 0 <= s_second t <= 59
                 /\ 1 <= weekday_of t <= 7).
  { intros t Ht. pose proof (Hin t Ht) as V. unfold valid_stamp in V.
    pose proof (days_in_month_bounds (s_year t) (s_month t)).
    pose proof (weekday_of_range t). lia. }
  destruct (get_one_hot_rows s_day ts 1 31) as (D & HD & nD);
    [lia | intros t Ht; specialize (Hb t Ht); lia |].
  destruct (get_one_hot_rows s_month ts 1 12) as (Mo & HMo & nMo);
    [lia | intros t Ht; specialize (Hb t Ht); lia |].
  destruct (get_one_hot_rows s_hour ts 0 23) as (H & HH & nH);
    [lia | intros t Ht; specialize (Hb t Ht); lia |].
  destruct (get_one_hot_rows s_minute ts 0 59) as (Mi & HMi & nMi);
    [lia | intros t Ht; specialize (Hb t Ht); lia |].
  destruct (get_one_hot_rows s_second ts 0 59) as (S & HS & nS);
    [lia | intros t Ht; specialize (Hb t Ht); lia |].
  destruct (get_one_hot_rows weekday_of ts 1 7) as (W & HW & nW);
    [lia | intros t Ht; specialize (Hb t Ht); lia |].
  unfold obtain_date_time_features, parsed.
  cbn [dl_dates dl_months dl_hours dl_minutes dl_seconds dl_weekdays].
  destruct dt, wd; rewrite ?HD, ?HMo, ?HH, ?HMi, ?HS, ?HW, ?rbind_ok;
    cbn [rbind];
    match goal with
    | |- exists F, hstack ?fam ?bl = Ok F /\ _ =>
        destruct (hstack_ok fam (length ts) bl) as (F & HF & nF & _);
        [discriminate
        | repeat (apply Forall_cons;
                  [first [assumption | rewrite map_map; apply nrows_column
                         | apply nrows_column]|]); apply Forall_nil
        | exists F; split; [exact HF | exact nF]]
    end.
Qed.

Lemma map_result_seq {A B C} (f : nat -> result B) (g : B -> C) (h : A -> C)
    (d : A) (l : list A) (s : nat) :
  (forall i, (i < length l)%nat ->
     exists b, f (s + i)%nat = Ok b /\ g b = h (nth i l d)) ->
  exists bs, map_result f (seq s (length l)) = Ok bs /\ map g bs = map h l.
Proof.
  revert s. induction l as [|a l IH]; intros s H; simpl.
  - now exists [].
  - destruct (H O ltac:(simpl; lia)) as (b & H0 & Hb).
    rewrite Nat.add_0_r in H0. rewrite H0, rbind_ok.
    destruct (IH (S s)) as (bs & -> & Hbs).
    + intros i Hi. destruct (H (S i) ltac:(simpl; lia)) as (b' & H1 & H2).
      exists b'. split; [|exact H2]. rewrite <- H1. f_equal. lia.
    + exists (b :: bs). split; [reflexivity|]. simpl.
      simpl in Hb. now rewrite Hb, Hbs.
Qed.

Lemma nth_map_default {A} (f : A -> Z) (l : list A) (d : A) (i : nat) :
  (i < length l)%nat -> nth i (map f l) 0 = f (nth i l d).
Proof.
  intros Hi. rewrite (nth_indep _ 0 (f d)) by now rewrite length_map.
  apply map_nth.
Qed.

Lemma mk_timedelta_valid (r : ride) :
  valid_stamp (r_pickup r) -> valid_stamp (r_dropoff r) ->
  exists td,
    mk_timedelta
      (s_day (r_dropoff r) - s_day (r_pickup r))
      (s_hour (r_dropoff r) - s_hour (r_pickup r))
      (s_minute (r_dropoff r) - s_minute (r_pickup r))
      (s_second (r_dropoff r) - s_second (r_pickup r)) = Ok td
    /\ td_seconds td = component_seconds r mod 86400.
Proof.
  intros Hp Hd. unfold valid_stamp in Hp, Hd.
  pose proof (days_in_month_bounds (s_year (r_pickup r)) (s_month (r_pickup r))).
  pose proof (days_in_month_bounds (s_year (r_dropoff r)) (s_month (r_dropoff r))).
  unfold mk_timedelta.
  match goal with
  | |- context [Z.abs ?d >? ?b] => destruct (Z.gtb_spec (Z.abs d) b) as [Hbig|_]
  end.
  - exfalso.
    match type of Hbig with
    | context [?s / 86400] =>
        assert (-1 <= s / 86400 <= 1)
          by (split; [apply Z.div_le_lower_bound | apply Z.div_le_upper_bound]; lia)
    end.
    lia.
  - eexists. split; [reflexivity|]. simpl. unfold component_seconds.
    match goal with
    | |- ?s mod _ = (?d * 86400 + ?a + ?b + ?c) mod _ =>
        replace (d * 86400 + a + b + c) with (s + d * 86400) by ring
    end.
    now rewrite Z_mod_plus_full.
Qed.

Lemma rows_pickup (rides : list ride) :
  map pickup_datetime (map ride_row_of rides) = map format_stamp (map r_pickup rides).
Proof. now rewrite !map_map. Qed.

Lemma rows_dropoff (rides : list ride) :
  map dropoff_datetime (map ride_row_of rides) = map format_stamp (map r_dropoff rides).
Proof. now rewrite !map_map. Qed.

Lemma Forall_map_iff {A B} (P : B -> Prop) (f : A -> B) (l : list A) :
  Forall (fun x => P (f x)) l -> Forall P (map f l).
Proof. induction 1; simpl; constructor; assumption. Qed.

(** What the code computes.  For a non-empty chunk of rides with valid
    timestamps and location identifiers in 1..263, and reference arrays
    with a row for each such identifier, [get_naive_features] returns,
    for whatever flags, one target per ride: the drop-off minus pickup
    difference over the day, hour, minute and second components, in
    seconds, reduced modulo 86400 (the [seconds] field of the normalised
    duration). *)
Theorem travel_time_target (rides : list ride) (coords boros : matrix)
    (dt wd incl nn : bool) :
  rides <> [] -> Forall valid_ride rides ->
  (263 < nrows coords)%nat -> (263 < nrows boros)%nat ->
  exists F,
    get_naive_features (map ride_row_of rides) coords boros 263 dt wd incl nn
    = Ok (F, map (fun r => component_seconds r mod 86400) rides)
    /\ nrows F = length rides.
Proof.
  intros Hne Hv Hc Hb.
  pose proof (proj1 (Forall_forall _ _) Hv) as Hin.
  assert (Hpv : Forall valid_stamp (map r_pickup rides))
    by (apply Forall_map_iff; revert Hv; apply Forall_impl; intros r V; apply V).
  assert (Hdv : Forall valid_stamp (map r_dropoff rides))
    by (apply Forall_map_iff; revert Hv; apply Forall_impl; intros r V; apply V).
  assert (Hpne : map r_pickup rides <> []) by (destruct rides; [congruence|discriminate]).
  assert (Hdne : map r_dropoff rides <> []) by (destruct rides; [congruence|discriminate]).
  unfold get_naive_features.
  rewrite rows_pickup, rows_dropoff.
  rewrite (parse_datetime_format _ Hpne Hpv), (parse_datetime_format _ Hdne Hdv).
  rewrite !rbind_ok.
  destruct (obtain_date_time_features_rows (map r_pickup rides) dt wd Hpv)
    as (PUD & -> & nPUD).
  rewrite rbind_ok, length_map in *.
  assert (Hpu : map PULocationID (map ride_row_of rides) = map r_pu rides)
    by now rewrite map_map.
  assert (Hdo : map DOLocationID (map ride_row_of rides) = map r_do rides)
    by now rewrite map_map.
  rewrite Hpu, Hdo.
  assert (Hids : forall arr, (263 < nrows arr)%nat ->
            Forall (fun i => 0 <= i < Z.of_nat (nrows arr)) (map r_pu rides)
            /\ Forall (fun i => 0 <= i < Z.of_nat (nrows arr)) (map r_do rides)).
  { intros arr Harr. split; apply Forall_map_iff; revert Hv; apply Forall_impl;
      intros r (_ & _ & ? & ?); lia. }
  destruct (take_rows_ok coords _ (proj1 (Hids coords Hc))) as (PUC & -> & nPUC).
  destruct (take_rows_ok coords _ (proj2 (Hids coords Hc))) as (DOC & -> & nDOC).
  destruct (take_rows_ok boros _ (proj1 (Hids boros Hb))) as (PUB & -> & nPUB).
  destruct (take_rows_ok boros _ (proj2 (Hids boros Hb))) as (DOB & -> & nDOB).
  rewrite !rbind_ok. rewrite length_map in *.
  destruct (get_one_hot_rows r_pu rides 1 263) as (PU1 & HPU1 & nPU1);
    [lia | intros r Hr; destruct (Hin r Hr) as (_ & _ & ? & ?); lia |].
  destruct (get_one_hot_rows r_do rides 1 263) as (DO1 & HDO1 & nDO1);
    [lia | intros r Hr; destruct (Hin r Hr) as (_ & _ & ? & ?); lia |].
  assert (HF : exists F,
    (if incl
     then
       PULocID1h <- get_one_hot (map r_pu rides) 1 263 ;;
       DOLocID1h <- get_one_hot (map r_do rides) 1 263 ;;
       hstack Sparse [PULocID1h; PUC; PUB; DOLocID1h; DOC; DOB; PUD]
     else if dt || wd
       then if nn then hstack Sparse [PUC; PUB; DOC; DOB; PUD]
            else hstack Sparse [PUD; PUC; DOC; PUB; DOB]
       else if nn then hstack Dense [PUC; PUB; DOC; DOB; PUD]
            else hstack Dense [PUD; PUC; DOC; PUB; DOB]) = Ok F
    /\ nrows F = length rides).
  { destruct incl; [rewrite HPU1, HDO1, !rbind_ok|destruct (dt || wd), nn];
      match goal with
      | |- exists F, hstack ?fam ?bl = Ok F /\ _ =>
          destruct (hstack_ok fam (length rides) bl) as (F & HF & nF & _);
          [discriminate
          | repeat (apply Forall_cons; [assumption|]); apply Forall_nil
          | exists F; split; [exact HF | exact nF]]
      end. }
  destruct HF as (F & -> & nF). rewrite rbind_ok.
  exists F. split; [|exact nF].
  pose (d0 := {| r_pickup := stamp_of 0 0 0 0 0 0; r_dropoff := stamp_of 0 0 0 0 0 0;
                 r_pu := 0; r_do := 0 |}).
  rewrite ?length_map.
  match goal with
  | |- context [map_result ?f (seq 0 (length rides))] =>
      destruct (map_result_seq f td_seconds
                  (fun r => component_seconds r mod 86400) d0 rides 0)
        as (tds & Hmr & Htds)
  end.
  { intros i Hi. cbn beta. cbn [parsed dl_dates dl_hours dl_minutes dl_seconds].
    rewrite !map_map.
    rewrite !(nth_map_default _ rides d0 i Hi).
    destruct (Hin (nth i rides d0) (nth_In _ _ Hi)) as (Vp & Vd & _).
    exact (mk_timedelta_valid _ Vp Vd). }
  rewrite Hmr, rbind_ok, Htds. reflexivity.
Qed.

Ltac valid_ride_tac :=
  unfold valid_ride; repeat split; try valid_stamp_tac; simpl; lia.

Lemma travel_time_target_witness :
  exists F,
    get_naive_features
      (map ride_row_of [ride_ten_minutes; ride_next_day; ride_month_end])
      coords_full boros_full 263 true true true false
    = Ok (F, [605; 5; 1200])
    /\ nrows F = 3%nat.
Proof.
  apply (travel_time_target [ride_ten_minutes; ride_next_day; ride_month_end]
           coords_full boros_full true true true false).
  - discriminate.
  - repeat (apply Forall_cons; [valid_ride_tac|]). apply Forall_nil.
  - vm_compute. lia.
  - vm_compute. lia.
Defined.

(** The example of the specification: ten minutes and five seconds. *)
Example travel_time_605 :
  targets (get_naive_features [ride_row_of ride_ten_minutes]
             coords_ex boros_ex 263 true true true false) = Ok [605].
Proof. vm_compute. reflexivity. Qed.

(** C1. The target is meant to be the time taken in seconds over the
    day, hour, minute and second components, a differing day counting
    with its full delta.  The ride from 2020-01-01 00:00:00 to
    2020-01-02 00:00:05 took 86405 seconds by that measure; the target
    that [get_naive_features] returns for it is 5: the day delta is
    handed to the duration and lost when its [seconds] field is read. *)
Theorem travel_time_day_delta_dropped :
  valid_ride ride_next_day
  /\ component_seconds ride_next_day = 86405
  /\ targets (get_naive_features [ride_row_of ride_next_day]
                coords_ex boros_ex 263 true true true false) = Ok [5].
Proof.
  split; [valid_ride_tac|]. split; vm_compute; reflexivity.
Qed.

(** ** Reference loader: regions *)

Lemma set_nth_length {A} (l : list A) (k : nat) (v : A) :
  length (set_nth l k v) = length l.
Proof.
  revert k. induction l as [|a l IH]; intros [|k]; simpl; try reflexivity.
  now rewrite IH.
Qed.

Lemma set_nth_nth {A} (l : list A) (k j : nat) (v d : A) :
  (k < length l)%nat ->
  nth j (set_nth l k v) d = if (j =? k)%nat then v else nth j l d.
Proof.
  revert k j. induction l as [|a l IH]; intros [|k] [|j] Hk; simpl in *;
    try lia; try reflexivity.
  apply IH. lia.
Qed.

Lemma py_setitem_in_range {A} (l : list A) (i : Z) (v : A) :
  1 <= i + 1 <= Z.of_nat (length l) ->
  py_setitem l i v = Ok (set_nth l (Z.to_nat i) v).
Proof.
  intros Hi. unfold py_setitem.
  destruct (Z.ltb_spec i 0) as [?|_]; [lia|].
  destruct (Z.leb_spec 0 i) as [_|?]; [|lia].
  destruct (Z.ltb_spec i (Z.of_nat (length l))) as [_|?]; [|lia].
  reflexivity.
Qed.

Lemma py_setitem_cases {A} (l : list A) (i : Z) (v : A) :
  py_setitem l i v = Err IndexError
  \/ exists k, (k < length l)%nat
       /\ (Z.of_nat k = i \/ Z.of_nat k = i + Z.of_nat (length l))
       /\ py_setitem l i v = Ok (set_nth l k v).
Proof.
  unfold py_setitem.
  destruct (Z.ltb_spec i 0) as [Hneg|Hpos];
    match goal with
    | |- context [(0 <=? ?j) && (?j <? ?n)] =>
        destruct (Z.leb_spec 0 j); [destruct (Z.ltb_spec j n)|]; simpl;
          try (left; reflexivity)
    end.
  - right. exists (Z.to_nat (i + Z.of_nat (length l))). repeat split; lia.
  - right. exists (Z.to_nat i). repeat split; lia.
Qed.

(** While no row with a known name writes position [pos], the code stored
    there stays what it was. *)
Lemma place_boroughs_keeps (BOROUGHS : list (string * Z)) (pos : nat)
    (rows : list (Z * string)) (boroughs : list Z) :
  (pos < length boroughs)%nat ->
  (forall i name, In (i, name) rows ->
     dict_get BOROUGHS name <> None ->
     Z.of_nat pos <> i - 1 /\ Z.of_nat pos <> i - 1 + Z.of_nat (length boroughs)) ->
  place_boroughs BOROUGHS rows boroughs = Err IndexError
  \/ exists b, place_boroughs BOROUGHS rows boroughs = Ok b
       /\ length b = length boroughs
       /\ nth pos b 0 = nth pos boroughs 0.
Proof.
  revert boroughs. induction rows as [|[i name] rows IH]; intros boroughs Hpos H; simpl.
  - right. now exists boroughs.
  - destruct (dict_get BOROUGHS name) as [code|] eqn:E.
    + destruct (py_setitem_cases boroughs (i - 1) code) as [->|(k & Hk & Hki & ->)];
        [now left|].
      rewrite rbind_ok.
      destruct (H i name (or_introl eq_refl)) as [N1 N2]; [now rewrite E|].
      destruct (IH (set_nth boroughs k code)) as [->|(b & -> & Hlen & Hnth)].
      * now rewrite set_nth_length.
      * rewrite set_nth_length. intros i' name' Hin. apply H. now right.
      * now left.
      * right. exists b. split; [reflexivity|].
        rewrite set_nth_length in Hlen. split; [exact Hlen|].
        rewrite Hnth, set_nth_nth by exact Hk.
        destruct (Nat.eqb_spec pos k); [lia|reflexivity].
    + apply IH; [exact Hpos|]. intros i' name' Hin. apply H. now right.
Qed.

Lemma get_one_hot_zero (values : list Z) (pos : nat) :
  (pos < length values)%nat -> nth pos values 0 = 0 ->
  get_one_hot values 1 6 = Err ValueError.
Proof.
  intros Hpos H0. unfold get_one_hot. simpl.
  replace (forallb _ _) with false; [reflexivity|].
  symmetry. apply not_true_is_false. intros Hall.
  assert (Hin : In (nth pos values 0 - 1) (map (fun i => i - 1) values))
    by (apply (in_map (fun i => i - 1)), nth_In, Hpos).
  rewrite H0 in Hin.
  pose proof (proj1 (forallb_forall _ _) Hall _ Hin) as Hc.
  discriminate Hc.
Qed.

(** [extract_all_boroughs] issues one query and builds the array from
    its rows. *)
Lemma extract_all_boroughs_run (BOROUGHS : list (string * Z)) (conn : connection)
    (table_name : string) (maxLocID : Z) (log : list event) :
  extract_all_boroughs BOROUGHS conn table_name maxLocID log
  = (rows <- q_boros conn log ("SELECT LocationID, Borough FROM " ++ table_name)%string ;;
     boroughs_array BOROUGHS rows maxLocID,
     log ++ [EvQuery ("SELECT LocationID, Borough FROM " ++ table_name)%string]).
Proof.
  unfold extract_all_boroughs, mbind, run_query, lift.
  destruct (q_boros conn log _); reflexivity.
Qed.

(** C2. A location inside the array (1 <= id <= maxLocID) that no row
    with a known region name refers to keeps the code 0, and the one-hot
    encoder with range 1..6 then rejects it: the call raises. *)
Theorem unknown_region_raises (BOROUGHS : list (string * Z))
    (rows : list (Z * string)) (maxLocID id : Z) :
  1 <= id <= maxLocID ->
  (forall i name, In (i, name) rows -> 1 <= i) ->
  (forall name, In (id, name) rows -> dict_get BOROUGHS name = None) ->
  boroughs_array BOROUGHS rows maxLocID = Err ValueError
  \/ boroughs_array BOROUGHS rows maxLocID = Err IndexError.
Proof.
  intros Hid Hpos Hunknown. unfold boroughs_array.
  destruct (Z.ltb_spec maxLocID 0) as [?|_]; [lia|].
  destruct (place_boroughs_keeps BOROUGHS (Z.to_nat (id - 1)) rows
              (repeat 0 (Z.to_nat maxLocID))) as [->|(b & -> & Hlen & Hnth)].
  - rewrite repeat_length. lia.
  - rewrite repeat_length. intros i name Hin Hknown.
    specialize (Hpos i name Hin). split; [|lia].
    intros Heq. apply Hknown. apply Hunknown.
    replace id with i by lia. exact Hin.
  - now right.
  - left. rewrite rbind_ok.
    rewrite (get_one_hot_zero b (Z.to_nat (id - 1))); [reflexivity| |].
    + rewrite Hlen, repeat_length. lia.
    + rewrite Hnth. apply nth_repeat.
Qed.

Lemma unknown_region_raises_witness :
  boroughs_array boroughs_ex [(1, "Queens"%string); (2, "Atlantis"%string)] 2
  = Err ValueError
  \/ boroughs_array boroughs_ex [(1, "Queens"%string); (2, "Atlantis"%string)] 2
     = Err IndexError.
Proof.
  apply (unknown_region_raises boroughs_ex
           [(1, "Queens"%string); (2, "Atlantis"%string)] 2 2).
  - lia.
  - intros i name [H|[H|[]]]; inversion H; lia.
  - intros name [H|[H|[]]]; inversion H; reflexivity.
Defined.

(** The table of 263 locations with one unknown name: the call raises. *)
Example unknown_region_263 :
  boroughs_array boroughs_ex regions_one_unknown 263 = Err ValueError.
Proof. vm_compute. reflexivity. Qed.

(** Unknown names on rows beyond the array (264, 265) are skipped. *)
Example unknown_region_out_of_range :
  is_ok (boroughs_array boroughs_ex regions_all_known 263) = true.
Proof. vm_compute. reflexivity. Qed.

(** ** Reference loader: coordinates *)

Lemma find_app {A} (p : A -> bool) (l1 l2 : list A) :
  find p (l1 ++ l2) = match find p l1 with
                      | Some x => Some x
                      | None => find p l2
                      end.
Proof.
  induction l1 as [|a l1 IH]; simpl; [reflexivity|].
  destruct (p a); [reflexivity | exact IH].
Qed.

Lemma place_coords_spec (rows : list (Z * Q * Q)) (coords : list (list Q)) :
  Forall (fun r => 1 <= fst (fst r) <= Z.of_nat (length coords)) rows ->
  exists c,
    place_coords rows coords = Ok c
    /\ length c = length coords
    /\ forall k, (k < length coords)%nat ->
         nth k c [] = match last_coords rows (Z.of_nat k + 1) with
                      | Some v => v
                      | None => nth k coords []
                      end.
Proof.
  revert coords. induction rows as [|[[id lat] long] rows IH]; intros coords H; simpl.
  - exists coords. repeat split. 
  - inversion H as [|? ? Hid Hrest]; subst. simpl in Hid.
    rewrite py_setitem_in_range by lia. rewrite rbind_ok.
    destruct (IH (set_nth coords (Z.to_nat (id - 1)) [lat; long]))
      as (c & -> & Hlen & Hnth).
    { now rewrite set_nth_length. }
    rewrite set_nth_length in Hlen, Hnth.
    exists c. split; [reflexivity|]. split; [exact Hlen|].
    intros k Hk. rewrite (Hnth k Hk). unfold last_coords. simpl.
    rewrite find_app. 
    destruct (find _ (rev rows)) as [[[? ?] ?]|]; [reflexivity|].
    simpl. rewrite set_nth_nth by lia.
    destruct (Z.eqb_spec id (Z.of_nat k + 1)) as [E|E];
      destruct (Nat.eqb_spec k (Z.to_nat (id - 1))) as [E'|E'];
      try reflexivity; lia.
Qed.

Lemma place_coords_width (rows : list (Z * Q * Q)) (coords c : list (list Q)) :
  Forall (fun r => length r = 2%nat) coords ->
  place_coords rows coords = Ok c ->
  Forall (fun r => length r = 2%nat) c.
Proof.
  revert coords. induction rows as [|[[id lat] long] rows IH]; intros coords Hw; simpl.
  - intros E. injection E as <-. exact Hw.
  - destruct (py_setitem_cases coords (id - 1) [lat; long])
      as [->|(k & Hk & _ & ->)]; [discriminate|].
    rewrite rbind_ok. apply IH.
    apply Forall_forall. intros r Hr.
    destruct (In_nth _ _ [] Hr) as (j & Hj & <-).
    rewrite set_nth_length in Hj. rewrite set_nth_nth by exact Hk.
    destruct (j =? k)%nat; [reflexivity|].
    exact (proj1 (Forall_forall _ _) Hw _ (nth_In _ _ Hj)).
Qed.

(** *** Min-max scaling *)

Lemma fold_Qmin_le (l : list Q) (a : Q) :
  (fold_left Qmin l a <= a)%Q
  /\ forall x, In x l -> (fold_left Qmin l a <= x)%Q.
Proof.
  revert a. induction l as [|b l IH]; intros a; simpl.
  - split; [apply Qle_refl | intros x []].
  - destruct (IH (Qmin a b)) as [H1 H2]. split.
    + eapply Qle_trans; [exact H1 | apply Q.le_min_l].
    + intros x [<-|Hx]; [|now apply H2].
      eapply Qle_trans; [exact H1 | apply Q.le_min_r].
Qed.

Lemma fold_Qmax_ge (l : list Q) (a : Q) :
  (a <= fold_left Qmax l a)%Q
  /\ forall x, In x l -> (x <= fold_left Qmax l a)%Q.
Proof.
  revert a. induction l as [|b l IH]; intros a; simpl.
  - split; [apply Qle_refl | intros x []].
  - destruct (IH (Qmax a b)) as [H1 H2]. split.
    + eapply Qle_trans; [apply Q.le_max_l | exact H1].
    + intros x [<-|Hx]; [|now apply H2].
      eapply Qle_trans; [apply Q.le_max_r | exact H1].
Qed.

Lemma list_min_le (l : list Q) (x : Q) : In x l -> (list_min l <= x)%Q.
Proof.
  destruct l as [|a l]; [intros []|]. simpl.
  intros [<-|Hx]; [exact (proj1 (fold_Qmin_le l a))
                  | exact (proj2 (fold_Qmin_le l a) x Hx)].
Qed.

Lemma list_max_ge (l : list Q) (x : Q) : In x l -> (x <= list_max l)%Q.
Proof.
  destruct l as [|a l]; [intros []|]. simpl.
  intros [<-|Hx]; [exact (proj1 (fold_Qmax_ge l a))
                  | exact (proj2 (fold_Qmax_ge l a) x Hx)].
Qed.

(** One entry after scaling: between 0 and 1 when the entry lies between
    the minimum and the maximum of its column. *)
Lemma scaled_in_unit_interval (x mn mx : Q) :
  (mn <= x)%Q -> (x <= mx)%Q ->
  in_unit_interval
    (x * (1 / handle_zeros_in_scale (mx - mn))
     + (0 - mn * (1 / handle_zeros_in_scale (mx - mn))))%Q.
Proof.
  intros Hlo Hhi. unfold in_unit_interval, handle_zeros_in_scale.
  destruct (Qeq_bool (mx - mn) 0) eqn:E.
  - apply Qeq_bool_eq in E.
    assert (Hx : (x == mn)%Q) by (apply Qle_antisym; lra).
    split; field_simplify; lra.
  - assert (Hr : (0 < mx - mn)%Q).
    { apply Qeq_bool_neq in E. destruct (Qlt_le_dec 0 (mx - mn)) as [G|G]; [exact G|].
      exfalso. apply E. lra. }
    set (r := (mx - mn)%Q) in *.
    assert (Hs : (0 < / r)%Q) by now apply Qinv_lt_0_compat.
    assert (Heq : (x * (1 / r) + (0 - mn * (1 / r)) == (x - mn) * / r)%Q)
      by (field; lra).
    rewrite Heq. split.
    + apply Qmult_le_0_compat; lra.
    + assert (Hone : (r * / r == 1)%Q) by (apply Qmult_inv_r; lra).
      rewrite <- Hone. apply Qmult_le_compat_r; [unfold r; lra | lra].
Qed.

Lemma minmax_transform_unit (X : list (list Q)) :
  Forall (fun r => length r = 2%nat) X ->
  Forall (fun r => length r = 2%nat /\ Forall in_unit_interval r)
    (minmax_transform (minmax_fit 2 X) X).
Proof.
  intros Hw. unfold minmax_transform. apply Forall_forall. intros r' Hr'.
  apply in_map_iff in Hr'. destruct Hr' as (r & <- & Hr).
  pose proof (proj1 (Forall_forall _ _) Hw r Hr) as Hlen.
  destruct r as [|x0 [|x1 [|? ?]]]; try discriminate Hlen.
  assert (H0 : In x0 (column_of 0 X))
    by (apply (in_map (fun r => nth 0 r 0%Q) X [x0; x1] Hr)).
  assert (H1 : In x1 (column_of 1 X))
    by (apply (in_map (fun r => nth 1 r 0%Q) X [x0; x1] Hr)).
  unfold minmax_fit.
  cbn [seq map combine scale_ min_ fst snd].
  split; [reflexivity|].
  repeat apply Forall_cons; try apply Forall_nil;
    apply scaled_in_unit_interval;
    first [now apply list_min_le | now apply list_max_ge].
Qed.

Lemma repeat_Forall {A} (P : A -> Prop) (a : A) (n : nat) :
  P a -> Forall P (repeat a n).
Proof. intros H. induction n; simpl; constructor; assumption. Qed.

Lemma zero_row_unit : Forall in_unit_interval [0%Q; 0%Q].
Proof. repeat constructor; unfold in_unit_interval; lra. Qed.

(** [extract_all_coordinates] issues one query and builds the array
    from its rows. *)
Lemma extract_all_coordinates_run (conn : connection) (table_name : string)
    (normalized : bool) (log : list event) :
  extract_all_coordinates conn table_name normalized log
  = (rows <- q_coords conn log ("SELECT LocationID, lat, long FROM " ++ table_name)%string ;;
     coordinates_array rows normalized,
     log ++ [EvQuery ("SELECT LocationID, lat, long FROM " ++ table_name)%string]).
Proof.
  unfold extract_all_coordinates, mbind, run_query, lift.
  destruct (q_coords conn log _); reflexivity.
Qed.

(** Whatever the identifiers, a normalised array that is returned has
    its sentinel row and all its entries between 0 and 1. *)
Lemma normalized_coordinates_unit (rows : list (Z * Q * Q)) (C : matrix) :
  coordinates_array rows true = Ok C ->
  nth 0 (m_rows C) [] = [0%Q; 0%Q]
  /\ Forall (Forall in_unit_interval) (m_rows C).
Proof.
  unfold coordinates_array. intros H.
  destruct (place_coords rows _) as [X|] eqn:HX; [|discriminate H].
  rewrite rbind_ok in H.
  assert (Hw : Forall (fun r => length r = 2%nat) X).
  { apply (place_coords_width rows (repeat [0%Q; 0%Q] (length rows)) X);
      [apply repeat_Forall; reflexivity | exact HX]. }
  unfold fit_transform in H. destruct X as [|x X']; [discriminate H|].
  rewrite rbind_ok in H. injection H as <-. cbn [m_rows].
  split; [reflexivity|].
  apply Forall_cons; [exact zero_row_unit|].
  pose proof (minmax_transform_unit (x :: X') Hw) as Hu.
  revert Hu. apply Forall_impl. intros r [_ Hr]. exact Hr.
Qed.

(** C7. When every fetched identifier lies in 1..n, n being the number of
    fetched triples, [extract_all_coordinates] returns an array of n + 1
    rows with an all-zero row at index 0, normalised or not.  Without
    normalisation the row at index [i] holds the coordinates of the last
    triple fetched for [i], and is zero when no triple refers to [i].
    With normalisation (and at least one triple) the rows 1..n are the
    min-max scaling of those rows and every entry of the array lies
    between 0 and 1.  The regions array, when [extract_all_boroughs]
    returns one, starts with an all-zero row. *)
Theorem reference_arrays_layout (rows : list (Z * Q * Q))
    (BOROUGHS : list (string * Z)) (region_rows : list (Z * string))
    (maxLocID : Z) (R : matrix) :
  Forall (fun r => 1 <= fst (fst r) <= Z.of_nat (length rows)) rows ->
  boroughs_array BOROUGHS region_rows maxLocID = Ok R ->
  coordinates_layout rows
  /\ nth 0 (m_rows R) [] = repeat 0%Q 6.
Proof.
  intros Hids HR. split.
  - unfold coordinates_layout.
    destruct (place_coords_spec rows (repeat [0%Q; 0%Q] (length rows)))
      as (X & HX & Hlen & Hnth).
    { now rewrite repeat_length. }
    rewrite repeat_length in Hlen, Hnth.
    assert (Hw : Forall (fun r => length r = 2%nat) X).
    { apply (place_coords_width rows (repeat [0%Q; 0%Q] (length rows)) X);
        [apply repeat_Forall; reflexivity | exact HX]. }
    exists X. split; [exact Hlen|]. split.
    + unfold coordinates_array. rewrite HX. reflexivity.
    + split.
      * intros i Hi.
        replace (Z.to_nat i) with (S (Z.to_nat (i - 1))) by lia.
        cbn [nth]. rewrite Hnth by lia.
        replace (Z.of_nat (Z.to_nat (i - 1)) + 1) with i by lia.
        destruct (last_coords rows i); [reflexivity|].
        apply nth_repeat_lt. lia.
      * intros Hne. split.
        -- unfold coordinates_array. rewrite HX, rbind_ok. unfold fit_transform.
           destruct X as [|x X']; [|reflexivity].
           destruct rows; [congruence | discriminate Hlen].
        -- split.
           ++ unfold minmax_transform. rewrite length_map. exact Hlen.
           ++ apply Forall_cons; [exact zero_row_unit|].
              pose proof (minmax_transform_unit X Hw) as Hu.
              revert Hu. apply Forall_impl. intros r [_ Hr]. exact Hr.
  - unfold boroughs_array in HR.
    destruct (maxLocID <? 0); [discriminate|].
    destruct (place_boroughs BOROUGHS region_rows _) as [b|]; [|discriminate].
    rewrite rbind_ok in HR.
    destruct (get_one_hot b 1 6) as [onehot|]; [|discriminate].
    rewrite rbind_ok in HR. injection HR as <-. reflexivity.
Qed.

Lemma reference_arrays_layout_witness :
  coordinates_layout coord_rows_ex
  /\ nth 0 (m_rows regions_array_ex) [] = repeat 0%Q 6.
Proof.
  apply (reference_arrays_layout coord_rows_ex boroughs_ex
           [(1, "Queens"%string); (2, "Bronx"%string)] 2 regions_array_ex).
  - repeat (apply Forall_cons; [simpl; lia|]). apply Forall_nil.
  - vm_compute. reflexivity.
Defined.

(** Two tables on which the layout fails.  In the first the only triple
    has identifier 2: the array has one row and the assignment raises.
    In the second both triples have identifier 1: index 2 is referred to
    by no triple, and after normalisation its row is not zero. *)
Lemma reference_arrays_layout_fails :
  coordinates_array [(2, 1%Q, 1%Q)] false = Err IndexError
  /\ last_coords [(1, (-1)%Q, 1%Q); (1, (-1)%Q, 1%Q)] 2 = None
  /\ coordinates_array [(1, (-1)%Q, 1%Q); (1, (-1)%Q, 1%Q)] true
     = Ok {| m_family := Dense; m_ncols := 2;
             m_rows := [[0; 0]; [0; 1]; [1; 0]]%Q |}
  /\ ~ all_zero [1; 0]%Q.
Proof.
  repeat split; try (vm_compute; reflexivity).
  intros H. inversion H as [|? ? H1 _]. discriminate H1.
Qed.

(** ** Region-pair restriction *)

Lemma string_app_assoc (a b c : string) :
  ((a ++ b) ++ c)%string = (a ++ (b ++ c))%string.
Proof. induction a as [|x a IH]; simpl; [reflexivity | now rewrite IH]. Qed.

(** The text that [filter_for_boros] returns is the join head followed
    by the rendering of the one-way or of the two-way condition. *)
Lemma filter_for_boros_reads (command : string) (s e : list string) (tw : bool) :
  filter_for_boros command s e tw
  = (boro_join_head command
     ++ render (if tw then two_way_cond s e else one_way_cond s e))%string.
Proof.
  unfold filter_for_boros, boro_join_head, two_way_cond, one_way_cond.
  destruct tw; cbn [render]; rewrite !string_app_assoc; reflexivity.
Qed.

Lemma one_way_cond_holds (s e : list string) (pu dropoff : string) :
  cond_holds (one_way_cond s e) pu dropoff = name_in s pu && name_in e dropoff.
Proof. reflexivity. Qed.

Lemma two_way_cond_holds (s e : list string) (pu dropoff : string) :
  cond_holds (two_way_cond s e) pu dropoff
  = (name_in s pu && name_in e dropoff) || (name_in s dropoff && name_in e pu).
Proof. reflexivity. Qed.

(** The exhaustive and the random variant pass [two_way] on; the
    block-shuffled variant always asks for the two-way condition. *)
Lemma restriction_by_variant (table_name : string) (o : options) (s e : list string) :
  start_super_boro o = Some s -> end_super_boro o = Some e ->
  (forall offset, exists base,
      all_command table_name o offset
      = (boro_join_head base ++ render (wanted_cond o s e))%string)
  /\ (forall size, exists base,
      random_command table_name o size
      = (boro_join_head base ++ render (wanted_cond o s e))%string)
  /\ (forall block_size blk_idx, exists base,
      batch_block_command table_name o block_size blk_idx
      = (boro_join_head base ++ render (two_way_cond s e))%string).
Proof.
  intros Hs He. unfold all_command, random_command, batch_block_command, restrict,
    wanted_cond.
  rewrite Hs, He. repeat split; intros; eexists; apply filter_for_boros_reads.
Qed.

(** C3. A directional restriction from {X} to {Y} ([two_way] false).
    The exhaustive and the random variant build the one-way condition,
    which selects a ride from X to Y and rejects a ride from Y to X.  The
    block-shuffled variant builds the two-way condition for the same
    options, and that condition selects the ride from Y to X. *)
Theorem directional_restriction_by_variant :
  all_command "rides" opts_directional 0
  = (boro_join_head
       (select_rides "rides" ++ "LIMIT 1000000.0 OFFSET 0")
     ++ render (one_way_cond ["X"%string] ["Y"%string]))%string
  /\ random_command "rides" opts_directional (Some 10)
     = (boro_join_head
          (select_rides "rides" ++ "ORDER BY RANDOM() LIMIT 10")
        ++ render (one_way_cond ["X"%string] ["Y"%string]))%string
  /\ batch_block_command "rides" opts_directional 1000 3
     = (boro_join_head
          (select_rides "rides" ++ "LIMIT 1000 OFFSET 3000")
        ++ render (two_way_cond ["X"%string] ["Y"%string]))%string
  /\ batch_block_command "rides" opts_directional 1000 3
     = batch_block_command "rides" opts_bidirectional 1000 3
  /\ cond_holds (one_way_cond ["X"%string] ["Y"%string]) "X" "Y" = true
  /\ cond_holds (one_way_cond ["X"%string] ["Y"%string]) "Y" "X" = false
  /\ cond_holds (two_way_cond ["X"%string] ["Y"%string]) "X" "Y" = true
  /\ cond_holds (two_way_cond ["X"%string] ["Y"%string]) "Y" "X" = true.
Proof. repeat split; vm_compute; reflexivity. Qed.

(** ** The exhaustive scan *)

(** [batch_num * limit < NUM_ROWS] holds for exactly the first
    [page_count NUM_ROWS] values of [batch_num]. *)
Lemma page_count_spec (NUM_ROWS : Z) (batch_num : nat) :
  Z.of_nat batch_num * limit < NUM_ROWS <-> (batch_num < page_count NUM_ROWS)%nat.
Proof.
  unfold page_count, limit.
  destruct (Z.le_gt_cases NUM_ROWS 0) as [Hle|Hgt].
  - assert ((NUM_ROWS + 1000000 - 1) / 1000000 <= 0)
      by (apply Z.lt_succ_r, Z.div_lt_upper_bound; lia).
    lia.
  - pose proof (Z.div_mod (NUM_ROWS + 1000000 - 1) 1000000 ltac:(lia)) as Hd.
    pose proof (Z.mod_pos_bound (NUM_ROWS + 1000000 - 1) 1000000 ltac:(lia)) as Hm.
    assert (0 <= (NUM_ROWS + 1000000 - 1) / 1000000)
      by (apply Z.div_pos; lia).
    split; intros H'; lia.
Qed.

(** A query error on the first page leaves the loop with nothing bound. *)
Lemma all_pages_first_error (conn : connection) (table_name : string) (o : options)
    (coords boros : matrix) (remaining : nat) (log : list event) (e : exn) :
  q_rides conn log (all_command table_name o 0) = Err e ->
  all_pages conn table_name o coords boros (S remaining) 0 None log
  = (Ok None, log ++ [EvQuery (all_command table_name o 0)]).
Proof.
  intros Hq. cbn [all_pages]. unfold mbind, attempt_query. rewrite Hq. reflexivity.
Qed.

(** With the location one-hot blocks included there is a single
    ordering: the flag [use_nn_ordering] is not looked at. *)
Lemma transform_loc_ids_ordering (o : options) (coords boros : matrix)
    (rows : list ride_row) (nn : bool) :
  include_loc_ids o = true ->
  transform o coords boros rows nn = transform o coords boros rows false.
Proof.
  intros Hincl. unfold transform, get_naive_features. rewrite Hincl. reflexivity.
Qed.

(** C4. The exhaustive variant and the block-shuffled variant, called
    with [include_loc_ids] false and [use_nn_ordering] true on a database
    where each page (or block) holds the same ride.  The first row of
    the result is the ride in the neural-network ordering; the row that
    comes from the second page (or block) is the same ride in the default
    ordering. *)
Theorem later_pages_change_ordering :
  feature_rows
    (fst (extract_all_features boroughs_ex (conn_one_ride_per_page 1000001)
            "rides" "coordinates" "locations" opts_nn []))
  = Ok [row_nn_ordering; row_default_ordering]
  /\ batch_rows
       (fst (extract_batch_features boroughs_ex (conn_one_ride_per_page 2000)
               "rides" 2000 1000 "coordinates" "locations" opts_nn
               (fun _ => [1; 0]) []))
     = Ok [[row_nn_ordering; row_default_ordering]]
  /\ row_nn_ordering <> row_default_ordering.
Proof.
  split; [vm_compute; reflexivity|].
  split; [vm_compute; reflexivity|].
  discriminate.
Qed.

(** With [use_nn_ordering] false, the rows of all pages share the
    default ordering. *)
Example pages_default_ordering :
  feature_rows
    (fst (extract_all_features boroughs_ex (conn_one_ride_per_page 1000001)
            "rides" "coordinates" "locations"
            (with_cutoff
               {| datetime_onehot := false; weekdays_onehot := false;
                  include_loc_ids := false;
                  start_super_boro := Some ["Queens"%string];
                  end_super_boro := Some ["Queens"%string];
                  cutoff_val := 0%Q; two_way := true; use_nn_ordering := false |}
               100000%Q) []))
  = Ok [row_default_ordering; row_default_ordering].
Proof. vm_compute. reflexivity. Qed.

(** C5. A rides table of five rows whose page query fails: the loop
    stops at the first page, nothing was accumulated, and the final
    [return features, outputs] raises [UnboundLocalError].  When the
    first page answers and the second fails, the call returns the rows of
    the first page. *)
Theorem first_page_error_raises :
  fst (extract_all_features boroughs_ex (conn_rides_fail 5)
         "rides" "coordinates" "locations" opts_nn [])
  = Err UnboundLocalError
  /\ fst (extract_all_features boroughs_ex (conn_later_pages_fail 3000000)
            "rides" "coordinates" "locations" opts_nn [])
     = Ok ({| m_family := Dense; m_ncols := 22; m_rows := [row_nn_ordering] |},
           [605]).
Proof. split; vm_compute; reflexivity. Qed.

(** ** The entry point *)

(** C8. For [variant='batch'] with [size] or [block_size] missing, or
    with a positive [block_size] that does not divide [size], the call
    reads the cutoff file and then fails: the only event is that read,
    no query reaches the database, and when the cutoff lookup succeeds
    the failure is one of the three configuration messages. *)
Theorem batch_size_check (BOROUGHS : list (string * Z))
    (fs : string -> result (list (Q * Q))) (conn : connection)
    (table_name : string) (size block_size : option Z) (o : options)
    (stddev_multiplier : Q) (cutoff_data_csv : string) (attempts : nat)
    (log : list event) :
  bad_batch_sizes size block_size ->
  exists e,
    extract_features BOROUGHS fs conn table_name "batch" size block_size o
      stddev_multiplier cutoff_data_csv attempts log
    = (Err e, log ++ [EvReadFile cutoff_data_csv])
    /\ (no_query log -> no_query (log ++ [EvReadFile cutoff_data_csv]))
    /\ (forall cutoff,
          fst (get_cutoff_value fs stddev_multiplier cutoff_data_csv log) = Ok cutoff ->
          exists msg, e = SystemExit (ExitMessage msg)
                      /\ In msg batch_configuration_messages).
Proof.
  intros Hbad.
  assert (Hlog : no_query log -> no_query (log ++ [EvReadFile cutoff_data_csv])).
  { intros Hn command Hin. apply in_app_or in Hin.
    destruct Hin as [Hin|[Hin|[]]]; [exact (Hn command Hin)|discriminate Hin]. }
  unfold extract_features, mbind, get_cutoff_value.
  destruct (rows <- fs cutoff_data_csv ;; scan_loaded stddev_multiplier (loadtxt rows))
    as [cutoff|e0] eqn:Hcut.
  - change (String.eqb "batch" "all") with false.
    change (String.eqb "batch" "random") with false.
    change (String.eqb "batch" "batch") with true.
    cbn [fst].
    destruct Hbad as [->|[->|(s & b & -> & -> & Hb & Hmod)]].
    + eexists. split; [reflexivity|]. split; [exact Hlog|].
      intros _ _. eexists. split; [reflexivity|]. simpl. tauto.
    + destruct size as [s|];
        (eexists; split; [reflexivity|]; split; [exact Hlog|];
         intros _ _; eexists; split; [reflexivity|]; simpl; tauto).
    + destruct (Z.eqb_spec b 0) as [?|_]; [lia|].
      pose proof (Z.mod_pos_bound s b Hb) as Hrange.
      destruct (Z.gtb_spec (s mod b) 0) as [_|?]; [|lia].
      eexists. split; [reflexivity|]. split; [exact Hlog|].
      intros _ _. eexists. split; [reflexivity|]. simpl. tauto.
  - exists e0. split; [reflexivity|]. split; [exact Hlog|].
    intros cutoff Hc. discriminate Hc.
Qed.

Lemma batch_size_check_witness :
  exists e,
    extract_features boroughs_ex cutoff_files (conn_one_ride_per_page 2000)
      "rides" "batch" (Some 5) (Some 2) opts_nn 1
      "./data_analysis/multiplier_tbl.csv" 1 []
    = (Err e, [] ++ [EvReadFile "./data_analysis/multiplier_tbl.csv"])
    /\ (no_query [] -> no_query ([] ++ [EvReadFile "./data_analysis/multiplier_tbl.csv"]))
    /\ (forall cutoff,
          fst (get_cutoff_value cutoff_files 1
                 "./data_analysis/multiplier_tbl.csv" []) = Ok cutoff ->
          exists msg, e = SystemExit (ExitMessage msg)
                      /\ In msg batch_configuration_messages).
Proof.
  apply (batch_size_check boroughs_ex cutoff_files (conn_one_ride_per_page 2000)
           "rides" (Some 5) (Some 2) opts_nn 1
           "./data_analysis/multiplier_tbl.csv" 1 []).
  right. right. exists 5, 2. repeat split; try reflexivity; vm_compute; congruence.
Defined.

(** Three calls of the batch variant whose size is not a multiple of the
    block size.  In the first the failure comes after the cutoff file was
    read: the log is not empty.  In the second the multiplier is absent
    from the cutoff table and the call exits with status 1 before the
    sizes are looked at.  In the third the block size is negative: the
    remainder is negative, the check passes and a generator is returned. *)
Lemma batch_size_check_not_first :
  extract_features boroughs_ex cutoff_files (conn_one_ride_per_page 2000)
    "rides" "batch" (Some 5) (Some 2) opts_nn 1
    "./data_analysis/multiplier_tbl.csv" 1 []
  = (Err (SystemExit
            (ExitMessage "Please provide a batch size that is a multiple of block size.")),
     [EvReadFile "./data_analysis/multiplier_tbl.csv"])
  /\ extract_features boroughs_ex cutoff_files (conn_one_ride_per_page 2000)
       "rides" "batch" (Some 5) (Some 2) opts_nn 3
       "./data_analysis/multiplier_tbl.csv" 1 []
     = (Err (SystemExit (ExitCode 1)),
        [EvReadFile "./data_analysis/multiplier_tbl.csv"])
  /\ 5 mod (-2) <> 0
  /\ is_ok (fst (extract_features boroughs_ex cutoff_files
                   (conn_one_ride_per_page 2000)
                   "rides" "batch" (Some 5) (Some (-2)) opts_nn 1
                   "./data_analysis/multiplier_tbl.csv" 1 [])) = true.
Proof.
  repeat split; try (vm_compute; reflexivity).
  vm_compute. discriminate.
Qed.

(** * Further properties of the encoders, loaders and orchestrators *)

(** ** [get_one_hot] *)

(** X1. On values inside [min_val, max_val], [get_one_hot] returns a
    sparse matrix with one row per value and [max_val - min_val + 1]
    columns, and the row of [v] has its single 1 at column [v - min_val]. *)
Theorem get_one_hot_in_range (values : list Z) (min_val max_val : Z) :
  min_val <= max_val + 1 ->
  Forall (fun v => min_val <= v <= max_val) values ->
  exists M,
    get_one_hot values min_val max_val = Ok M
    /\ m_family M = Sparse
    /\ m_ncols M = Z.to_nat (max_val - min_val + 1)
    /\ Forall2 (fun v row => hot_at (Z.to_nat (max_val - min_val + 1)) (v - min_val) row)
         values (m_rows M).
Proof.
  intros Hw Hin. pose proof (proj1 (Forall_forall _ _) Hin) as Hin'.
  replace (get_one_hot values min_val max_val)
    with (get_one_hot (map (fun v => v) values) min_val max_val)
    by now rewrite map_id.
  rewrite (get_one_hot_map (fun v => v) values min_val max_val Hw Hin').
  eexists. split; [reflexivity|]. split; [reflexivity|]. split; [reflexivity|].
  cbn [m_rows]. apply Forall2_map_r. intros v Hv. apply one_hot_row_hot_at.
  specialize (Hin' v Hv). cbv beta in Hin'. lia.
Qed.

Lemma get_one_hot_in_range_witness :
  exists M,
    get_one_hot [5; 1; 6] 1 6 = Ok M
    /\ m_family M = Sparse
    /\ m_ncols M = 6%nat
    /\ Forall2 (fun v row => hot_at 6 (v - 1) row) [5; 1; 6] (m_rows M).
Proof.
  apply (get_one_hot_in_range [5; 1; 6] 1 6).
  - lia.
  - repeat (apply Forall_cons; [lia|]). apply Forall_nil.
Defined.

(** X2. A single value below [min_val] or above [max_val] makes
    [get_one_hot] raise [ValueError], whatever the other values are: the
    encoder never wraps or clips a column index. *)
Theorem get_one_hot_out_of_range (values : list Z) (min_val max_val : Z) :
  Exists (fun v => v < min_val \/ max_val < v) values ->
  get_one_hot values min_val max_val = Err ValueError.
Proof.
  intros Hex. unfold get_one_hot.
  destruct (max_val - min_val + 1 <? 0); [reflexivity|].
  replace (forallb _ _) with false; [reflexivity|].
  symmetry. apply not_true_is_false. intros Hall.
  apply Exists_exists in Hex. destruct Hex as (v & Hv & Hout).
  pose proof (proj1 (forallb_forall _ _) Hall (v - min_val)
                (in_map (fun i => i - min_val) values v Hv)) as Hc.
  apply andb_prop in Hc. destruct Hc as [H1 H2].
  apply Z.leb_le in H1. apply Z.ltb_lt in H2. lia.
Qed.

Lemma get_one_hot_out_of_range_witness :
  get_one_hot [12; 24; 3] 0 23 = Err ValueError.
Proof.
  apply (get_one_hot_out_of_range [12; 24; 3] 0 23).
  apply Exists_cons_tl, Exists_cons_hd. lia.
Defined.

Lemma hot_index_one_hot_row (width c : nat) :
  (c < width)%nat -> hot_index_from 0 (one_hot_row width c) = Some c.
Proof.
  intros Hc. unfold one_hot_row.
  assert (G : forall w s k, (s <= c < s + w)%nat ->
            hot_index_from k
              (map (fun j => if (j =? c)%nat then 1%Q else 0%Q) (seq s w))
            = Some (k + (c - s))%nat).
  { induction w as [|w IH]; intros s k Hs; [lia|]. simpl.
    destruct (Nat.eqb_spec s c) as [->|Hne].
    - simpl. f_equal. lia.
    - simpl. rewrite IH by lia. f_equal. lia. }
  rewrite (G width O O) by lia. f_equal. lia.
Qed.

(** X3. Decoding what [get_one_hot] encoded gives the values back: in
    every row of a returned matrix the position of the 1, shifted by
    [min_val], is the value of that row. *)
Theorem get_one_hot_decode (values : list Z) (min_val max_val : Z) (M : matrix) :
  get_one_hot values min_val max_val = Ok M ->
  map (one_hot_decode min_val) (m_rows M) = map Some values.
Proof.
  unfold get_one_hot.
  destruct (Z.ltb_spec (max_val - min_val + 1) 0) as [|Hw]; [discriminate|].
  destruct (forallb _ _) eqn:Hall; [|discriminate].
  intros E. injection E as <-. cbn [m_rows]. rewrite !map_map.
  apply map_ext_in. intros v Hv.
  pose proof (proj1 (forallb_forall _ _) Hall (v - min_val)
                (in_map (fun i => i - min_val) values v Hv)) as Hc.
  apply andb_prop in Hc. destruct Hc as [H1 H2].
  apply Z.leb_le in H1. apply Z.ltb_lt in H2.
  unfold one_hot_decode. rewrite hot_index_one_hot_row by lia.
  simpl. f_equal. lia.
Qed.

Lemma get_one_hot_decode_witness :
  map (one_hot_decode 0)
    [one_hot_row 24 23; one_hot_row 24 0; one_hot_row 24 7]
  = [Some 23; Some 0; Some 7].
Proof.
  exact (get_one_hot_decode [23; 0; 7] 0 23
           {| m_family := Sparse; m_ncols := 24;
              m_rows := [one_hot_row 24 23; one_hot_row 24 0; one_hot_row 24 7] |}
           eq_refl).
Defined.

(** ** Stacking blocks side by side *)

Lemma fold_hstack_err (fam : family) (blocks : list matrix) (e : exn) :
  fold_left (fun acc x => a <- acc ;; hstack2 fam a x) blocks (Err e) = Err e.
Proof. induction blocks as [|b blocks IH]; simpl; [reflexivity | exact IH]. Qed.

Lemma hstack_fold_shape (fam : family) (blocks : list matrix) (acc F : matrix) :
  m_family acc = fam ->
  fold_left (fun acc x => a <- acc ;; hstack2 fam a x) blocks (Ok acc) = Ok F ->
  nrows F = nrows acc
  /\ Forall (fun b => nrows b = nrows acc) blocks
  /\ m_ncols F = (m_ncols acc + list_sum (map m_ncols blocks))%nat
  /\ m_family F = fam.
Proof.
  revert acc. induction blocks as [|b blocks IH]; intros acc Hfam; simpl.
  - intros E. injection E as <-. repeat split; [constructor | lia | exact Hfam].
  - unfold hstack2 at 2. destruct (Nat.eqb_spec (nrows acc) (nrows b)) as [Heq|Hne].
    + intros HF. apply IH in HF; [|reflexivity].
      destruct HF as (Hn & Hall & Hc & Hf).
      unfold nrows in *. cbn [m_rows m_ncols m_family] in *.
      rewrite zip_app_length in * by exact Heq.
      split; [exact Hn|]. split; [|split; [lia | exact Hf]].
      constructor; [now symmetry | exact Hall].
    + cbn [rbind]. rewrite fold_hstack_err. discriminate.
Qed.

(** What a successful [hstack] returns: as many rows as each block, the
    sum of the widths, the family asked for. *)
Lemma hstack_shape (fam : family) (b : matrix) (blocks : list matrix) (F : matrix) :
  hstack fam (b :: blocks) = Ok F ->
  nrows F = nrows b
  /\ Forall (fun x => nrows x = nrows b) blocks
  /\ m_ncols F = list_sum (map m_ncols (b :: blocks))
  /\ m_family F = fam.
Proof.
  unfold hstack. intros HF.
  apply hstack_fold_shape in HF; [|reflexivity]. exact HF.
Qed.

Lemma get_one_hot_shape (values : list Z) (min_val max_val : Z) (M : matrix) :
  get_one_hot values min_val max_val = Ok M ->
  nrows M = length values /\ m_ncols M = Z.to_nat (max_val - min_val + 1)
  /\ Forall (fun v => min_val <= v <= max_val) values.
Proof.
  unfold get_one_hot.
  destruct (max_val - min_val + 1 <? 0); [discriminate|].
  destruct (forallb _ _) eqn:Hall; [|discriminate].
  intros E. injection E as <-. unfold nrows. cbn [m_rows m_ncols].
  rewrite !length_map. repeat split.
  apply Forall_forall. intros v Hv.
  pose proof (proj1 (forallb_forall _ _) Hall (v - min_val)
                (in_map (fun i => i - min_val) values v Hv)) as Hc.
  apply andb_prop in Hc. destruct Hc as [H1 H2].
  apply Z.leb_le in H1. apply Z.ltb_lt in H2. lia.
Qed.

(** ** [obtain_date_time_features] *)

Lemma column_map {A} (f : A -> Z) (l : list A) :
  column (map f l)
  = {| m_family := Dense; m_ncols := 1; m_rows := map (fun x => [inject_Z (f x)]) l |}.
Proof. unfold column. now rewrite map_map. Qed.

(** X4. With both one-hot flags off, [obtain_date_time_features] never
    fails on six lists of equal length: it returns a dense matrix of six
    columns whose row is day, month, hour + 1, minute + 1, second + 1,
    weekday (the three time columns are shifted by one, the date columns
    and the weekday are not). *)
Theorem numeric_datetime_features (cs : list components) :
  obtain_date_time_features (lists_of cs) false false
  = Ok {| m_family := Dense; m_ncols := 6; m_rows := map numeric_row cs |}.
Proof.
  unfold obtain_date_time_features, lists_of.
  cbn [dl_dates dl_months dl_hours dl_minutes dl_seconds dl_weekdays].
  rewrite !rbind_ok. rewrite !map_map, !column_map.
  unfold hstack. cbn [fold_left orb m_ncols m_rows].
  repeat (rewrite rbind_ok; rewrite hstack2_map).
  apply f_equal. apply (f_equal2 (Build_matrix Dense)); [reflexivity|].
  apply map_ext. intros c. reflexivity.
Qed.

Lemma get_one_hot_error (values : list Z) (min_val max_val : Z) (e : exn) :
  get_one_hot values min_val max_val = Err e -> e = ValueError.
Proof.
  unfold get_one_hot.
  destruct (max_val - min_val + 1 <? 0); [congruence|].
  destruct (forallb _ _); [discriminate | congruence].
Qed.

(** Width, family and height of the date-time block. *)
Lemma obtain_date_time_features_shape (dl : datetime_lists) (dt wd : bool) (F : matrix) :
  obtain_date_time_features dl dt wd = Ok F ->
  m_ncols F = datetime_width dt wd
  /\ m_family F = datetime_family dt wd
  /\ nrows F = length (dl_dates dl).
Proof.
  unfold obtain_date_time_features, datetime_width, datetime_family.
  destruct dt.
  - destruct (get_one_hot (dl_dates dl) 1 31) as [D|] eqn:HD; [|discriminate].
    destruct (get_one_hot (dl_months dl) 1 12) as [Mo|] eqn:HMo; [|discriminate].
    destruct (get_one_hot (dl_hours dl) 0 23) as [H|] eqn:HH; [|discriminate].
    destruct (get_one_hot (dl_minutes dl) 0 59) as [Mi|] eqn:HMi; [|discriminate].
    destruct (get_one_hot (dl_seconds dl) 0 59) as [S|] eqn:HS; [|discriminate].
    cbn [rbind].
    apply get_one_hot_shape in HD, HMo, HH, HMi, HS.
    destruct HD as (nD & cD & _), HMo as (_ & cMo & _), HH as (_ & cH & _),
      HMi as (_ & cMi & _), HS as (_ & cS & _).
    destruct wd.
    + destruct (get_one_hot (dl_weekdays dl) 1 7) as [W|] eqn:HW; [|discriminate].
      apply get_one_hot_shape in HW. destruct HW as (_ & cW & _).
      cbn [rbind orb]. intros HF. apply hstack_shape in HF.
      destruct HF as (Hn & _ & Hc & Hf).
      cbn [map list_sum] in Hc. rewrite cD, cMo, cH, cMi, cS, cW in Hc.
      split; [rewrite Hc; reflexivity|]. split; [exact Hf|]. now rewrite Hn.
    + cbn [rbind orb]. intros HF. apply hstack_shape in HF.
      destruct HF as (Hn & _ & Hc & Hf).
      cbn [map list_sum column m_ncols] in Hc. rewrite cD, cMo, cH, cMi, cS in Hc.
      split; [rewrite Hc; reflexivity|]. split; [exact Hf|]. now rewrite Hn.
  - cbn [rbind]. destruct wd.
    + destruct (get_one_hot (dl_weekdays dl) 1 7) as [W|] eqn:HW; [|discriminate].
      apply get_one_hot_shape in HW. destruct HW as (_ & cW & _).
      cbn [rbind orb]. intros HF. apply hstack_shape in HF.
      destruct HF as (Hn & _ & Hc & Hf).
      cbn [map list_sum column m_ncols] in Hc. rewrite cW in Hc.
      split; [rewrite Hc; reflexivity|]. split; [exact Hf|].
      rewrite Hn. unfold nrows, column. cbn [m_rows]. apply length_map.
    + cbn [rbind orb]. intros HF. apply hstack_shape in HF.
      destruct HF as (Hn & _ & Hc & Hf).
      cbn [map list_sum column m_ncols] in Hc.
      split; [rewrite Hc; reflexivity|]. split; [exact Hf|].
      rewrite Hn. unfold nrows, column. cbn [m_rows]. apply length_map.
Qed.

(** X5. When [obtain_date_time_features] returns, the shape of the
    matrix is fixed by the two flags alone: 187 columns for the one-hot
    date and time or 5 for the numeric ones, plus 7 or 1 for the weekday;
    sparse as soon as one flag is set, dense otherwise; one row per
    entry of the lists. *)
Theorem datetime_features_shape (dl : datetime_lists) (dt wd : bool) (F : matrix) :
  obtain_date_time_features dl dt wd = Ok F ->
  m_ncols F = datetime_width dt wd
  /\ m_family F = datetime_family dt wd
  /\ nrows F = length (dl_dates dl).
Proof. exact (obtain_date_time_features_shape dl dt wd F). Qed.

Lemma datetime_features_shape_witness :
  m_ncols {| m_family := Dense; m_ncols := 6;
             m_rows := map numeric_row
                         [{| c_day := 31; c_month := 12; c_hour := 99;
                             c_minute := 0; c_second := 59; c_weekday := 7 |}] |}
  = datetime_width false false
  /\ m_family {| m_family := Dense; m_ncols := 6;
                 m_rows := map numeric_row
                             [{| c_day := 31; c_month := 12; c_hour := 99;
                                 c_minute := 0; c_second := 59; c_weekday := 7 |}] |}
     = datetime_family false false
  /\ nrows {| m_family := Dense; m_ncols := 6;
              m_rows := map numeric_row
                          [{| c_day := 31; c_month := 12; c_hour := 99;
                              c_minute := 0; c_second := 59; c_weekday := 7 |}] |}
     = 1%nat.
Proof.
  exact (datetime_features_shape
           (lists_of [{| c_day := 31; c_month := 12; c_hour := 99;
                         c_minute := 0; c_second := 59; c_weekday := 7 |}])
           false false _ eq_refl).
Defined.

(** X6. With [datetime_onehot] set, a single date or time component
    outside its range (day 1..31, month 1..12, hour 0..23, minute and
    second 0..59) makes [obtain_date_time_features] raise [ValueError],
    with or without the one-hot weekday. *)
Theorem onehot_datetime_rejects (cs : list components) (wd : bool) :
  Exists (fun c => ~ datetime_in_range c) cs ->
  obtain_date_time_features (lists_of cs) true wd = Err ValueError.
Proof.
  intros Hex. unfold obtain_date_time_features, lists_of.
  cbn [dl_dates dl_months dl_hours dl_minutes dl_seconds dl_weekdays].
  destruct (get_one_hot (map c_day cs) 1 31) as [D|e] eqn:HD;
    [|now rewrite (get_one_hot_error _ _ _ _ HD)].
  destruct (get_one_hot (map c_month cs) 1 12) as [Mo|e] eqn:HMo;
    [|now rewrite (get_one_hot_error _ _ _ _ HMo)].
  destruct (get_one_hot (map c_hour cs) 0 23) as [H|e] eqn:HH;
    [|now rewrite (get_one_hot_error _ _ _ _ HH)].
  destruct (get_one_hot (map c_minute cs) 0 59) as [Mi|e] eqn:HMi;
    [|now rewrite (get_one_hot_error _ _ _ _ HMi)].
  destruct (get_one_hot (map c_second cs) 0 59) as [S|e] eqn:HS;
    [|now rewrite (get_one_hot_error _ _ _ _ HS)].
  exfalso.
  apply get_one_hot_shape in HD, HMo, HH, HMi, HS.
  destruct HD as (_ & _ & rD), HMo as (_ & _ & rMo), HH as (_ & _ & rH),
    HMi as (_ & _ & rMi), HS as (_ & _ & rS).
  apply Exists_exists in Hex. destruct Hex as (c & Hc & Hbad). apply Hbad.
  pose proof (proj1 (Forall_forall _ _) rD _ (in_map c_day cs c Hc)).
  pose proof (proj1 (Forall_forall _ _) rMo _ (in_map c_month cs c Hc)).
  pose proof (proj1 (Forall_forall _ _) rH _ (in_map c_hour cs c Hc)).
  pose proof (proj1 (Forall_forall _ _) rMi _ (in_map c_minute cs c Hc)).
  pose proof (proj1 (Forall_forall _ _) rS _ (in_map c_second cs c Hc)).
  unfold datetime_in_range. cbv beta in *. lia.
Qed.

Lemma onehot_datetime_rejects_witness :
  obtain_date_time_features
    (lists_of [{| c_day := 1; c_month := 1; c_hour := 24;
                  c_minute := 0; c_second := 0; c_weekday := 3 |}]) true true
  = Err ValueError.
Proof.
  apply (onehot_datetime_rejects
           [{| c_day := 1; c_month := 1; c_hour := 24;
               c_minute := 0; c_second := 0; c_weekday := 3 |}] true).
  apply Exists_cons_hd. unfold datetime_in_range. simpl. lia.
Defined.

(** ** [parse_datetime] beyond valid timestamps *)

Lemma split_format_fields (t : stamp) :
  fields_ok t -> split " " (format_stamp t) = [date_str t; time_str t].
Proof.
  intros (Hy & Hm & Hd & Hh & Hmi & Hs).
  destruct (pad4_ok _ Hy) as (_ & Hy1 & _ & _).
  destruct (pad2_ok _ Hm) as (_ & Hm1 & _ & _).
  destruct (pad2_ok _ Hd) as (_ & Hd1 & _ & _).
  destruct (pad2_ok _ Hh) as (_ & Hh1 & _ & _).
  destruct (pad2_ok _ Hmi) as (_ & Hmi1 & _ & _).
  destruct (pad2_ok _ Hs) as (_ & Hs1 & _ & _).
  unfold format_stamp. change (" " ++ time_str t)%string with (String " " (time_str t)).
  rewrite split_app_sep.
  - rewrite split_sep_free; [reflexivity|].
    unfold time_str. rewrite !sep_free_app, Hh1, Hmi1, Hs1. reflexivity.
  - unfold date_str. rewrite !sep_free_app, Hy1, Hm1, Hd1. reflexivity.
Qed.

Lemma split_date_fields (t : stamp) :
  fields_ok t ->
  split "-" (date_str t) = [pad4 (s_year t); pad2 (s_month t); pad2 (s_day t)].
Proof.
  intros (Hy & Hm & Hd & _).
  destruct (pad4_ok _ Hy) as (_ & _ & Hy1 & _).
  destruct (pad2_ok _ Hm) as (_ & _ & Hm1 & _).
  destruct (pad2_ok _ Hd) as (_ & _ & Hd1 & _).
  unfold date_str.
  change ("-" ++ ?x)%string with (String "-" x).
  rewrite (split_app_sep "-" _ _ Hy1).
  change ("-" ++ pad2 (s_day t))%string with (String "-" (pad2 (s_day t))).
  rewrite (split_app_sep "-" _ _ Hm1), (split_sep_free "-" _ Hd1).
  reflexivity.
Qed.

Lemma split_time_fields (t : stamp) :
  fields_ok t ->
  split ":" (time_str t) = [pad2 (s_hour t); pad2 (s_minute t); pad2 (s_second t)].
Proof.
  intros (_ & _ & _ & Hh & Hmi & Hs).
  destruct (pad2_ok _ Hh) as (_ & _ & _ & Hh1).
  destruct (pad2_ok _ Hmi) as (_ & _ & _ & Hmi1).
  destruct (pad2_ok _ Hs) as (_ & _ & _ & Hs1).
  unfold time_str.
  change (":" ++ ?x)%string with (String ":" x).
  rewrite (split_app_sep ":" _ _ Hh1).
  change (":" ++ pad2 (s_second t))%string with (String ":" (pad2 (s_second t))).
  rewrite (split_app_sep ":" _ _ Hmi1), (split_sep_free ":" _ Hs1).
  reflexivity.
Qed.

(** On well-shaped strings everything but the weekday step succeeds:
    what is left of [parse_datetime] is the construction of the dates. *)
Lemma parse_datetime_fields (ts : list stamp) :
  ts <> [] -> Forall fields_ok ts ->
  parse_datetime (map format_stamp ts)
  = (weekdays <- weekdays_of (map s_year ts) (map s_month ts) (map s_day ts) ;;
     Ok {| dl_dates := map s_day ts; dl_months := map s_month ts;
           dl_hours := map s_hour ts; dl_minutes := map s_minute ts;
           dl_seconds := map s_second ts; dl_weekdays := weekdays |}).
Proof.
  intros Hne Hv. pose proof (proj1 (Forall_forall _ _) Hv) as Hin.
  unfold parse_datetime.
  rewrite map_map.
  rewrite (map_ext_in _ (fun t => [date_str t; time_str t]))
    by (intros t Ht; apply split_format_fields, Hin, Ht).
  unfold unzip_two.
  rewrite (min_length_const _ 2%nat ts Hne) by reflexivity.
  rewrite Nat.eqb_refl, rbind_ok.
  rewrite !map_map. cbv beta iota.
  assert (Hd : forall t, In t ts ->
            split "-" (nth 0 [date_str t; time_str t] EmptyString)
            = [pad4 (s_year t); pad2 (s_month t); pad2 (s_day t)])
    by (intros t Ht; apply split_date_fields, Hin, Ht).
  assert (Ht : forall t, In t ts ->
            split ":" (nth 1 [date_str t; time_str t] EmptyString)
            = [pad2 (s_hour t); pad2 (s_minute t); pad2 (s_second t)])
    by (intros t Ht; apply split_time_fields, Hin, Ht).
  assert (Hf : forall t, In t ts ->
            py_int (pad4 (s_year t)) = Ok (s_year t)
            /\ py_int (pad2 (s_month t)) = Ok (s_month t)
            /\ py_int (pad2 (s_day t)) = Ok (s_day t)
            /\ py_int (pad2 (s_hour t)) = Ok (s_hour t)
            /\ py_int (pad2 (s_minute t)) = Ok (s_minute t)
            /\ py_int (pad2 (s_second t)) = Ok (s_second t)).
  { intros t Hi. apply Hin in Hi.
    destruct Hi as (Hy & Hm & Hdd & Hh & Hmi & Hs).
    exact (conj (proj1 (pad4_ok _ Hy))
             (conj (proj1 (pad2_ok _ Hm))
                (conj (proj1 (pad2_ok _ Hdd))
                   (conj (proj1 (pad2_ok _ Hh))
                      (conj (proj1 (pad2_ok _ Hmi)) (proj1 (pad2_ok _ Hs))))))). }
  assert (Hi0 : forall a b c z, py_int a = Ok z -> int_at 0 [a; b; c] = Ok z)
    by (intros a b c z Hz; exact Hz).
  assert (Hi1 : forall a b c z, py_int b = Ok z -> int_at 1 [a; b; c] = Ok z)
    by (intros a b c z Hz; exact Hz).
  assert (Hi2 : forall a b c z, py_int c = Ok z -> int_at 2 [a; b; c] = Ok z)
    by (intros a b c z Hz; exact Hz).
  rewrite (map_result_map (int_at 2) _ s_day)
    by (intros t Hi; rewrite (Hd t Hi); apply Hi2; exact (proj1 (proj2 (proj2 (Hf t Hi))))).
  rewrite rbind_ok.
  rewrite (map_result_map (int_at 1) _ s_month)
    by (intros t Hi; rewrite (Hd t Hi); apply Hi1; exact (proj1 (proj2 (Hf t Hi)))).
  rewrite rbind_ok.
  rewrite (map_result_map (int_at 0) _ s_year)
    by (intros t Hi; rewrite (Hd t Hi); apply Hi0; exact (proj1 (Hf t Hi))).
  rewrite rbind_ok.
  destruct (weekdays_of _ _ _) as [ws|e]; [|reflexivity].
  rewrite !rbind_ok.
  rewrite (map_result_map (int_at 0) _ s_hour)
    by (intros t Hi; rewrite (Ht t Hi); apply Hi0;
        exact (proj1 (proj2 (proj2 (proj2 (Hf t Hi)))))).
  rewrite rbind_ok.
  rewrite (map_result_map (int_at 1) _ s_minute)
    by (intros t Hi; rewrite (Ht t Hi); apply Hi1;
        exact (proj1 (proj2 (proj2 (proj2 (proj2 (Hf t Hi))))))).
  rewrite rbind_ok.
  rewrite (map_result_map (int_at 2) _ s_second)
    by (intros t Hi; rewrite (Ht t Hi); apply Hi2;
        exact (proj2 (proj2 (proj2 (proj2 (proj2 (Hf t Hi))))))).
  reflexivity.
Qed.

Lemma date_weekday_cases (t : stamp) :
  fields_ok t ->
  (date_ok t /\ date_weekday (s_year t) (s_month t) (s_day t) = Ok (weekday_of t - 1))
  \/ (~ date_ok t /\ date_weekday (s_year t) (s_month t) (s_day t) = Err ValueError).
Proof.
  intros (Hy & Hm & Hd & _).
  unfold date_weekday, fits_c_int, date_ok, weekday_of.
  repeat match goal with
         | |- context [?a <=? ?b] => destruct (Z.leb_spec a b)
         end; simpl; try lia;
    first [left; split; [lia | f_equal; lia] | right; split; [lia | reflexivity]].
Qed.

Lemma weekdays_of_dates (ts : list stamp) :
  Forall fields_ok ts ->
  (Forall date_ok ts ->
   weekdays_of (map s_year ts) (map s_month ts) (map s_day ts) = Ok (map weekday_of ts))
  /\ (Exists (fun t => ~ date_ok t) ts ->
      weekdays_of (map s_year ts) (map s_month ts) (map s_day ts) = Err ValueError).
Proof.
  induction 1 as [|t ts Ht _ [IHok IHbad]]; simpl.
  - split; [reflexivity | intros H; inversion H].
  - destruct (date_weekday_cases t Ht) as [[Hok ->]|[Hbad ->]].
    + split.
      * intros Hall. inversion Hall; subst. rewrite rbind_ok, IHok by assumption.
        rewrite rbind_ok. f_equal. f_equal. lia.
      * intros Hex. inversion Hex; subst; [contradiction|].
        rewrite rbind_ok, IHbad by assumption. reflexivity.
    + split; [|reflexivity].
      intros Hall. inversion Hall; subst. contradiction.
Qed.

(** X7. [parse_datetime] checks the date, not the time of day: on a
    non-empty list of strings [YYYY-MM-DD HH:MM:SS] whose dates exist in
    the calendar it returns the six component lists for any two-digit
    hour, minute and second (99:99:99 included), weekday counted from
    Monday = 1. *)
Theorem parse_datetime_time_unchecked (ts : list stamp) :
  ts <> [] -> Forall fields_ok ts -> Forall date_ok ts ->
  parse_datetime (map format_stamp ts) = Ok (lists_of (map components_of ts)).
Proof.
  intros Hne Hf Hd. rewrite (parse_datetime_fields ts Hne Hf).
  rewrite (proj1 (weekdays_of_dates ts Hf) Hd), rbind_ok.
  unfold lists_of. now rewrite !map_map.
Qed.

Lemma parse_datetime_time_unchecked_witness :
  parse_datetime ["2020-02-29 99:99:99"%string]
  = Ok {| dl_dates := [29]; dl_months := [2]; dl_hours := [99];
          dl_minutes := [99]; dl_seconds := [99]; dl_weekdays := [6] |}.
Proof.
  apply (parse_datetime_time_unchecked [stamp_of 2020 2 29 99 99 99]).
  - discriminate.
  - apply Forall_cons; [unfold fields_ok; simpl; lia | apply Forall_nil].
  - apply Forall_cons;
      [unfold date_ok, days_in_month, is_leap; simpl; lia | apply Forall_nil].
Defined.

(** X8. A well-shaped string whose date does not exist in the calendar
    (a month 13, a day 30 in February, a year 0000) makes
    [parse_datetime] raise [ValueError]: the weekday is computed from the
    date, and the date constructor rejects it. *)
Theorem parse_datetime_rejects_date (ts : list stamp) :
  Forall fields_ok ts -> Exists (fun t => ~ date_ok t) ts ->
  parse_datetime (map format_stamp ts) = Err ValueError.
Proof.
  intros Hf Hex.
  assert (Hne : ts <> []) by (intros ->; inversion Hex).
  rewrite (parse_datetime_fields ts Hne Hf).
  now rewrite (proj2 (weekdays_of_dates ts Hf) Hex).
Qed.

Lemma parse_datetime_rejects_date_witness :
  parse_datetime ["2020-01-01 00:00:00"%string; "2021-02-29 12:00:00"%string]
  = Err ValueError.
Proof.
  apply (parse_datetime_rejects_date
           [stamp_of 2020 1 1 0 0 0; stamp_of 2021 2 29 12 0 0]).
  - repeat (apply Forall_cons; [unfold fields_ok; simpl; lia|]). apply Forall_nil.
  - apply Exists_cons_tl, Exists_cons_hd.
    unfold date_ok, days_in_month, is_leap. simpl. lia.
Defined.

Lemma min_length_le {A} (ll : list (list A)) (l : list A) :
  In l ll -> (min_length ll <= length l)%nat.
Proof.
  destruct ll as [|l0 ll]; [intros []|]. simpl.
  assert (G : forall t m, (fold_left (fun m x => Nat.min m (length x)) t m <= m)%nat
                /\ (In l t -> (fold_left (fun m x => Nat.min m (length x)) t m
                               <= length l)%nat)).
  { induction t as [|x t IH]; intros m; simpl.
    - split; [lia | intros []].
    - destruct (IH (Nat.min m (length x))) as [H1 H2]. split; [lia|].
      intros [->|Hin]; [lia | now apply H2]. }
  intros [->|Hin]; [exact (proj1 (G ll (length l))) | exact (proj2 (G ll (length l0)) Hin)].
Qed.

(** X9. A single string without a space in the chunk makes
    [parse_datetime] raise [ValueError], wherever it stands: the
    unpacking into dates and times then finds one column instead of two. *)
Theorem parse_datetime_missing_space (datetime_strs : list string) (s : string) :
  In s datetime_strs -> sep_free " " s = true ->
  parse_datetime datetime_strs = Err ValueError.
Proof.
  intros Hin Hfree. unfold parse_datetime, unzip_two.
  pose proof (min_length_le (map (split " ") datetime_strs) (split " " s)
                (in_map _ _ _ Hin)) as Hle.
  rewrite (split_sep_free " " s Hfree) in Hle. simpl in Hle.
  destruct (Nat.eqb_spec (min_length (map (split " ") datetime_strs)) 2) as [E|_];
    [lia | reflexivity].
Qed.

Lemma parse_datetime_missing_space_witness :
  parse_datetime ["2020-01-01 00:10:05"%string; "2020-01-01T00:10:05"%string]
  = Err ValueError.
Proof.
  apply (parse_datetime_missing_space _ "2020-01-01T00:10:05").
  - simpl. tauto.
  - reflexivity.
Defined.

(** ** [get_naive_features]: what every returned pair satisfies *)

Lemma map_result_length {A B} (f : A -> result B) (l : list A) (bs : list B) :
  map_result f l = Ok bs -> length bs = length l.
Proof.
  revert bs. induction l as [|a l IH]; simpl; intros bs.
  - intros E. injection E as <-. reflexivity.
  - destruct (f a) as [b|]; [|discriminate]. rewrite rbind_ok.
    destruct (map_result f l) as [bs'|]; [|discriminate]. rewrite rbind_ok.
    intros E. injection E as <-. simpl. now rewrite (IH bs' eq_refl).
Qed.

Lemma map_result_Forall {A B} (f : A -> result B) (P : B -> Prop)
    (l : list A) (bs : list B) :
  (forall a b, f a = Ok b -> P b) ->
  map_result f l = Ok bs -> Forall P bs.
Proof.
  intros HP. revert bs. induction l as [|a l IH]; simpl; intros bs.
  - intros E. injection E as <-. constructor.
  - destruct (f a) as [b|] eqn:Hb; [|discriminate]. rewrite rbind_ok.
    destruct (map_result f l) as [bs'|]; [|discriminate]. rewrite rbind_ok.
    intros E. injection E as <-. constructor; [exact (HP a b Hb) | now apply IH].
Qed.

Ltac step_rbind :=
  match goal with
  | |- rbind ?x _ = _ -> _ => destruct x eqn:?; [cbn [rbind] | discriminate]
  end.

Lemma parse_datetime_dates_length (datetime_strs : list string) (dl : datetime_lists) :
  parse_datetime datetime_strs = Ok dl ->
  length (dl_dates dl) = length datetime_strs.
Proof.
  unfold parse_datetime, unzip_two.
  destruct (min_length _ =? 2)%nat; [|discriminate]. cbn [rbind].
  match goal with
  | |- rbind ?x _ = _ -> _ => destruct x as [ds|] eqn:Hds; [cbn [rbind] | discriminate]
  end.
  do 6 step_rbind.
  intros E. injection E as <-. cbn [dl_dates].
  apply map_result_length in Hds. now rewrite Hds, !length_map.
Qed.

Lemma take_rows_shape (arr : matrix) (ids : list Z) (R : matrix) :
  take_rows arr ids = Ok R ->
  nrows R = length ids /\ m_ncols R = m_ncols arr.
Proof.
  unfold take_rows.
  destruct (map_result _ ids) as [rs|] eqn:Hrs; [|discriminate].
  rewrite rbind_ok. intros E. injection E as <-.
  split; [exact (map_result_length _ _ _ Hrs) | reflexivity].
Qed.

Lemma mk_timedelta_range (days hours minutes seconds : Z) (td : timedelta) :
  mk_timedelta days hours minutes seconds = Ok td ->
  0 <= td_seconds td < 86400.
Proof.
  unfold mk_timedelta. destruct (_ >? _); [discriminate|].
  intros E. injection E as <-. cbn [td_seconds].
  apply Z.mod_pos_bound. lia.
Qed.

(** The steps of a successful call, in the order of the source. *)
Lemma get_naive_features_inv (rows : list ride_row) (coords boros : matrix)
    (maxLocID : Z) (dt wd incl nn : bool) (F : matrix) (T : list Z) :
  get_naive_features rows coords boros maxLocID dt wd incl nn = Ok (F, T) ->
  exists p PUD PUC DOC PUB DOB delta,
    parse_datetime (map pickup_datetime rows) = Ok p
    /\ obtain_date_time_features p dt wd = Ok PUD
    /\ take_rows coords (map PULocationID rows) = Ok PUC
    /\ take_rows coords (map DOLocationID rows) = Ok DOC
    /\ take_rows boros (map PULocationID rows) = Ok PUB
    /\ take_rows boros (map DOLocationID rows) = Ok DOB
    /\ (if incl then
          exists PU1 DO1,
            get_one_hot (map PULocationID rows) 1 maxLocID = Ok PU1
            /\ get_one_hot (map DOLocationID rows) 1 maxLocID = Ok DO1
            /\ hstack Sparse [PU1; PUC; PUB; DO1; DOC; DOB; PUD] = Ok F
        else if nn then
          hstack (if dt || wd then Sparse else Dense) [PUC; PUB; DOC; DOB; PUD] = Ok F
        else
          hstack (if dt || wd then Sparse else Dense) [PUD; PUC; DOC; PUB; DOB] = Ok F)
    /\ length delta = length rows
    /\ Forall (fun td => 0 <= td_seconds td < 86400) delta
    /\ T = map td_seconds delta.
Proof.
  unfold get_naive_features.
  destruct (parse_datetime (map pickup_datetime rows)) as [p|] eqn:Hp; [|discriminate].
  rewrite rbind_ok.
  destruct (parse_datetime (map dropoff_datetime rows)) as [d|]; [|discriminate].
  rewrite rbind_ok.
  destruct (obtain_date_time_features p dt wd) as [PUD|] eqn:HPUD; [|discriminate].
  rewrite rbind_ok.
  destruct (take_rows coords (map PULocationID rows)) as [PUC|] eqn:HPUC;
    [|discriminate].
  rewrite rbind_ok.
  destruct (take_rows coords (map DOLocationID rows)) as [DOC|] eqn:HDOC;
    [|discriminate].
  rewrite rbind_ok.
  destruct (take_rows boros (map PULocationID rows)) as [PUB|] eqn:HPUB;
    [|discriminate].
  rewrite rbind_ok.
  destruct (take_rows boros (map DOLocationID rows)) as [DOB|] eqn:HDOB;
    [|discriminate].
  rewrite rbind_ok.
  match goal with
  | |- rbind ?feat _ = _ -> _ => destruct feat as [F'|] eqn:HF; [|discriminate]
  end.
  rewrite rbind_ok.
  destruct (map_result _ (seq 0 (length rows))) as [delta|] eqn:Hdelta; [|discriminate].
  rewrite rbind_ok. intros E. injection E as EF ET. subst F' T.
  exists p, PUD, PUC, DOC, PUB, DOB, delta.
  do 6 (split; [first [reflexivity | assumption]|]). split.
  - destruct incl; cbv iota.
    + destruct (get_one_hot (map PULocationID rows) 1 maxLocID) as [PU1|];
        [|discriminate HF].
      rewrite rbind_ok in HF.
      destruct (get_one_hot (map DOLocationID rows) 1 maxLocID) as [DO1|];
        [|discriminate HF].
      rewrite rbind_ok in HF. exists PU1, DO1.
      split; [reflexivity|]. split; [reflexivity | exact HF].
    + destruct (dt || wd), nn; exact HF.
  - split; [|split; [|reflexivity]].
    + rewrite (map_result_length _ _ _ Hdelta). apply length_seq.
    + refine (map_result_Forall _ (fun td => 0 <= td_seconds td < 86400) _ _ _ Hdelta).
      intros i td Htd. exact (mk_timedelta_range _ _ _ _ td Htd).
Qed.

(** Height, width and family of the feature matrix. *)
Lemma get_naive_features_dimensions (rows : list ride_row) (coords boros : matrix)
    (maxLocID : Z) (dt wd incl nn : bool) (F : matrix) (T : list Z) :
  get_naive_features rows coords boros maxLocID dt wd incl nn = Ok (F, T) ->
  nrows F = length rows
  /\ length T = length rows
  /\ m_ncols F = feature_width coords boros maxLocID dt wd incl
  /\ m_family F = feature_family dt wd incl.
Proof.
  intros H. apply get_naive_features_inv in H.
  destruct H as (p & PUD & PUC & DOC & PUB & DOB & delta
                 & Hp & HPUD & HPUC & HDOC & HPUB & HDOB & HF & Hlen & _ & ->).
  apply parse_datetime_dates_length in Hp. rewrite length_map in Hp.
  apply obtain_date_time_features_shape in HPUD. destruct HPUD as (cPUD & _ & nPUD).
  apply take_rows_shape in HPUC, HDOC, HPUB, HDOB.
  destruct HPUC as (nPUC & cPUC), HDOC as (_ & cDOC), HPUB as (_ & cPUB),
    HDOB as (_ & cDOB).
  rewrite length_map in nPUC.
  unfold feature_width, feature_family.
  split; [|split; [now rewrite length_map|]].
  - destruct incl.
    + destruct HF as (PU1 & DO1 & HPU1 & _ & HF).
      apply get_one_hot_shape in HPU1. destruct HPU1 as (nPU1 & _ & _).
      apply hstack_shape in HF. destruct HF as (Hn & _).
      rewrite Hn, nPU1. apply length_map.
    + destruct nn; apply hstack_shape in HF; destruct HF as (Hn & _);
        rewrite Hn; congruence.
  - destruct incl.
    + destruct HF as (PU1 & DO1 & HPU1 & HDO1 & HF).
      apply get_one_hot_shape in HPU1, HDO1.
      destruct HPU1 as (_ & cPU1 & _), HDO1 as (_ & cDO1 & _).
      apply hstack_shape in HF. destruct HF as (_ & _ & Hc & Hf).
      unfold list_sum in Hc. cbn [map fold_right] in Hc.
      replace (maxLocID - 1 + 1) with maxLocID in * by lia.
      split; [lia | exact Hf].
    + destruct nn; apply hstack_shape in HF; destruct HF as (_ & _ & Hc & Hf);
        unfold list_sum in Hc; cbn [map fold_right] in Hc;
        (split; [lia | exact Hf]).
Qed.

(** X10. Whenever [get_naive_features] returns, the pair is consistent
    and its shape is fixed by the arguments other than the rides: one
    feature row and one target per ride; a width of two location blocks
    (when included), two coordinate blocks, two region blocks and the
    date-time block; a sparse matrix as soon as one one-hot block is
    present and a dense one otherwise. *)
Theorem get_naive_features_shape (rows : list ride_row) (coords boros : matrix)
    (maxLocID : Z) (dt wd incl nn : bool) (F : matrix) (T : list Z) :
  get_naive_features rows coords boros maxLocID dt wd incl nn = Ok (F, T) ->
  nrows F = length rows
  /\ length T = length rows
  /\ m_ncols F = feature_width coords boros maxLocID dt wd incl
  /\ m_family F = feature_family dt wd incl.
Proof. exact (get_naive_features_dimensions rows coords boros maxLocID dt wd incl nn F T). Qed.

Lemma get_naive_features_shape_witness :
  nrows {| m_family := Dense; m_ncols := 22; m_rows := [row_nn_ordering] |} = 1%nat
  /\ length [605] = 1%nat
  /\ m_ncols {| m_family := Dense; m_ncols := 22; m_rows := [row_nn_ordering] |}
     = feature_width coords_ex
         {| m_family := Dense; m_ncols := 6;
            m_rows := [repeat 0%Q 6; one_hot_row 6 4; one_hot_row 6 4] |}
         263 false false false
  /\ m_family {| m_family := Dense; m_ncols := 22; m_rows := [row_nn_ordering] |}
     = feature_family false false false.
Proof.
  exact (get_naive_features_shape [ride_row_of ride_ten_minutes] coords_ex
           {| m_family := Dense; m_ncols := 6;
              m_rows := [repeat 0%Q 6; one_hot_row 6 4; one_hot_row 6 4] |}
           263 false false false true _ _ eq_refl).
Defined.

(** The targets are seconds fields of normalised durations. *)
Lemma get_naive_features_targets (rows : list ride_row) (coords boros : matrix)
    (maxLocID : Z) (dt wd incl nn : bool) (F : matrix) (T : list Z) :
  get_naive_features rows coords boros maxLocID dt wd incl nn = Ok (F, T) ->
  Forall (fun t => 0 <= t < 86400) T.
Proof.
  intros H. apply get_naive_features_inv in H.
  destruct H as (p & PUD & PUC & DOC & PUB & DOB & delta
                 & _ & _ & _ & _ & _ & _ & _ & _ & Hrange & ->).
  apply Forall_map_iff. exact Hrange.
Qed.

(** X11. Every target that [get_naive_features] returns lies in
    [0, 86400): the travel time is never negative and never a day or
    more, whatever the two timestamps are. *)
Theorem travel_time_range (rows : list ride_row) (coords boros : matrix)
    (maxLocID : Z) (dt wd incl nn : bool) (F : matrix) (T : list Z) :
  get_naive_features rows coords boros maxLocID dt wd incl nn = Ok (F, T) ->
  Forall (fun t => 0 <= t < 86400) T.
Proof. exact (get_naive_features_targets rows coords boros maxLocID dt wd incl nn F T). Qed.

Lemma travel_time_range_witness :
  Forall (fun t => 0 <= t < 86400) [605].
Proof.
  exact (travel_time_range [ride_row_of ride_ten_minutes] coords_ex
           {| m_family := Dense; m_ncols := 6;
              m_rows := [repeat 0%Q 6; one_hot_row 6 4; one_hot_row 6 4] |}
           263 false false false true _ _ eq_refl).
Defined.

(** ** The significance filter and its composition *)

Lemma mask_select_all {A B} (p : B -> bool) (rows : list A) (values : list B) :
  length rows = length values ->
  Forall (fun v => p v = true) values ->
  mask_select (map p values) rows = rows.
Proof.
  revert values. induction rows as [|r rows IH]; intros [|v values] Hlen Hall;
    simpl in *; try discriminate; try reflexivity.
  inversion Hall as [|? ? Hv Hrest]; subst. rewrite Hv.
  f_equal. apply IH; [now injection Hlen | exact Hrest].
Qed.

Lemma filter_all {A} (p : A -> bool) (l : list A) :
  Forall (fun v => p v = true) l -> filter p l = l.
Proof.
  induction 1 as [|a l Ha _ IH]; simpl; [reflexivity|]. now rewrite Ha, IH.
Qed.

Lemma matrix_eta (F : matrix) :
  {| m_family := m_family F; m_ncols := m_ncols F; m_rows := m_rows F |} = F.
Proof. destruct F; reflexivity. Qed.

Lemma get_significant_data_all (F : matrix) (T : list Z) (c : Q) :
  nrows F = length T ->
  Forall (fun v => significant c v = true) T ->
  get_significant_data F T c = Ok (F, T).
Proof.
  intros Hlen Hall. rewrite (get_significant_data_ok F T c Hlen).
  rewrite (mask_select_all (significant c) (m_rows F) T Hlen Hall).
  now rewrite (filter_all _ _ Hall), matrix_eta.
Qed.

(** X12. A cutoff of 86399 seconds or more filters nothing out of what
    [get_naive_features] returns: the significance filter gives the pair
    back unchanged (so the default [cutoff_val=1e5] of the extraction
    functions keeps every ride). *)
Theorem cutoff_above_day_keeps_all (rows : list ride_row) (coords boros : matrix)
    (maxLocID : Z) (dt wd incl nn : bool) (F : matrix) (T : list Z) (c : Q) :
  get_naive_features rows coords boros maxLocID dt wd incl nn = Ok (F, T) ->
  (86399 <= c)%Q ->
  get_significant_data F T c = Ok (F, T).
Proof.
  intros H Hc.
  destruct (get_naive_features_dimensions _ _ _ _ _ _ _ _ _ _ H) as (nF & nT & _).
  pose proof (get_naive_features_targets _ _ _ _ _ _ _ _ _ _ H) as Hr.
  apply get_significant_data_all; [congruence|].
  revert Hr. apply Forall_impl. intros t Ht.
  unfold significant. apply Qle_bool_iff.
  apply Qle_trans with (y := inject_Z 86399); [|exact Hc].
  rewrite <- Zle_Qle. lia.
Qed.

Lemma cutoff_above_day_keeps_all_witness :
  get_significant_data
    {| m_family := Dense; m_ncols := 22; m_rows := [row_nn_ordering] |}
    [605] 100000%Q
  = Ok ({| m_family := Dense; m_ncols := 22; m_rows := [row_nn_ordering] |}, [605]).
Proof.
  apply (cutoff_above_day_keeps_all [ride_row_of ride_ten_minutes] coords_ex
           {| m_family := Dense; m_ncols := 6;
              m_rows := [repeat 0%Q 6; one_hot_row 6 4; one_hot_row 6 4] |}
           263 false false false true).
  - reflexivity.
  - unfold Qle. simpl. lia.
Defined.

Lemma get_significant_data_lengths (F : matrix) (T : list Z) (c : Q)
    (F' : matrix) (T' : list Z) :
  get_significant_data F T c = Ok (F', T') -> nrows F = length T.
Proof.
  unfold get_significant_data.
  destruct (Nat.eqb_spec (length (map (fun v => Qle_bool (inject_Z v) c) T))
              (nrows (if match m_family F with Dense => false | Sparse => true end
                      then toarray F else F))) as [E|E]; [|discriminate].
  intros _. rewrite length_map in E.
  destruct (m_family F); unfold nrows, toarray in *; simpl in *; congruence.
Qed.

(** A filtered pair passes the filter unchanged. *)
Lemma get_significant_data_again (F : matrix) (T : list Z) (c : Q)
    (F' : matrix) (T' : list Z) :
  get_significant_data F T c = Ok (F', T') ->
  get_significant_data F' T' c = Ok (F', T').
Proof.
  intros H. pose proof (get_significant_data_lengths _ _ _ _ _ H) as Hlen.
  rewrite (get_significant_data_ok F T c Hlen) in H. injection H as <- <-.
  apply get_significant_data_all.
  - unfold nrows. cbn [m_rows].
    rewrite <- (mask_select_map (significant c) T).
    exact (mask_select_length (significant c) (m_rows F) T Hlen).
  - apply Forall_forall. intros v Hv. apply filter_In in Hv. tauto.
Qed.

(** X13. The significance filter is idempotent: applying it again with
    the same cutoff to what it returned gives the same pair. *)
Theorem get_significant_data_idempotent (F : matrix) (T : list Z) (c : Q)
    (F' : matrix) (T' : list Z) :
  get_significant_data F T c = Ok (F', T') ->
  get_significant_data F' T' c = Ok (F', T').
Proof. exact (get_significant_data_again F T c F' T'). Qed.

Lemma get_significant_data_idempotent_witness :
  get_significant_data
    {| m_family := Sparse; m_ncols := 1; m_rows := [[2]; [3]]%Q |} [20; 600] 600%Q
  = Ok ({| m_family := Sparse; m_ncols := 1; m_rows := [[2]; [3]]%Q |}, [20; 600]).
Proof.
  exact (get_significant_data_idempotent
           {| m_family := Sparse; m_ncols := 1; m_rows := [[1]; [2]; [3]]%Q |}
           [700; 20; 600] 600%Q _ _ eq_refl).
Defined.

Lemma mask_select_app {A} (m1 m2 : list bool) (l1 l2 : list A) :
  length m1 = length l1 ->
  mask_select (m1 ++ m2) (l1 ++ l2) = mask_select m1 l1 ++ mask_select m2 l2.
Proof.
  revert l1. induction m1 as [|b m1 IH]; intros [|a l1] Hlen; simpl in *;
    try discriminate; [reflexivity|].
  injection Hlen as Hlen. destruct b; simpl; now rewrite IH.
Qed.

(** X14. Filtering two chunks and appending the results (what the
    exhaustive scan does page by page) gives the same pair as appending
    the chunks and filtering once (what the block-shuffled variant does
    per batch), for chunks of the same width whose features and targets
    have matching lengths. *)
Theorem filter_append_commute (A B : matrix) (Ta Tb : list Z) (c : Q) :
  nrows A = length Ta -> nrows B = length Tb -> m_ncols A = m_ncols B ->
  ('(A', Ta') <- get_significant_data A Ta c ;;
   '(B', Tb') <- get_significant_data B Tb c ;;
   F <- append_rows A' B' ;;
   Ok (F, Ta' ++ Tb'))
  = (F <- append_rows A B ;; get_significant_data F (Ta ++ Tb) c).
Proof.
  intros Ha Hb Hc.
  rewrite (get_significant_data_ok A Ta c Ha), (get_significant_data_ok B Tb c Hb).
  cbn [rbind].
  assert (Hcc : (m_ncols A =? m_ncols B)%nat = true) by now apply Nat.eqb_eq.
  assert (Happ : forall fam,
            get_significant_data
              {| m_family := fam; m_ncols := m_ncols A; m_rows := m_rows A ++ m_rows B |}
              (Ta ++ Tb) c
            = Ok ({| m_family := fam; m_ncols := m_ncols A;
                     m_rows := mask_select (map (significant c) Ta) (m_rows A)
                               ++ mask_select (map (significant c) Tb) (m_rows B) |},
                  filter (significant c) Ta ++ filter (significant c) Tb)).
  { intros fam. rewrite get_significant_data_ok.
    - cbn [m_family m_ncols m_rows].
      rewrite map_app, mask_select_app, filter_app; [reflexivity|].
      rewrite length_map. exact (eq_sym Ha).
    - unfold nrows in *. cbn [m_rows]. rewrite !length_app. congruence. }
  unfold append_rows, vstack2. cbn [m_family m_ncols m_rows]. rewrite Hcc.
  destruct (m_family A), (m_family B); cbn [rbind]; now rewrite Happ.
Qed.

Lemma filter_append_commute_witness :
  ('(A', Ta') <- get_significant_data
                   {| m_family := Sparse; m_ncols := 1; m_rows := [[1]; [2]]%Q |}
                   [700; 20] 600%Q ;;
   '(B', Tb') <- get_significant_data
                   {| m_family := Dense; m_ncols := 1; m_rows := [[3]]%Q |}
                   [600] 600%Q ;;
   F <- append_rows A' B' ;;
   Ok (F, Ta' ++ Tb'))
  = Ok ({| m_family := Sparse; m_ncols := 1; m_rows := [[2]; [3]]%Q |}, [20; 600]).
Proof.
  exact (filter_append_commute
           {| m_family := Sparse; m_ncols := 1; m_rows := [[1]; [2]]%Q |}
           {| m_family := Dense; m_ncols := 1; m_rows := [[3]]%Q |}
           [700; 20] [600] 600%Q eq_refl eq_refl eq_refl).
Defined.

(** ** Reference loaders: bounds of the identifiers *)

Lemma py_setitem_out_of_range {A} (l : list A) (i : Z) (v : A) :
  i < - Z.of_nat (length l) \/ Z.of_nat (length l) <= i ->
  py_setitem l i v = Err IndexError.
Proof.
  intros Hi. unfold py_setitem.
  destruct (Z.ltb_spec i 0);
    match goal with
    | |- context [(0 <=? ?j) && (?j <? ?n)] =>
        destruct (Z.leb_spec 0 j); [destruct (Z.ltb_spec j n)|]; simpl;
          try reflexivity; lia
    end.
Qed.

Lemma place_coords_out_of_range (rows : list (Z * Q * Q)) (coords : list (list Q)) :
  Exists (fun r => fst (fst r) <= - Z.of_nat (length coords)
                   \/ Z.of_nat (length coords) < fst (fst r)) rows ->
  place_coords rows coords = Err IndexError.
Proof.
  revert coords. induction rows as [|[[id lat] long] rows IH]; intros coords Hex; simpl.
  - inversion Hex.
  - destruct (py_setitem_cases coords (id - 1) [lat; long])
      as [->|(k & Hk & Hki & ->)]; [reflexivity|].
    rewrite rbind_ok. apply IH. rewrite set_nth_length.
    inversion Hex as [? ? Hbad|? ? Hrest]; subst; [|exact Hrest].
    simpl in Hbad. exfalso. lia.
Qed.

(** X15. The coordinates array has one row per fetched triple: a
    [LocationID] above their number [n], or at most [-n], makes
    [extract_all_coordinates] raise [IndexError], with or without
    normalisation. *)
Theorem coordinates_out_of_bounds (rows : list (Z * Q * Q)) (normalized : bool) :
  Exists (fun r => fst (fst r) <= - Z.of_nat (length rows)
                   \/ Z.of_nat (length rows) < fst (fst r)) rows ->
  coordinates_array rows normalized = Err IndexError.
Proof.
  intros Hex. unfold coordinates_array.
  rewrite place_coords_out_of_range; [reflexivity|].
  now rewrite repeat_length.
Qed.

Lemma coordinates_out_of_bounds_witness :
  coordinates_array [(1, 2%Q, 3%Q); (264, 4%Q, 7%Q)] true = Err IndexError.
Proof.
  apply (coordinates_out_of_bounds [(1, 2%Q, 3%Q); (264, 4%Q, 7%Q)] true).
  apply Exists_cons_tl, Exists_cons_hd. simpl. lia.
Defined.

Lemma place_coords_app (r1 r2 : list (Z * Q * Q)) (coords : list (list Q)) :
  place_coords (r1 ++ r2) coords = (c <- place_coords r1 coords ;; place_coords r2 c).
Proof.
  revert coords. induction r1 as [|[[id lat] long] r1 IH]; intros coords; simpl.
  - reflexivity.
  - destruct (py_setitem coords (id - 1) [lat; long]) as [c|]; [|reflexivity].
    rewrite !rbind_ok. apply IH.
Qed.

Lemma py_setitem_in_bounds {A} (l : list A) (i : Z) (v : A) :
  - Z.of_nat (length l) <= i < Z.of_nat (length l) ->
  py_setitem l i v
  = Ok (set_nth l (Z.to_nat (if i <? 0 then i + Z.of_nat (length l) else i)) v).
Proof.
  intros Hi. unfold py_setitem.
  destruct (Z.ltb_spec i 0);
    match goal with
    | |- context [(0 <=? ?j) && (?j <? ?n)] =>
        destruct (Z.leb_spec 0 j); [destruct (Z.ltb_spec j n)|]; simpl;
          try reflexivity; lia
    end.
Qed.

Lemma place_coords_in_bounds (rows : list (Z * Q * Q)) (coords : list (list Q)) :
  Forall (fun r => - Z.of_nat (length coords) < fst (fst r) <= Z.of_nat (length coords))
    rows ->
  exists c, place_coords rows coords = Ok c /\ length c = length coords.
Proof.
  revert coords. induction rows as [|[[id lat] long] rows IH]; intros coords H; simpl.
  - now exists coords.
  - inversion H as [|? ? Hid Hrest]; subst. simpl in Hid.
    rewrite py_setitem_in_bounds by lia. rewrite rbind_ok.
    match goal with
    | |- context [place_coords rows ?c0] =>
        destruct (IH c0) as (c & -> & Hlen);
          [now rewrite set_nth_length
          | exists c; split; [reflexivity | now rewrite Hlen, set_nth_length]]
    end.
Qed.

(** X16. A [LocationID] between [-(n - 1)] and 0 does not fail: Python's
    negative indexing makes it count from the end of the array.  When the
    last fetched triple carries such an identifier, its coordinates end
    up at index [n + LocationID] of the returned array (identifier 0 at
    the last row), the row of another location. *)
Theorem coordinates_wrap_around (pre : list (Z * Q * Q)) (id : Z) (lat long : Q) :
  let rows := pre ++ [(id, lat, long)] in
  let n := Z.of_nat (length rows) in
  - n < id <= 0 ->
  Forall (fun r => - n < fst (fst r) <= n) pre ->
  exists C,
    coordinates_array rows false = Ok C
    /\ nrows C = S (length rows)
    /\ nth (Z.to_nat (n + id)) (m_rows C) [] = [lat; long].
Proof.
  intros rows n Hid Hpre. unfold coordinates_array.
  unfold rows at 1. rewrite place_coords_app.
  destruct (place_coords_in_bounds pre (repeat [0%Q; 0%Q] (length rows)))
    as (c & -> & Hlen).
  { rewrite repeat_length. exact Hpre. }
  rewrite repeat_length in Hlen. rewrite rbind_ok. cbn [place_coords].
  rewrite py_setitem_in_bounds by (rewrite Hlen; fold n; lia).
  rewrite !rbind_ok. eexists. split; [reflexivity|].
  unfold nrows. cbn [m_rows length]. rewrite set_nth_length, Hlen.
  split; [reflexivity|].
  destruct (Z.ltb_spec (id - 1) 0) as [_|?]; [|lia].
  fold n. replace (Z.to_nat (n + id)) with (S (Z.to_nat (id - 1 + n))) by lia.
  cbn [nth]. rewrite set_nth_nth by (rewrite Hlen; fold n; lia).
  now rewrite Nat.eqb_refl.
Qed.

Lemma coordinates_wrap_around_witness :
  exists C,
    coordinates_array [(1, 2%Q, 3%Q); (2, 4%Q, 7%Q); (0, 9%Q, 9%Q)] false = Ok C
    /\ nrows C = 4%nat
    /\ nth 3 (m_rows C) [] = [9%Q; 9%Q].
Proof.
  apply (coordinates_wrap_around [(1, 2%Q, 3%Q); (2, 4%Q, 7%Q)] 0 9%Q 9%Q).
  - simpl. lia.
  - repeat (apply Forall_cons; [simpl; lia|]). apply Forall_nil.
Defined.

(** ** Reference loaders: the regions array when every location is named *)

Lemma place_boroughs_spec (BOROUGHS : list (string * Z)) (rows : list (Z * string))
    (boroughs : list Z) :
  (forall i name, In (i, name) rows -> is_known BOROUGHS name = true ->
     1 <= i <= Z.of_nat (length boroughs)) ->
  exists b,
    place_boroughs BOROUGHS rows boroughs = Ok b
    /\ length b = length boroughs
    /\ forall k, (k < length boroughs)%nat ->
         nth k b 0 = match last_code BOROUGHS rows (Z.of_nat k + 1) with
                     | Some c => c
                     | None => nth k boroughs 0
                     end.
Proof.
  revert boroughs. induction rows as [|[i name] rows IH]; intros boroughs H; simpl.
  - exists boroughs. repeat split.
  - assert (Hrest : forall b' : list Z, length b' = length boroughs ->
              forall i' name', In (i', name') rows ->
                is_known BOROUGHS name' = true -> 1 <= i' <= Z.of_nat (length b')).
    { intros b' Hb' i' name' Hin Hk. rewrite Hb'. apply (H i' name'); [now right|exact Hk]. }
    assert (Hlast : forall k,
              last_code BOROUGHS ((i, name) :: rows) (Z.of_nat k + 1)
              = match last_code BOROUGHS rows (Z.of_nat k + 1) with
                | Some c => Some c
                | None => if (i =? Z.of_nat k + 1) && is_known BOROUGHS name
                          then dict_get BOROUGHS name else None
                end).
    { intros k. unfold last_code. simpl. rewrite find_app.
      destruct (find _ (rev rows)) as [[i0 name0]|] eqn:Hfind.
      - apply find_some in Hfind. destruct Hfind as [_ Hp]. simpl in Hp.
        apply andb_prop in Hp. destruct Hp as [_ Hp]. unfold is_known in Hp.
        destruct (dict_get BOROUGHS name0); [reflexivity|discriminate].
      - simpl. destruct ((i =? Z.of_nat k + 1) && is_known BOROUGHS name);
          reflexivity. }
    destruct (dict_get BOROUGHS name) as [code|] eqn:E.
    + assert (Hi : 1 <= i <= Z.of_nat (length boroughs)).
      { apply (H i name); [now left|]. unfold is_known. now rewrite E. }
      rewrite py_setitem_in_range by lia. rewrite rbind_ok.
      destruct (IH (set_nth boroughs (Z.to_nat (i - 1)) code)) as (b & -> & Hlen & Hnth).
      { apply Hrest. apply set_nth_length. }
      rewrite set_nth_length in Hlen, Hnth.
      exists b. split; [reflexivity|]. split; [exact Hlen|].
      intros k Hk. rewrite (Hnth k Hk), Hlast.
      destruct (last_code BOROUGHS rows (Z.of_nat k + 1)); [reflexivity|].
      rewrite set_nth_nth by lia. unfold is_known. rewrite E.
      destruct (Z.eqb_spec i (Z.of_nat k + 1)) as [Ei|Ei];
        destruct (Nat.eqb_spec k (Z.to_nat (i - 1))) as [Ek|Ek];
        simpl; try reflexivity; lia.
    + destruct (IH boroughs) as (b & -> & Hlen & Hnth).
      { apply Hrest. reflexivity. }
      exists b. split; [reflexivity|]. split; [exact Hlen|].
      intros k Hk. rewrite (Hnth k Hk), Hlast.
      destruct (last_code BOROUGHS rows (Z.of_nat k + 1)); [reflexivity|].
      unfold is_known. rewrite E. now rewrite andb_false_r.
Qed.

Lemma get_one_hot_values (values : list Z) (min_val max_val : Z) :
  min_val <= max_val + 1 ->
  Forall (fun v => min_val <= v <= max_val) values ->
  get_one_hot values min_val max_val =
  Ok {| m_family := Sparse;
        m_ncols := Z.to_nat (max_val - min_val + 1);
        m_rows := map (fun v => one_hot_row (Z.to_nat (max_val - min_val + 1))
                                  (Z.to_nat (v - min_val))) values |}.
Proof.
  intros Hw Hin.
  replace (get_one_hot values min_val max_val)
    with (get_one_hot (map (fun v => v) values) min_val max_val)
    by now rewrite map_id.
  apply (get_one_hot_map (fun v => v) values min_val max_val Hw).
  exact (proj1 (Forall_forall _ _) Hin).
Qed.

(** X17. When every row with a known region name has its [LocationID]
    in 1..maxLocID and every location in 1..maxLocID has such a row with
    a code in 1..6, [extract_all_boroughs] returns an array of
    maxLocID + 1 rows and six columns: row 0 is zero and row [i] has its
    single 1 at the column of the code of the last known row fetched
    for [i]. *)
Theorem boroughs_array_lookup (BOROUGHS : list (string * Z))
    (rows : list (Z * string)) (maxLocID : Z) :
  0 <= maxLocID ->
  (forall i name, In (i, name) rows -> is_known BOROUGHS name = true ->
     1 <= i <= maxLocID) ->
  (forall i, 1 <= i <= maxLocID ->
     exists c, last_code BOROUGHS rows i = Some c /\ 1 <= c <= 6) ->
  exists R,
    boroughs_array BOROUGHS rows maxLocID = Ok R
    /\ nrows R = S (Z.to_nat maxLocID)
    /\ m_ncols R = 6%nat
    /\ nth 0 (m_rows R) [] = repeat 0%Q 6
    /\ forall i c, 1 <= i <= maxLocID -> last_code BOROUGHS rows i = Some c ->
         hot_at 6 (c - 1) (nth (Z.to_nat i) (m_rows R) []).
Proof.
  intros Hmax Hids Hcodes. unfold boroughs_array.
  destruct (Z.ltb_spec maxLocID 0) as [?|_]; [lia|].
  destruct (place_boroughs_spec BOROUGHS rows (repeat 0 (Z.to_nat maxLocID)))
    as (b & -> & Hlen & Hnth).
  { rewrite repeat_length. intros i name Hin Hk.
    specialize (Hids i name Hin Hk). lia. }
  rewrite repeat_length in Hlen, Hnth. rewrite rbind_ok.
  assert (Hb : forall k, (k < Z.to_nat maxLocID)%nat ->
            exists c, last_code BOROUGHS rows (Z.of_nat k + 1) = Some c
                      /\ 1 <= c <= 6 /\ nth k b 0 = c).
  { intros k Hk. destruct (Hcodes (Z.of_nat k + 1)) as (c & Hc & Hr); [lia|].
    exists c. split; [exact Hc|]. split; [exact Hr|].
    now rewrite (Hnth k Hk), Hc. }
  rewrite get_one_hot_values; [|lia|].
  - rewrite rbind_ok. eexists. split; [reflexivity|].
    unfold nrows. cbn [m_rows m_ncols length]. rewrite length_map, Hlen.
    split; [reflexivity|]. split; [reflexivity|]. split; [reflexivity|].
    intros i c Hi Hc.
    replace (Z.to_nat i) with (S (Z.to_nat (i - 1))) by lia. cbn [nth].
    destruct (Hb (Z.to_nat (i - 1))) as (c' & Hc' & Hr & Hv); [lia|].
    replace (Z.of_nat (Z.to_nat (i - 1)) + 1) with i in Hc' by lia.
    assert (Hcc : c' = c) by congruence.
    rewrite (nth_indep _ [] (one_hot_row (Z.to_nat (6 - 1 + 1)) (Z.to_nat (0 - 1))))
      by (rewrite length_map, Hlen; lia).
    rewrite (map_nth (fun v => one_hot_row (Z.to_nat (6 - 1 + 1)) (Z.to_nat (v - 1)))).
    rewrite Hv, Hcc. rewrite Hcc in Hr.
    apply (one_hot_row_hot_at 6 (c - 1)). simpl. lia.
  - apply Forall_forall. intros v Hv.
    destruct (In_nth _ _ 0 Hv) as (k & Hk & <-).
    destruct (Hb k) as (c & _ & Hr & ->); [lia|]. exact Hr.
Qed.

Lemma boroughs_array_lookup_witness :
  exists R,
    boroughs_array boroughs_ex
      [(1, "Queens"%string); (3, "Unknown"%string); (2, "Bronx"%string);
       (1, "Manhattan"%string)] 2 = Ok R
    /\ nrows R = 3%nat
    /\ m_ncols R = 6%nat
    /\ nth 0 (m_rows R) [] = repeat 0%Q 6
    /\ forall i c, 1 <= i <= 2 ->
         last_code boroughs_ex
           [(1, "Queens"%string); (3, "Unknown"%string); (2, "Bronx"%string);
            (1, "Manhattan"%string)] i = Some c ->
         hot_at 6 (c - 1) (nth (Z.to_nat i) (m_rows R) []).
Proof.
  apply (boroughs_array_lookup boroughs_ex
           [(1, "Queens"%string); (3, "Unknown"%string); (2, "Bronx"%string);
            (1, "Manhattan"%string)] 2).
  - lia.
  - intros i name [H|[H|[H|[H|[]]]]] Hk; inversion H; subst;
      try lia; discriminate Hk.
  - intros i Hi.
    assert (Hcases : i = 1 \/ i = 2) by lia.
    destruct Hcases as [-> | ->]; eexists; (split; [reflexivity | lia]).
Defined.

(** ** The exhaustive scan: what it returns and what it asks *)

Lemma get_significant_data_consistent (F : matrix) (T : list Z) (c : Q)
    (fo : matrix * list Z) :
  get_significant_data F T c = Ok fo -> consistent c fo.
Proof.
  destruct fo as [F' T']. intros H.
  pose proof (get_significant_data_lengths _ _ _ _ _ H) as Hlen.
  rewrite (get_significant_data_ok F T c Hlen) in H. injection H as <- <-.
  unfold consistent, nrows. cbn [fst snd m_rows]. split.
  - rewrite <- (mask_select_map (significant c) T).
    exact (mask_select_length (significant c) (m_rows F) T Hlen).
  - apply Forall_forall. intros v Hv. apply filter_In in Hv.
    destruct Hv as [_ Hv]. now apply Qle_bool_iff.
Qed.

Lemma append_rows_consistent (c : Q) (A B F : matrix) (Ta Tb : list Z) :
  consistent c (A, Ta) -> consistent c (B, Tb) ->
  append_rows A B = Ok F ->
  consistent c (F, Ta ++ Tb).
Proof.
  unfold consistent, nrows. cbn [fst snd]. intros [Ha HTa] [Hb HTb] HF.
  assert (Hrows : m_rows F = m_rows A ++ m_rows B).
  { unfold append_rows, vstack2 in HF.
    destruct (m_family A), (m_family B), (m_ncols A =? m_ncols B)%nat;
      try discriminate HF; injection HF as <-; reflexivity. }
  rewrite Hrows, !length_app, Ha, Hb. split; [reflexivity|].
  apply Forall_app. split; assumption.
Qed.

Lemma all_pages_consistent (conn : connection) (table_name : string) (o : options)
    (coords boros : matrix) (remaining : nat) :
  forall (offset : Z) (acc : option (matrix * list Z)) (log log' : list event)
         (fo : matrix * list Z),
    (forall a, acc = Some a -> consistent (cutoff_val o) a) ->
    all_pages conn table_name o coords boros remaining offset acc log
    = (Ok (Some fo), log') ->
    consistent (cutoff_val o) fo.
Proof.
  induction remaining as [|remaining IH]; intros offset acc log log' fo Hacc; cbn [all_pages].
  - unfold mret. intros E. injection E as E _. exact (Hacc fo E).
  - unfold mbind, attempt_query.
    destruct (q_rides conn log (all_command table_name o offset)) as [rows|e].
    + destruct rows as [|row rows].
      * apply IH. exact Hacc.
      * destruct acc as [[features outputs]|]; unfold lift.
        -- destruct (transform o coords boros (row :: rows) false)
             as [[fs os]|]; [|discriminate].
           rewrite rbind_ok.
           destruct (get_significant_data fs os (cutoff_val o))
             as [[fs' os']|] eqn:Hgsd; [|discriminate].
           rewrite rbind_ok.
           destruct (append_rows features fs') as [F|] eqn:HF; [|discriminate].
           rewrite rbind_ok. apply IH. intros a Ha. injection Ha as <-.
           apply (append_rows_consistent _ features fs' F outputs os');
             [exact (Hacc _ eq_refl)
             | exact (get_significant_data_consistent _ _ _ _ Hgsd)
             | exact HF].
        -- destruct (transform o coords boros (row :: rows) (use_nn_ordering o))
             as [[fs os]|]; [|discriminate].
           rewrite rbind_ok.
           destruct (get_significant_data fs os (cutoff_val o))
             as [fo1|] eqn:Hgsd; [|discriminate].
           apply IH. intros a Ha. injection Ha as <-.
           exact (get_significant_data_consistent _ _ _ _ Hgsd).
    + unfold mret. intros E. injection E as E _. exact (Hacc fo E).
Qed.

(** The pair returned by the exhaustive scan. *)
Lemma extract_all_features_ok (BOROUGHS : list (string * Z))
    (conn : connection) (table_name coords_table_name boros_table_name : string)
    (o : options) (log log' : list event) (F : matrix) (T : list Z) :
  extract_all_features BOROUGHS conn table_name coords_table_name boros_table_name
    o log = (Ok (F, T), log') ->
  nrows F = length T /\ Forall (fun v => (inject_Z v <= cutoff_val o)%Q) T.
Proof.
  unfold extract_all_features, mbind, lift.
  destruct (check_super_boros o); [|discriminate].
  destruct (extract_all_coordinates conn coords_table_name true log)
    as [[coords|] log1]; [|discriminate].
  destruct (extract_all_boroughs BOROUGHS conn boros_table_name 263 log1)
    as [[boros|] log2]; [|discriminate].
  destruct (count_rows conn table_name log2) as [[NUM_ROWS|] log3]; [|discriminate].
  destruct (all_pages conn table_name o coords boros (page_count NUM_ROWS) 0 None log3)
    as [[acc|] log4] eqn:Hpages; [|discriminate].
  destruct acc as [fo|]; [|discriminate]. cbn [return_bound].
  intros E. injection E as -> _.
  assert (Hnone : forall p, @None (matrix * list Z) = Some p ->
                    consistent (cutoff_val o) p) by (intros p Hp; discriminate Hp).
  exact (all_pages_consistent _ _ _ _ _ _ _ _ _ _ _ Hnone Hpages).
Qed.

(** X18. Whatever the database answers, a pair that
    [extract_all_features] returns is consistent: the feature matrix has
    one row per target, and every target is at most the cutoff. *)
Theorem extract_all_features_consistent (BOROUGHS : list (string * Z))
    (conn : connection) (table_name coords_table_name boros_table_name : string)
    (o : options) (log log' : list event) (F : matrix) (T : list Z) :
  extract_all_features BOROUGHS conn table_name coords_table_name boros_table_name
    o log = (Ok (F, T), log') ->
  nrows F = length T /\ Forall (fun v => (inject_Z v <= cutoff_val o)%Q) T.
Proof. exact (extract_all_features_ok BOROUGHS conn table_name coords_table_name boros_table_name o log log' F T). Qed.

Lemma extract_all_features_consistent_witness :
  nrows {| m_family := Dense; m_ncols := 22;
           m_rows := [row_nn_ordering; row_default_ordering] |}
  = length [605; 605]
  /\ Forall (fun v => (inject_Z v <= cutoff_val opts_nn)%Q) [605; 605].
Proof.
  apply (extract_all_features_consistent boroughs_ex
           (conn_one_ride_per_page 1000001) "rides" "coordinates" "locations"
           opts_nn []
           (snd (extract_all_features boroughs_ex (conn_one_ride_per_page 1000001)
                   "rides" "coordinates" "locations" opts_nn []))).
  vm_compute. reflexivity.
Defined.

Lemma page_command_first (table_name : string) (o : options) (offset : Z) :
  page_command table_name o offset 0 = all_command table_name o offset.
Proof. unfold page_command. f_equal. cbn [Z.of_nat]. lia. Qed.

Lemma page_command_shift (table_name : string) (o : options) (offset : Z) (i : nat) :
  page_command table_name o offset (S i)
  = page_command table_name o (offset + limit) i.
Proof. unfold page_command. f_equal. lia. Qed.

Lemma page_queries_shift (table_name : string) (o : options) (offset : Z) (k : nat) :
  page_queries table_name o offset (S k)
  = EvQuery (all_command table_name o offset)
    :: page_queries table_name o (offset + limit) k.
Proof.
  unfold page_queries. cbn [seq map]. rewrite page_command_first. f_equal.
  rewrite <- seq_shift, map_map. apply map_ext. intros i.
  now rewrite page_command_shift.
Qed.

Lemma page_answered_first (conn : connection) (table_name : string) (o : options)
    (offset : Z) (log : list event) :
  page_answered conn table_name o offset log 0
  = is_ok (q_rides conn log (all_command table_name o offset)).
Proof.
  unfold page_answered, page_queries. cbn [seq map].
  now rewrite app_nil_r, page_command_first.
Qed.

Lemma page_answered_shift (conn : connection) (table_name : string) (o : options)
    (offset : Z) (log : list event) (i : nat) :
  page_answered conn table_name o offset log (S i)
  = page_answered conn table_name o (offset + limit)
      (log ++ [EvQuery (all_command table_name o offset)]) i.
Proof.
  unfold page_answered.
  now rewrite page_queries_shift, page_command_shift, <- app_assoc.
Qed.

(** The queries of the loop, from any pass on. *)
Lemma all_pages_log (conn : connection) (table_name : string) (o : options)
    (coords boros : matrix) (remaining : nat) :
  forall (offset : Z) (acc : option (matrix * list Z)) (log log' : list event)
         (r : result (option (matrix * list Z))),
    all_pages conn table_name o coords boros remaining offset acc log = (r, log') ->
    exists k,
      (k <= remaining)%nat
      /\ log' = log ++ page_queries table_name o offset k
      /\ (forall i, (S i < k)%nat ->
            page_answered conn table_name o offset log i = true)
      /\ ((k < remaining)%nat ->
          exists j, k = S j
            /\ (page_answered conn table_name o offset log j = false
                \/ is_ok r = false)).
Proof.
  induction remaining as [|remaining IH]; intros offset acc log log' r; cbn [all_pages].
  - unfold mret. intros E. injection E as _ <-. exists O.
    split; [lia|]. split; [now rewrite app_nil_r|]. split; intros; lia.
  - assert (Hstep : is_ok (q_rides conn log (all_command table_name o offset)) = true ->
              forall acc',
                all_pages conn table_name o coords boros remaining (offset + limit) acc'
                  (log ++ [EvQuery (all_command table_name o offset)]) = (r, log') ->
                exists k,
                  (k <= S remaining)%nat
                  /\ log' = log ++ page_queries table_name o offset k
                  /\ (forall i, (S i < k)%nat ->
                        page_answered conn table_name o offset log i = true)
                  /\ ((k < S remaining)%nat ->
                      exists j, k = S j
                        /\ (page_answered conn table_name o offset log j = false
                            \/ is_ok r = false))).
    { intros Hq acc' H. apply IH in H.
      destruct H as (k & Hk & -> & Hbefore & Hlast).
      exists (S k). split; [lia|]. split.
      - now rewrite page_queries_shift, <- app_assoc.
      - split.
        + intros [|i] Hi.
          * now rewrite page_answered_first.
          * rewrite page_answered_shift. apply Hbefore. lia.
        + intros Hlt. destruct (Hlast ltac:(lia)) as (j & -> & Hj).
          exists (S j). split; [reflexivity|].
          now rewrite page_answered_shift. }
    assert (Hstop : is_ok (q_rides conn log (all_command table_name o offset)) = false
                    \/ is_ok r = false ->
              log' = log ++ [EvQuery (all_command table_name o offset)] ->
              exists k,
                (k <= S remaining)%nat
                /\ log' = log ++ page_queries table_name o offset k
                /\ (forall i, (S i < k)%nat ->
                      page_answered conn table_name o offset log i = true)
                /\ ((k < S remaining)%nat ->
                    exists j, k = S j
                      /\ (page_answered conn table_name o offset log j = false
                          \/ is_ok r = false))).
    { intros Hwhy ->. exists 1%nat. split; [lia|]. split.
      - unfold page_queries. cbn [seq map]. now rewrite page_command_first.
      - split; [intros i Hi; lia|].
        intros _. exists O. split; [reflexivity|].
        now rewrite page_answered_first. }
    unfold mbind, attempt_query.
    destruct (q_rides conn log (all_command table_name o offset)) as [rows|e].
    + destruct rows as [|row rows]; [apply Hstep; reflexivity|].
      destruct acc as [[features outputs]|]; unfold lift.
      * match goal with
        | |- (match ?x with _ => _ end) = _ -> _ => destruct x as [fo|e]
        end; [apply Hstep; reflexivity|].
        intros E. injection E as <- <-. apply Hstop; [now right | reflexivity].
      * match goal with
        | |- (match ?x with _ => _ end) = _ -> _ => destruct x as [fo|e]
        end; [apply Hstep; reflexivity|].
        intros E. injection E as <- <-. apply Hstop; [now right | reflexivity].
    + unfold mret. intros E. injection E as _ <-.
      apply Hstop; [now left | reflexivity].
Qed.

(** X19. The loop of the exhaustive scan sends its page queries in order,
    at the offsets 0, 1000000, 2000000, ..., one per pass, each at an
    offset below the row count and none twice; every page before the
    last one sent was answered; and the loop sends fewer pages than the
    row count requires only when the query of the last page sent failed
    or the call raised: it goes on to the first page that fails and
    stops there. *)
Theorem exhaustive_scan_queries (conn : connection) (table_name : string)
    (o : options) (coords boros : matrix) (NUM_ROWS : Z)
    (log log' : list event) (r : result (option (matrix * list Z))) :
  all_pages conn table_name o coords boros (page_count NUM_ROWS) 0 None log
  = (r, log') ->
  exists k,
    (k <= page_count NUM_ROWS)%nat
    /\ log' = log ++ page_queries table_name o 0 k
    /\ (forall i, (i < k)%nat -> Z.of_nat i * limit < NUM_ROWS)
    /\ (forall i, (S i < k)%nat -> page_answered conn table_name o 0 log i = true)
    /\ ((k < page_count NUM_ROWS)%nat ->
        exists j, k = S j
          /\ (page_answered conn table_name o 0 log j = false \/ is_ok r = false)).
Proof.
  intros H. apply all_pages_log in H.
  destruct H as (k & Hk & Hlog & Hbefore & Hlast).
  exists k. split; [exact Hk|]. split; [exact Hlog|]. split.
  - intros i Hi. apply page_count_spec. lia.
  - split; [exact Hbefore | exact Hlast].
Qed.

Lemma exhaustive_scan_queries_witness :
  exists k,
    (k <= page_count 3000000)%nat
    /\ [EvQuery (all_command "rides" opts_nn 0);
        EvQuery (all_command "rides" opts_nn 1000000)]
       = [] ++ page_queries "rides" opts_nn 0 k
    /\ (forall i, (i < k)%nat -> Z.of_nat i * limit < 3000000)
    /\ (forall i, (S i < k)%nat ->
          page_answered (conn_later_pages_fail 3000000) "rides" opts_nn 0 [] i = true)
    /\ ((k < page_count 3000000)%nat ->
        exists j, k = S j
          /\ (page_answered (conn_later_pages_fail 3000000) "rides" opts_nn 0 [] j
              = false
              \/ is_ok (fst (all_pages (conn_later_pages_fail 3000000) "rides" opts_nn
                               coords_ex boros_ex (page_count 3000000) 0 None []))
                 = false)).
Proof.
  apply (exhaustive_scan_queries (conn_later_pages_fail 3000000) "rides" opts_nn
           coords_ex boros_ex 3000000 []).
  vm_compute. reflexivity.
Defined.

(** ** The random sample: the retry loop *)

Lemma repeat_snoc_log {A} (log : list A) (x : A) (n : nat) :
  (log ++ [x]) ++ repeat x n = log ++ repeat x (S n).
Proof. now rewrite <- app_assoc. Qed.

Lemma random_rows_retry (conn : connection) (command : string) (attempts : nat) :
  forall (log : list event),
    (forall k, (k < attempts)%nat ->
       no_rows (q_rides conn (log ++ repeat (EvQuery command) k) command) = true) ->
    random_rows conn command attempts log
    = (Ok None, log ++ repeat (EvQuery command) attempts).
Proof.
  induction attempts as [|attempts IH]; intros log H; cbn [random_rows].
  - unfold mret. now rewrite app_nil_r.
  - assert (H0 := H O ltac:(lia)). cbn [repeat] in H0. rewrite app_nil_r in H0.
    assert (Hnext : random_rows conn command attempts (log ++ [EvQuery command])
                    = (Ok None, log ++ repeat (EvQuery command) (S attempts))).
    { rewrite <- repeat_snoc_log. apply IH. intros k Hk.
      rewrite repeat_snoc_log. apply H. lia. }
    unfold mbind, attempt_query.
    destruct (q_rides conn log command) as [[|row rows]|e];
      [exact Hnext | discriminate H0 | exact Hnext].
Qed.

(** X20. The random variant sends the same query again for as long as
    the answer is an error or holds no row, and returns the rows of the
    first answer that holds one: after [n] such answers the log holds the
    query [n + 1] times. *)
Theorem random_query_retried (conn : connection) (command : string)
    (n attempts : nat) (log : list event) (rows : list ride_row) :
  (n < attempts)%nat ->
  (forall k, (k < n)%nat ->
     no_rows (q_rides conn (log ++ repeat (EvQuery command) k) command) = true) ->
  q_rides conn (log ++ repeat (EvQuery command) n) command = Ok rows ->
  rows <> [] ->
  random_rows conn command attempts log
  = (Ok (Some rows), log ++ repeat (EvQuery command) (S n)).
Proof.
  revert attempts log.
  induction n as [|n IH]; intros attempts log Hn Hfail Hrows Hne;
    (destruct attempts as [|attempts]; [lia|]); cbn [random_rows];
    unfold mbind, attempt_query.
  - cbn [repeat] in Hrows. rewrite app_nil_r in Hrows. rewrite Hrows.
    destruct rows as [|row rows]; [contradiction|]. reflexivity.
  - assert (H0 := Hfail O ltac:(lia)). cbn [repeat] in H0. rewrite app_nil_r in H0.
    assert (Hnext : random_rows conn command attempts (log ++ [EvQuery command])
                    = (Ok (Some rows), log ++ repeat (EvQuery command) (S (S n)))).
    { rewrite <- repeat_snoc_log. apply IH; [lia| |now rewrite repeat_snoc_log|exact Hne].
      intros k Hk. rewrite repeat_snoc_log. apply Hfail. lia. }
    destruct (q_rides conn log command) as [[|row0 rows0]|e];
      [exact Hnext | discriminate H0 | exact Hnext].
Qed.

Lemma random_query_retried_witness :
  random_rows conn_second_answer "q" 5 []
  = (Ok (Some [ride_row_of ride_ten_minutes]), [] ++ repeat (EvQuery "q") 2).
Proof.
  apply (random_query_retried conn_second_answer "q" 1 5 []
           [ride_row_of ride_ten_minutes]).
  - lia.
  - intros k Hk. assert (k = O) by lia. subst k. reflexivity.
  - reflexivity.
  - discriminate.
Defined.

(** X21. Nothing bounds the retries of the random variant: while every
    answer is an error or holds no row, each attempt sends the query
    once more and none gives a result, whatever the number of attempts
    allowed. *)
Theorem random_query_never_gives_up (conn : connection) (command : string)
    (attempts : nat) (log : list event) :
  (forall k, (k < attempts)%nat ->
     no_rows (q_rides conn (log ++ repeat (EvQuery command) k) command) = true) ->
  random_rows conn command attempts log
  = (Ok None, log ++ repeat (EvQuery command) attempts).
Proof. exact (random_rows_retry conn command attempts log). Qed.

Lemma random_query_never_gives_up_witness :
  random_rows (conn_rides_fail 7) "q" 3 []
  = (Ok None, [] ++ repeat (EvQuery "q") 3).
Proof.
  apply (random_query_never_gives_up (conn_rides_fail 7) "q" 3 []).
  intros k _. reflexivity.
Defined.

(** The pair returned by the random sample. *)
Lemma extract_random_data_features_ok (BOROUGHS : list (string * Z))
    (conn : connection) (table_name : string) (random_size : option Z)
    (coords_table_name boros_table_name : string) (o : options) (attempts : nat)
    (log log' : list event) (F : matrix) (T : list Z) :
  extract_random_data_features BOROUGHS conn table_name random_size
    coords_table_name boros_table_name o attempts log = (Ok (Some (F, T)), log') ->
  nrows F = length T /\ Forall (fun v => (inject_Z v <= cutoff_val o)%Q) T.
Proof.
  unfold extract_random_data_features, mbind, lift, mret.
  destruct (check_super_boros o); [|discriminate].
  destruct (extract_all_coordinates conn coords_table_name true log)
    as [[coords|] log1]; [|discriminate].
  destruct (extract_all_boroughs BOROUGHS conn boros_table_name 263 log1)
    as [[boros|] log2]; [|discriminate].
  destruct (random_rows conn (random_command table_name o random_size) attempts log2)
    as [[[rows|]|] log3]; [|discriminate|discriminate].
  destruct (transform o coords boros rows (use_nn_ordering o)) as [[fs os]|];
    [|discriminate].
  rewrite rbind_ok.
  destruct (get_significant_data fs os (cutoff_val o)) as [fo|] eqn:Hgsd;
    [|discriminate].
  intros E. injection E as -> _.
  exact (get_significant_data_consistent _ _ _ _ Hgsd).
Qed.

(** X22. A pair that [extract_random_data_features] returns is
    consistent: one feature row per target and no target above the
    cutoff. *)
Theorem extract_random_data_features_consistent (BOROUGHS : list (string * Z))
    (conn : connection) (table_name : string) (random_size : option Z)
    (coords_table_name boros_table_name : string) (o : options) (attempts : nat)
    (log log' : list event) (F : matrix) (T : list Z) :
  extract_random_data_features BOROUGHS conn table_name random_size
    coords_table_name boros_table_name o attempts log = (Ok (Some (F, T)), log') ->
  nrows F = length T /\ Forall (fun v => (inject_Z v <= cutoff_val o)%Q) T.
Proof. exact (extract_random_data_features_ok BOROUGHS conn table_name random_size coords_table_name boros_table_name o attempts log log' F T). Qed.

Lemma extract_random_data_features_consistent_witness :
  nrows {| m_family := Dense; m_ncols := 22; m_rows := [row_nn_ordering] |}
  = length [605]
  /\ Forall (fun v => (inject_Z v <= cutoff_val opts_nn)%Q) [605].
Proof.
  apply (extract_random_data_features_consistent boroughs_ex
           (conn_one_ride_per_page 1) "rides" (Some 5) "coordinates" "locations"
           opts_nn 1 []
           (snd (extract_random_data_features boroughs_ex (conn_one_ride_per_page 1)
                   "rides" (Some 5) "coordinates" "locations" opts_nn 1 []))).
  vm_compute. reflexivity.
Defined.

(** ** The entry point: the variant *)

(** X23. [extract_features] looks the cutoff up before it looks at the
    variant: with a variant other than the three known ones the file is
    read all the same, a failure of the lookup is what the call raises,
    and only after a successful lookup does the call exit with the
    message about the type.  The database is not queried. *)
Theorem unknown_variant_exits (BOROUGHS : list (string * Z))
    (fs : string -> result (list (Q * Q))) (conn : connection)
    (table_name variant : string) (size block_size : option Z) (o : options)
    (stddev_multiplier : Q) (cutoff_data_csv : string) (attempts : nat)
    (log : list event) :
  variant <> "all"%string -> variant <> "random"%string ->
  variant <> "batch"%string ->
  extract_features BOROUGHS fs conn table_name variant size block_size o
    stddev_multiplier cutoff_data_csv attempts log
  = (match fst (get_cutoff_value fs stddev_multiplier cutoff_data_csv log) with
     | Ok _ => Err (SystemExit
                      (ExitMessage "Type must be one of {'all', 'random', 'batch'}."))
     | Err e => Err e
     end,
     log ++ [EvReadFile cutoff_data_csv]).
Proof.
  intros Hall Hrandom Hbatch.
  apply String.eqb_neq in Hall, Hrandom, Hbatch.
  unfold extract_features, mbind, get_cutoff_value. cbn [fst].
  destruct (rbind (fs cutoff_data_csv) _) as [cutoff|e]; [|reflexivity].
  rewrite Hall, Hrandom, Hbatch. reflexivity.
Qed.

Lemma unknown_variant_exits_witness :
  extract_features boroughs_ex cutoff_files (conn_rides_fail 7) "rides" "All"
    None None opts_nn 1 "./data_analysis/multiplier_tbl.csv" 1 []
  = (Err (SystemExit (ExitMessage "Type must be one of {'all', 'random', 'batch'}.")),
     [] ++ [EvReadFile "./data_analysis/multiplier_tbl.csv"]).
Proof.
  apply (unknown_variant_exits boroughs_ex cutoff_files (conn_rides_fail 7) "rides"
           "All" None None opts_nn 1 "./data_analysis/multiplier_tbl.csv" 1 []);
    discriminate.
Defined.

(** ** The block-shuffled variant *)

Lemma batch_loop_yields (conn : connection) (table_name : string) (o : options) (coords boros : matrix)
    (block_size NUM_BLKS BLKS_PER_BATCH : Z) (choice : nat -> list Z)
    (batch_idxs : list nat) :
  forall (cur : option (matrix * list Z)) (log log' : list event)
         (batches : list (matrix * list Z)),
    batch_loop conn table_name o coords boros block_size NUM_BLKS BLKS_PER_BATCH
      choice batch_idxs cur log = (Ok batches, log') ->
    length batches = length batch_idxs
    /\ Forall (consistent (cutoff_val o)) batches.
Proof.
  induction batch_idxs as [|batch_idx rest IH]; intros cur log log' batches;
    cbn [batch_loop].
  - unfold mret. intros E. injection E as <- _. split; [reflexivity | constructor].
  - unfold mbind, lift, mret.
    destruct (choice_ok NUM_BLKS BLKS_PER_BATCH); [|discriminate].
    destruct (batch_blocks conn table_name o coords boros block_size 0
                (np_sort (choice batch_idx)) cur log) as [[cur'|] log1];
      [|discriminate].
    destruct (return_bound cur') as [[features outputs]|]; [|discriminate].
    rewrite rbind_ok.
    destruct (get_significant_data features outputs (cutoff_val o)) as [fo|] eqn:Hgsd;
      [|discriminate].
    destruct (batch_loop conn table_name o coords boros block_size NUM_BLKS
                BLKS_PER_BATCH choice rest (Some fo) log1) as [[more|] log2] eqn:Hmore;
      [|discriminate].
    intros E. injection E as <- _.
    destruct (IH _ _ _ _ Hmore) as (Hlen & Hall).
    split; [cbn [length]; now rewrite Hlen|].
    constructor; [exact (get_significant_data_consistent _ _ _ _ Hgsd) | exact Hall].
Qed.

(** X24. When the count query answers [N], a generator that runs to its
    end has yielded [floor(N / batch_size)] batches, and each of them is
    consistent: one feature row per target, no target above the cutoff. *)
Theorem batch_generator_yields (BOROUGHS : list (string * Z)) (conn : connection)
    (table_name : string) (batch_size block_size : Z)
    (coords_table_name boros_table_name : string) (o : options)
    (choice : nat -> list Z) (N : Z) (log log' : list event)
    (batches : list (matrix * list Z)) :
  (forall l, q_count conn l ("SELECT COUNT(PULocationID) FROM " ++ table_name ++ " ")
             = Ok N) ->
  extract_batch_features BOROUGHS conn table_name batch_size block_size
    coords_table_name boros_table_name o choice log = (Ok batches, log') ->
  length batches = Z.to_nat (N / batch_size)
  /\ Forall (consistent (cutoff_val o)) batches.
Proof.
  intros Hcount. unfold extract_batch_features, mbind, lift.
  destruct (check_super_boros o); [|discriminate].
  destruct (extract_all_coordinates conn coords_table_name true log)
    as [[coords|] log1]; [|discriminate].
  destruct (extract_all_boroughs BOROUGHS conn boros_table_name 263 log1)
    as [[boros|] log2]; [|discriminate].
  unfold count_rows, mbind, attempt_query, mret. rewrite Hcount.
  destruct ((batch_size =? 0) || (block_size =? 0)); [discriminate|].
  intros H. apply batch_loop_yields in H. rewrite length_seq in H. exact H.
Qed.

Lemma batch_generator_yields_witness :
  length [({| m_family := Dense; m_ncols := 22; m_rows := [row_nn_ordering] |}, [605]);
          ({| m_family := Dense; m_ncols := 22; m_rows := [row_nn_ordering] |}, [605])]
  = Z.to_nat (5 / 2)
  /\ Forall (consistent (cutoff_val opts_nn))
       [({| m_family := Dense; m_ncols := 22; m_rows := [row_nn_ordering] |}, [605]);
        ({| m_family := Dense; m_ncols := 22; m_rows := [row_nn_ordering] |}, [605])].
Proof.
  apply (batch_generator_yields boroughs_ex (conn_one_ride_per_page 5) "rides" 2 2
           "coordinates" "locations" opts_nn (fun _ => [0]) 5 []
           (snd (extract_batch_features boroughs_ex (conn_one_ride_per_page 5) "rides"
                   2 2 "coordinates" "locations" opts_nn (fun _ => [0]) []))).
  - intros l. reflexivity.
  - vm_compute. reflexivity.
Defined.

Lemma insert_sorted_In (x y : Z) (l : list Z) :
  In x (insert_sorted y l) -> x = y \/ In x l.
Proof.
  induction l as [|z l IH]; simpl.
  - intros [H|[]]. now left.
  - destruct (y <=? z); simpl.
    + intros [H|H]; [now left | now right].
    + intros [H|H]; [right; now left|].
      destruct (IH H) as [H'|H']; [now left | right; now right].
Qed.

Lemma np_sort_In (x : Z) (l : list Z) : In x (np_sort l) -> In x l.
Proof.
  unfold np_sort. induction l as [|y l IH]; simpl; [tauto|].
  intros H. apply insert_sorted_In in H. destruct H as [H|H]; [now left|].
  right. exact (IH H).
Qed.

Lemma batch_blocks_no_rows (conn : connection) (table_name : string) (o : options)
    (coords boros : matrix) (block_size : Z) (blks : list Z)
    (cur : option (matrix * list Z)) :
  (forall blk l, In blk blks ->
     no_rows (q_rides conn l (batch_block_command table_name o block_size blk))
     = true) ->
  forall (i : nat) (log : list event),
    batch_blocks conn table_name o coords boros block_size i blks cur log
    = (Ok cur,
       log ++ map (fun blk => EvQuery (batch_block_command table_name o block_size blk))
                blks).
Proof.
  induction blks as [|blk rest IH]; intros H i log; cbn [batch_blocks map].
  - unfold mret. now rewrite app_nil_r.
  - assert (H0 := H blk log (or_introl eq_refl)).
    assert (Hnext := IH (fun b l Hb => H b l (or_intror Hb)) (S i)
                       (log ++ [EvQuery (batch_block_command table_name o block_size blk)])).
    rewrite <- app_assoc in Hnext. cbn [app] in Hnext.
    unfold mbind, attempt_query.
    destruct (q_rides conn log _) as [[|row rows]|e];
      [exact Hnext | discriminate H0 | exact Hnext].
Qed.

(** X25. When no block of the first batch holds a row (every block query
    fails or comes back empty), the generator does not yield an empty
    batch: after the queries of that batch, in increasing block order,
    the filter is called on names that were never bound and the call
    raises [UnboundLocalError]. *)
Theorem empty_first_batch_unbound (conn : connection) (table_name : string)
    (o : options) (coords boros : matrix) (block_size NUM_BLKS BLKS_PER_BATCH : Z)
    (choice : nat -> list Z) (batch_idx : nat) (rest : list nat)
    (log : list event) :
  choice_ok NUM_BLKS BLKS_PER_BATCH = true ->
  (forall blk l, In blk (choice batch_idx) ->
     no_rows (q_rides conn l (batch_block_command table_name o block_size blk))
     = true) ->
  batch_loop conn table_name o coords boros block_size NUM_BLKS BLKS_PER_BATCH
    choice (batch_idx :: rest) None log
  = (Err UnboundLocalError,
     log ++ map (fun blk => EvQuery (batch_block_command table_name o block_size blk))
              (np_sort (choice batch_idx))).
Proof.
  intros Hok Hempty. cbn [batch_loop]. unfold mbind, lift. rewrite Hok.
  rewrite batch_blocks_no_rows; [reflexivity|].
  intros blk l Hin. apply Hempty. exact (np_sort_In _ _ Hin).
Qed.

Lemma empty_first_batch_unbound_witness :
  batch_loop (conn_rides_fail 4) "rides" opts_nn coords_ex regions_array_ex
    2 2 1 (fun _ => [1]) [O; 1%nat] None []
  = (Err UnboundLocalError,
     [] ++ map (fun blk => EvQuery (batch_block_command "rides" opts_nn 2 blk))
             (np_sort [1])).
Proof.
  apply (empty_first_batch_unbound (conn_rides_fail 4) "rides" opts_nn coords_ex
           regions_array_ex 2 2 1 (fun _ => [1]) O [1%nat] []).
  - reflexivity.
  - intros blk l _. reflexivity.
Defined.

(** X26. When no block of a later batch holds a row, the generator
    yields the previous batch a second time: the names still hold the
    filtered pair of the batch before, and filtering it again changes
    nothing. *)
Theorem empty_batch_repeats_previous (conn : connection) (table_name : string)
    (o : options) (coords boros : matrix) (block_size NUM_BLKS BLKS_PER_BATCH : Z)
    (choice : nat -> list Z) (batch_idx : nat) (rest : list nat)
    (F0 : matrix) (T0 : list Z) (prev : matrix * list Z)
    (log log' : list event) (batches : list (matrix * list Z)) :
  get_significant_data F0 T0 (cutoff_val o) = Ok prev ->
  (forall blk l, In blk (choice batch_idx) ->
     no_rows (q_rides conn l (batch_block_command table_name o block_size blk))
     = true) ->
  batch_loop conn table_name o coords boros block_size NUM_BLKS BLKS_PER_BATCH
    choice (batch_idx :: rest) (Some prev) log = (Ok batches, log') ->
  hd_error batches = Some prev.
Proof.
  intros Hprev Hempty. cbn [batch_loop]. unfold mbind, lift, mret.
  destruct (choice_ok NUM_BLKS BLKS_PER_BATCH); [|discriminate].
  rewrite batch_blocks_no_rows
    by (intros blk l Hin; apply Hempty; exact (np_sort_In _ _ Hin)).
  cbn [return_bound]. destruct prev as [F' T']. rewrite rbind_ok.
  rewrite (get_significant_data_again _ _ _ _ _ Hprev).
  match goal with
  | |- (match ?x with _ => _ end) = _ -> _ => destruct x as [[more|] log2]
  end; [|discriminate].
  intros E. injection E as <- _. reflexivity.
Qed.

Lemma empty_batch_repeats_previous_witness :
  hd_error [({| m_family := Dense; m_ncols := 22; m_rows := [row_nn_ordering] |}, [605])]
  = Some ({| m_family := Dense; m_ncols := 22; m_rows := [row_nn_ordering] |}, [605]).
Proof.
  apply (empty_batch_repeats_previous (conn_rides_fail 4) "rides" opts_nn coords_ex
           regions_array_ex 2 2 1 (fun _ => [1]) 1%nat []
           {| m_family := Dense; m_ncols := 22; m_rows := [row_nn_ordering] |} [605]
           _ [EvQuery "first batch"]
           (snd (batch_loop (conn_rides_fail 4) "rides" opts_nn coords_ex
                   regions_array_ex 2 2 1 (fun _ => [1]) [1%nat]
                   (Some ({| m_family := Dense; m_ncols := 22;
                             m_rows := [row_nn_ordering] |}, [605]))
                   [EvQuery "first batch"]))).
  - reflexivity.
  - intros blk l _. reflexivity.
  - vm_compute. reflexivity.
Defined.

(** ** The entry point: the pair it returns *)

(** X27. Whatever the variant, a pair that [extract_features] returns
    was filtered with the cutoff looked up in the file, not with a
    [cutoff_val] of the caller: the lookup succeeded with some [c], the
    matrix has one row per target and no target exceeds [c]. *)
Theorem extract_features_pair_consistent (BOROUGHS : list (string * Z))
    (fs : string -> result (list (Q * Q))) (conn : connection)
    (table_name variant : string) (size block_size : option Z) (o : options)
    (stddev_multiplier : Q) (cutoff_data_csv : string) (attempts : nat)
    (log log' : list event) (F : matrix) (T : list Z) :
  extract_features BOROUGHS fs conn table_name variant size block_size o
    stddev_multiplier cutoff_data_csv attempts log
  = (Ok (Some (Features (F, T))), log') ->
  exists c,
    fst (get_cutoff_value fs stddev_multiplier cutoff_data_csv log) = Ok c
    /\ nrows F = length T
    /\ Forall (fun v => (inject_Z v <= c)%Q) T.
Proof.
  unfold extract_features, mbind.
  destruct (get_cutoff_value fs stddev_multiplier cutoff_data_csv log)
    as [[c|] log1]; [|discriminate].
  cbn [fst]. intros H. exists c. split; [reflexivity|]. revert H.
  destruct (String.eqb variant "all").
  - destruct (extract_all_features BOROUGHS conn table_name "coordinates" "locations"
                (with_cutoff o c) log1) as [[fo|] log2] eqn:Hall; [|discriminate].
    unfold mret. intros E. injection E as -> _.
    exact (extract_all_features_ok _ _ _ _ _ _ _ _ _ _ Hall).
  - destruct (String.eqb variant "random").
    + destruct (extract_random_data_features BOROUGHS conn table_name size
                  "coordinates" "locations" (with_cutoff o c) attempts log1)
        as [[[fo|]|] log2] eqn:Hrandom; try discriminate.
      unfold mret. cbn [option_map]. intros E. injection E as -> _.
      exact (extract_random_data_features_ok _ _ _ _ _ _ _ _ _ _ _ _ Hrandom).
    + destruct (String.eqb variant "batch"); [|discriminate].
      destruct size as [sz|]; [|discriminate].
      destruct block_size as [bs|]; [|discriminate].
      destruct (bs =? 0); [discriminate|].
      destruct (sz mod bs >? 0); discriminate.
Qed.

Lemma extract_features_pair_consistent_witness :
  exists c,
    fst (get_cutoff_value cutoff_files 1 "./data_analysis/multiplier_tbl.csv" [])
    = Ok c
    /\ nrows {| m_family := Dense; m_ncols := 22; m_rows := [row_nn_ordering] |}
       = length [605]
    /\ Forall (fun v => (inject_Z v <= c)%Q) [605].
Proof.
  apply (extract_features_pair_consistent boroughs_ex cutoff_files
           (conn_one_ride_per_page 1) "rides" "all" None None opts_nn 1
           "./data_analysis/multiplier_tbl.csv" 1 []
           (snd (extract_features boroughs_ex cutoff_files (conn_one_ride_per_page 1)
                   "rides" "all" None None opts_nn 1
                   "./data_analysis/multiplier_tbl.csv" 1 []))).
  vm_compute. reflexivity.
Defined.

(** ** The exhaustive scan on a table without matching rides *)

Lemma all_pages_no_rows (conn : connection) (table_name : string) (o : options)
    (coords boros : matrix) :
  (forall l offset, q_rides conn l (all_command table_name o offset) = Ok []) ->
  forall (remaining : nat) (offset : Z) (log : list event),
    fst (all_pages conn table_name o coords boros remaining offset None log) = Ok None.
Proof.
  intros Hempty. induction remaining as [|remaining IH]; intros offset log;
    cbn [all_pages].
  - reflexivity.
  - unfold mbind, attempt_query. rewrite Hempty. apply IH.
Qed.

(** X28. When the reference tables load and the count query answers,
    but every page of the rides query comes back without a row (an empty
    table, or a restriction that matches no ride), the exhaustive variant
    does not return an empty pair: it raises [UnboundLocalError]. *)
Theorem scan_without_rows_unbound (BOROUGHS : list (string * Z)) (conn : connection)
    (table_name coords_table_name boros_table_name : string) (o : options)
    (N : Z) (log : list event) :
  check_super_boros o = Ok tt ->
  (forall l, is_ok (fst (extract_all_coordinates conn coords_table_name true l)) = true) ->
  (forall l, is_ok (fst (extract_all_boroughs BOROUGHS conn boros_table_name 263 l))
             = true) ->
  (forall l, q_count conn l ("SELECT COUNT(PULocationID) FROM " ++ table_name ++ " ")
             = Ok N) ->
  (forall l offset, q_rides conn l (all_command table_name o offset) = Ok []) ->
  fst (extract_all_features BOROUGHS conn table_name coords_table_name boros_table_name
         o log) = Err UnboundLocalError.
Proof.
  intros Hcheck Hcoords Hboros Hcount Hempty.
  unfold extract_all_features, mbind, lift. rewrite Hcheck.
  specialize (Hcoords log).
  destruct (extract_all_coordinates conn coords_table_name true log)
    as [[coords|] log1]; [|discriminate Hcoords].
  specialize (Hboros log1).
  destruct (extract_all_boroughs BOROUGHS conn boros_table_name 263 log1)
    as [[boros|] log2]; [|discriminate Hboros].
  unfold count_rows, mbind, attempt_query, mret. rewrite Hcount.
  pose proof (all_pages_no_rows conn table_name o coords boros Hempty
                (page_count N) 0
                (log2 ++ [EvQuery ("SELECT COUNT(PULocationID) FROM "
                                   ++ table_name ++ " ")])) as Hpages.
  destruct (all_pages conn table_name o coords boros (page_count N) 0 None _)
    as [[acc|] log4]; cbn [fst] in Hpages; [|discriminate Hpages].
  injection Hpages as ->. reflexivity.
Qed.

Lemma scan_without_rows_unbound_witness :
  fst (extract_all_features boroughs_ex (conn_no_rides 3000000) "rides" "coordinates"
         "locations" opts_nn []) = Err UnboundLocalError.
Proof.
  apply (scan_without_rows_unbound boroughs_ex (conn_no_rides 3000000) "rides"
           "coordinates" "locations" opts_nn 3000000 []).
  - reflexivity.
  - intros l. rewrite extract_all_coordinates_run. reflexivity.
  - intros l. rewrite extract_all_boroughs_run. vm_compute. reflexivity.
  - intros l. reflexivity.
  - intros l offset. reflexivity.
Defined.

(** ** The location identifiers of the rides that are transformed *)

Lemma map_result_inputs {A B} (f : A -> result B) (l : list A) (bs : list B) :
  map_result f l = Ok bs -> Forall (fun a => is_ok (f a) = true) l.
Proof.
  revert bs. induction l as [|a l IH]; simpl; intros bs; [constructor|].
  destruct (f a) as [b|] eqn:Hb; [|discriminate]. rewrite rbind_ok.
  destruct (map_result f l) as [bs'|]; [|discriminate]. intros _.
  constructor; [now rewrite Hb | exact (IH bs' eq_refl)].
Qed.

Lemma py_index_ok_range {A} (l : list A) (i : Z) :
  is_ok (py_index l i) = true ->
  - Z.of_nat (length l) <= i < Z.of_nat (length l).
Proof.
  unfold py_index.
  destruct (Z.ltb_spec i 0);
    match goal with
    | |- context [(0 <=? ?j) && (?j <? ?n)] =>
        destruct (Z.leb_spec 0 j); [destruct (Z.ltb_spec j n)|]; simpl;
          try discriminate; intros _; lia
    end.
Qed.

Lemma take_rows_indexes (arr : matrix) (ids : list Z) (R : matrix) :
  take_rows arr ids = Ok R -> Forall (indexes arr) ids.
Proof.
  unfold take_rows.
  destruct (map_result _ ids) as [rs|] eqn:Hrs; [|discriminate]. intros _.
  apply map_result_inputs in Hrs. revert Hrs. apply Forall_impl.
  intros i Hi. exact (py_index_ok_range _ _ Hi).
Qed.

Lemma get_one_hot_ok_range (values : list Z) (min_val max_val : Z) (M : matrix) :
  get_one_hot values min_val max_val = Ok M ->
  Forall (fun v => min_val <= v <= max_val) values.
Proof.
  unfold get_one_hot.
  destruct (max_val - min_val + 1 <? 0); [discriminate|].
  destruct (forallb _ _) eqn:Hall; [|discriminate]. intros _.
  apply Forall_forall. intros v Hv.
  pose proof (proj1 (forallb_forall _ _) Hall (v - min_val)
                (in_map (fun i => i - min_val) values v Hv)) as Hc.
  apply andb_prop in Hc. destruct Hc as [H1 H2].
  apply Z.leb_le in H1. apply Z.ltb_lt in H2. lia.
Qed.

Lemma Forall_map_fun {A B} (P : B -> Prop) (f : A -> B) (l : list A) :
  Forall P (map f l) -> Forall (fun a => P (f a)) l.
Proof.
  induction l as [|a l IH]; simpl; intros H; [constructor|].
  inversion H; subst. constructor; [assumption | now apply IH].
Qed.

(** X29. [get_naive_features] returns only for rides whose two location
    identifiers index both reference arrays (a negative identifier
    counting from the end) and, with [include_loc_ids], lie in
    1..maxLocID: a ride from or to location 0, which the condition
    [PULocationID < 264] of the queries lets through, never yields
    features with the one-hot location blocks. *)
Theorem location_ids_in_range (rows : list ride_row) (coords boros : matrix)
    (maxLocID : Z) (dt wd incl nn : bool) (F : matrix) (T : list Z) :
  get_naive_features rows coords boros maxLocID dt wd incl nn = Ok (F, T) ->
  Forall (loc_ids_ok coords boros maxLocID incl) rows.
Proof.
  intros H. apply get_naive_features_inv in H.
  destruct H as (p & PUD & PUC & DOC & PUB & DOB & delta
                 & _ & _ & HPUC & HDOC & HPUB & HDOB & HF & _).
  apply take_rows_indexes, Forall_map_fun in HPUC, HDOC, HPUB, HDOB.
  assert (Hids : incl = true ->
            Forall (fun r => 1 <= PULocationID r <= maxLocID) rows
            /\ Forall (fun r => 1 <= DOLocationID r <= maxLocID) rows).
  { intros ->. destruct HF as (PU1 & DO1 & HPU1 & HDO1 & _).
    apply get_one_hot_ok_range, Forall_map_fun in HPU1, HDO1. now split. }
  apply Forall_forall. intros r Hr.
  pose proof (proj1 (Forall_forall _ _) HPUC r Hr) as H1.
  pose proof (proj1 (Forall_forall _ _) HDOC r Hr) as H2.
  pose proof (proj1 (Forall_forall _ _) HPUB r Hr) as H3.
  pose proof (proj1 (Forall_forall _ _) HDOB r Hr) as H4.
  unfold loc_ids_ok. do 4 (split; [assumption|]).
  intros Hincl. destruct (Hids Hincl) as [HPU HDO].
  split; [exact (proj1 (Forall_forall _ _) HPU r Hr)
         | exact (proj1 (Forall_forall _ _) HDO r Hr)].
Qed.

Lemma location_ids_in_range_witness :
  Forall (loc_ids_ok coords_ex boros_ex 2 true) [ride_row_of ride_ten_minutes].
Proof.
  apply (location_ids_in_range [ride_row_of ride_ten_minutes] coords_ex boros_ex
           2 false false true false
           (fst (match get_naive_features [ride_row_of ride_ten_minutes] coords_ex
                         boros_ex 2 false false true false with
                 | Ok fo => fo
                 | Err _ => (coords_ex, [])
                 end))
           [605]).
  vm_compute. reflexivity.
Defined.
